(** * Barndoor tracker controller v1.4: model and verified properties

    A shallow embedding of [Barndoor_controller_v1.4.ino].  The sketch is
    one translation unit: a handful of global variables, [setup], [loop]
    and the four routines [Button_Scan], [Timer_1], [Homeing] and
    [Tracking].

    Modelling choices, all visible in the definitions below:

    - the target is an AVR board: [int] is 16 bits, [long] is 32 bits.
      Both are modelled as [Z]; signed overflow is undefined behaviour
      in C++, so an operation that would leave the range yields a
      [Fault] instead of a value;
    - the globals and the function-local statics of [Timer_1] are the
      fields of one record [state], with the source's names;
    - the outside world is explicit: every pin access, motor step, wait
      and serial line is appended to a history ([trace], most recent
      event first), the levels written to the output pins are kept in
      [pins], most recent write first;
    - what the program reads from its pins is an argument of the routine
      that reads it;
    - [Timer_1] is an interrupt handler.  It is run at the places where
      the main program waits ([delay], [delayMicroseconds]) and at the
      top of [loop]; how many times it is served in each wait is chosen
      by the environment and is an argument as well.  An interrupt
      between two statements that do not wait is not modelled; the
      handler writes neither [Run_Tracker], [Home_Tracker],
      [Button_Pressed] nor [Steps] (lemma [Timer_1_inv]);
    - [double] arithmetic in [setup] is IEEE-754 arithmetic of the
      standard library's [SpecFloat], parametric in the format, so that
      both the 32-bit [double] of avr-gcc and a 64-bit [double] are
      covered. *)

From Stdlib Require Import ZArith List String Bool Lia QArith SpecFloat.
Import ListNotations.
Local Open Scope string_scope.
Local Open Scope list_scope.
Local Open Scope Z_scope.

(** ** Machine integers and faults *)

Inductive fault :=
| SignedOverflow     (* an [int] or [long] result out of range *)
| BadConversion      (* a [double] that does not fit the [int] it is assigned to *)
| StillWaiting.      (* a polling loop that did not see its exit level *)

Inductive result (A : Type) :=
| Ok (a : A)
| Fault (f : fault).

Arguments Ok {A} a.
Arguments Fault {A} f.

Definition bind {A B : Type} (r : result A) (k : A -> result B) : result B :=
  match r with
  | Ok a => k a
  | Fault f => Fault f
  end.

Notation "x <- c1 ;; c2" := (bind c1 (fun x => c2))
  (at level 61, c1 at next level, right associativity).

Definition INT_MIN : Z := -32768.
Definition INT_MAX : Z := 32767.
Definition LONG_MIN : Z := -2147483648.
Definition LONG_MAX : Z := 2147483647.

Definition as_int (z : Z) : result Z :=
  if (INT_MIN <=? z) && (z <=? INT_MAX) then Ok z else Fault SignedOverflow.

Definition as_long (z : Z) : result Z :=
  if (LONG_MIN <=? z) && (z <=? LONG_MAX) then Ok z else Fault SignedOverflow.

(** ** Pins, events and the program state *)

Inductive level := LOW | HIGH.

Definition is_low (v : level) : bool :=
  match v with LOW => true | HIGH => false end.

Definition is_high (v : level) : bool := negb (is_low v).

(** The pin numbers of the configuration block. *)
Definition Stepper_Enable : Z := 8.
Definition Stepper_Speed : Z := 14.
Definition HomeStart_Pin : Z := 9.
Definition Status_Led_Pin : Z := 17.
Definition Button_Pin : Z := 12.

Inductive pin_mode := INPUT_PULLUP | OUTPUT.

Inductive event :=
| SerialBegin (baud : Z)
| TimerInitialize (microseconds : Z)
| TimerAttach
| PinMode (pin : Z) (m : pin_mode)
| StepperBegin (rpm microsteps : Z)
| DigitalRead (pin : Z) (v : level)
| DigitalWrite (pin : Z) (v : level)
| StepperMove (steps : Z)
| Delay (ms : Z)
| DelayMicroseconds (us : Z)
| SerialPrint (s : string)
| SerialPrintln (s : string)
| SerialPrintNum (n : Z)
| SerialPrintlnNum (n : Z).

Record state := mkState {
  (* globals *)
  Run_Tracker : bool;
  Home_Tracker : bool;
  Button_Pressed : bool;
  Time : Z;
  Button_Timer : Z;
  Steps : Z;
  Steps_mm : Z;
  Step_Limit : Z;
  Rotation_Step_Interval : Z;
  Delay_1 : Z;
  Delay_2 : Z;
  (* statics of Timer_1 *)
  Button_Timer_temp : Z;
  Time_temp : Z;
  Toggle_Flag : bool;
  (* the world *)
  pins : list (Z * level);
  trace : list event
}.

(** Static storage is zero-initialised; [Button_Timer] has the explicit
    initialiser 0. *)
Definition power_on : state :=
  mkState false false false 0 0 0 0 0 0 0 0 0 0 false [] [].

Definition set_Run_Tracker (b : bool) (st : state) : state :=
  mkState b (Home_Tracker st) (Button_Pressed st) (Time st) (Button_Timer st)
    (Steps st) (Steps_mm st) (Step_Limit st) (Rotation_Step_Interval st)
    (Delay_1 st) (Delay_2 st) (Button_Timer_temp st) (Time_temp st)
    (Toggle_Flag st) (pins st) (trace st).

Definition set_Home_Tracker (b : bool) (st : state) : state :=
  mkState (Run_Tracker st) b (Button_Pressed st) (Time st) (Button_Timer st)
    (Steps st) (Steps_mm st) (Step_Limit st) (Rotation_Step_Interval st)
    (Delay_1 st) (Delay_2 st) (Button_Timer_temp st) (Time_temp st)
    (Toggle_Flag st) (pins st) (trace st).

Definition set_Button_Pressed (b : bool) (st : state) : state :=
  mkState (Run_Tracker st) (Home_Tracker st) b (Time st) (Button_Timer st)
    (Steps st) (Steps_mm st) (Step_Limit st) (Rotation_Step_Interval st)
    (Delay_1 st) (Delay_2 st) (Button_Timer_temp st) (Time_temp st)
    (Toggle_Flag st) (pins st) (trace st).

Definition set_Time (z : Z) (st : state) : state :=
  mkState (Run_Tracker st) (Home_Tracker st) (Button_Pressed st) z
    (Button_Timer st) (Steps st) (Steps_mm st) (Step_Limit st)
    (Rotation_Step_Interval st) (Delay_1 st) (Delay_2 st)
    (Button_Timer_temp st) (Time_temp st) (Toggle_Flag st) (pins st)
    (trace st).

Definition set_Button_Timer (z : Z) (st : state) : state :=
  mkState (Run_Tracker st) (Home_Tracker st) (Button_Pressed st) (Time st) z
    (Steps st) (Steps_mm st) (Step_Limit st) (Rotation_Step_Interval st)
    (Delay_1 st) (Delay_2 st) (Button_Timer_temp st) (Time_temp st)
    (Toggle_Flag st) (pins st) (trace st).

Definition set_Steps (z : Z) (st : state) : state :=
  mkState (Run_Tracker st) (Home_Tracker st) (Button_Pressed st) (Time st)
    (Button_Timer st) z (Steps_mm st) (Step_Limit st)
    (Rotation_Step_Interval st) (Delay_1 st) (Delay_2 st)
    (Button_Timer_temp st) (Time_temp st) (Toggle_Flag st) (pins st)
    (trace st).

Definition set_Steps_mm (z : Z) (st : state) : state :=
  mkState (Run_Tracker st) (Home_Tracker st) (Button_Pressed st) (Time st)
    (Button_Timer st) (Steps st) z (Step_Limit st)
    (Rotation_Step_Interval st) (Delay_1 st) (Delay_2 st)
    (Button_Timer_temp st) (Time_temp st) (Toggle_Flag st) (pins st)
    (trace st).

Definition set_Step_Limit (z : Z) (st : state) : state :=
  mkState (Run_Tracker st) (Home_Tracker st) (Button_Pressed st) (Time st)
    (Button_Timer st) (Steps st) (Steps_mm st) z
    (Rotation_Step_Interval st) (Delay_1 st) (Delay_2 st)
    (Button_Timer_temp st) (Time_temp st) (Toggle_Flag st) (pins st)
    (trace st).

Definition set_Rotation_Step_Interval (z : Z) (st : state) : state :=
  mkState (Run_Tracker st) (Home_Tracker st) (Button_Pressed st) (Time st)
    (Button_Timer st) (Steps st) (Steps_mm st) (Step_Limit st) z
    (Delay_1 st) (Delay_2 st) (Button_Timer_temp st) (Time_temp st)
    (Toggle_Flag st) (pins st) (trace st).

Definition set_Delay_1 (z : Z) (st : state) : state :=
  mkState (Run_Tracker st) (Home_Tracker st) (Button_Pressed st) (Time st)
    (Button_Timer st) (Steps st) (Steps_mm st) (Step_Limit st)
    (Rotation_Step_Interval st) z (Delay_2 st) (Button_Timer_temp st)
    (Time_temp st) (Toggle_Flag st) (pins st) (trace st).

Definition set_Delay_2 (z : Z) (st : state) : state :=
  mkState (Run_Tracker st) (Home_Tracker st) (Button_Pressed st) (Time st)
    (Button_Timer st) (Steps st) (Steps_mm st) (Step_Limit st)
    (Rotation_Step_Interval st) (Delay_1 st) z (Button_Timer_temp st)
    (Time_temp st) (Toggle_Flag st) (pins st) (trace st).

Definition set_Button_Timer_temp (z : Z) (st : state) : state :=
  mkState (Run_Tracker st) (Home_Tracker st) (Button_Pressed st) (Time st)
    (Button_Timer st) (Steps st) (Steps_mm st) (Step_Limit st)
    (Rotation_Step_Interval st) (Delay_1 st) (Delay_2 st) z (Time_temp st)
    (Toggle_Flag st) (pins st) (trace st).

Definition set_Time_temp (z : Z) (st : state) : state :=
  mkState (Run_Tracker st) (Home_Tracker st) (Button_Pressed st) (Time st)
    (Button_Timer st) (Steps st) (Steps_mm st) (Step_Limit st)
    (Rotation_Step_Interval st) (Delay_1 st) (Delay_2 st)
    (Button_Timer_temp st) z (Toggle_Flag st) (pins st) (trace st).

Definition set_Toggle_Flag (b : bool) (st : state) : state :=
  mkState (Run_Tracker st) (Home_Tracker st) (Button_Pressed st) (Time st)
    (Button_Timer st) (Steps st) (Steps_mm st) (Step_Limit st)
    (Rotation_Step_Interval st) (Delay_1 st) (Delay_2 st)
    (Button_Timer_temp st) (Time_temp st) b (pins st) (trace st).

(** [emit e] records one interaction with the world. *)
Definition emit (e : event) (st : state) : state :=
  mkState (Run_Tracker st) (Home_Tracker st) (Button_Pressed st) (Time st)
    (Button_Timer st) (Steps st) (Steps_mm st) (Step_Limit st)
    (Rotation_Step_Interval st) (Delay_1 st) (Delay_2 st)
    (Button_Timer_temp st) (Time_temp st) (Toggle_Flag st) (pins st)
    (e :: trace st).

(** The level an output pin is driven to: that of the last write to it;
    a pin never written is [LOW]. *)
Fixpoint last_write (ps : list (Z * level)) (p : Z) : level :=
  match ps with
  | [] => LOW
  | (q, v) :: rest => if p =? q then v else last_write rest p
  end.

Definition pin_level (st : state) (p : Z) : level := last_write (pins st) p.

Definition digitalWrite (pin : Z) (v : level) (st : state) : state :=
  mkState (Run_Tracker st) (Home_Tracker st) (Button_Pressed st) (Time st)
    (Button_Timer st) (Steps st) (Steps_mm st) (Step_Limit st)
    (Rotation_Step_Interval st) (Delay_1 st) (Delay_2 st)
    (Button_Timer_temp st) (Time_temp st) (Toggle_Flag st)
    ((pin, v) :: pins st)
    (DigitalWrite pin v :: trace st).

(** ** The timer interrupt, lines 251-291

    [Timer1.initialize(100000)] programs the period in microseconds. *)

Definition Timer1_period_us : Z := 100000.

(** Lines 257-265. *)
Definition Timer_1_button (st : state) : result state :=
  if Button_Pressed st then
    st <- (if Button_Timer_temp st >? 9 then
             t <- as_int (Button_Timer st + 1) ;;
             Ok (set_Button_Timer t (set_Button_Timer_temp 0 st))
           else Ok st) ;;
    t <- as_int (Button_Timer_temp st + 1) ;;
    Ok (set_Button_Timer_temp t st)
  else Ok st.

(** Lines 267-275. *)
Definition Timer_1_time (st : state) : result state :=
  if Run_Tracker st then
    st <- (if Time_temp st >? 9 then
             t <- as_int (Time st + 1) ;;
             Ok (set_Time t (set_Time_temp 0 st))
           else Ok st) ;;
    t <- as_int (Time_temp st + 1) ;;
    Ok (set_Time_temp t st)
  else Ok st.

(** Lines 278-290. *)
Definition Timer_1_led (st : state) : state :=
  if Run_Tracker st then
    if Toggle_Flag st then
      set_Toggle_Flag (negb (Toggle_Flag st))
        (digitalWrite Status_Led_Pin HIGH st)
    else
      set_Toggle_Flag (negb (Toggle_Flag st))
        (digitalWrite Status_Led_Pin LOW st)
  else st.

Definition Timer_1 (st : state) : result state :=
  st <- Timer_1_button st ;;
  st <- Timer_1_time st ;;
  Ok (Timer_1_led st).

(** [interrupts k] serves the handler [k] times in a row. *)
Fixpoint interrupts (k : nat) (st : state) : result state :=
  match k with
  | O => Ok st
  | S k' => st <- Timer_1 st ;; interrupts k' st
  end.

(** A wait of the main program, during which [k] timer interrupts are
    served. *)
Definition delay (ms : Z) (k : nat) (st : state) : result state :=
  interrupts k (emit (Delay ms) st).

Definition delayMicroseconds (us : Z) (k : nat) (st : state) : result state :=
  interrupts k (emit (DelayMicroseconds us) st).

(** ** Button handling, lines 197-246

    The routine is three consecutive statements: the press latch
    (lines 200-209), the classification of a release (lines 211-237)
    and the hold check (lines 238-245).  Each is a definition of its
    own; [Button_Scan] is their sequence. *)

Record scan_input := mkScan {
  btn_first : level;     (* level read at line 200 *)
  irq_latch : nat;       (* interrupts served during the wait of line 207 *)
  btn_second : level;    (* level read at line 211, if it is read *)
  irq_release : nat;     (* interrupts served during the wait of line 215 or 224 *)
  irq_hold : nat         (* interrupts served during the wait of line 240 *)
}.

Definition Button_Scan_latch (i : scan_input) (st : state) : result state :=
  let st := emit (DigitalRead Button_Pin (btn_first i)) st in
  if is_low (btn_first i) then
    if negb (Button_Pressed st) then
      delay 100 (irq_latch i) (set_Button_Timer 0 (set_Button_Pressed true st))
    else Ok st
  else Ok st.

(** [&&] of line 211 does not read the pin when the latch is clear. *)
Definition Button_Scan_release (i : scan_input) (st : state) : result state :=
  if Button_Pressed st then
    let st := emit (DigitalRead Button_Pin (btn_second i)) st in
    if is_high (btn_second i) then
      if (Button_Timer st <? 1) && negb (Run_Tracker st) then
        st <- delay 100 (irq_release i) st ;;
        Ok (set_Button_Pressed false
           (set_Time 0
           (set_Run_Tracker true
           (emit (SerialPrintln "Tracking Started")
           (digitalWrite Stepper_Enable LOW st)))))
      else if (Button_Timer st <? 1) && Run_Tracker st then
        st <- delay 100 (irq_release i) st ;;
        Ok (digitalWrite Status_Led_Pin LOW
           (set_Button_Pressed false
           (emit (SerialPrintlnNum (Steps st))
           (emit (SerialPrint "Actual step position: ")
           (emit (SerialPrintln "Tracking Stopped")
           (digitalWrite Stepper_Enable HIGH
           (set_Run_Tracker false st)))))))
      else Ok (set_Button_Pressed false st)
    else Ok st
  else Ok st.

Definition Button_Scan_hold (i : scan_input) (st : state) : result state :=
  if Button_Timer st >? 2 then
    st <- delay 100 (irq_hold i) st ;;
    Ok (set_Button_Timer 0
       (set_Button_Pressed false
       (set_Home_Tracker true
       (set_Run_Tracker false st))))
  else Ok st.

Definition Button_Scan (i : scan_input) (st : state) : result state :=
  st <- Button_Scan_latch i st ;;
  st <- Button_Scan_release i st ;;
  Button_Scan_hold i st.

(** ** Homing, lines 296-320

    [seek_home n] is the loop
    [while (digitalRead(HomeStart_Pin) == HIGH) { stepper.move(n); delay(1); }]
    of lines 308-312 (with [n = 1]) and of lines 158-162 (with [n = -1]).
    [polls] lists what the switch shows at the successive reads, each
    with the number of interrupts served during the wait that follows.
    The loop leaves at the first [LOW]; a list without one is a switch
    that has not asserted yet. *)

Fixpoint seek_home (n : Z) (polls : list (level * nat)) (st : state)
  : result state :=
  match polls with
  | [] => Fault StillWaiting
  | (v, k) :: rest =>
      let st := emit (DigitalRead HomeStart_Pin v) st in
      match v with
      | HIGH =>
          st <- delay 1 k (emit (StepperMove n) st) ;;
          seek_home n rest st
      | LOW => Ok st
      end
  end.

Definition Homeing (polls : list (level * nat)) (st : state) : result state :=
  if Home_Tracker st then
    let st := digitalWrite Stepper_Speed LOW st in
    let st := emit (SerialPrintln "Homing!") st in
    let st := set_Run_Tracker false st in
    let st := digitalWrite Status_Led_Pin HIGH st in
    let st := digitalWrite Stepper_Enable LOW st in
    st <- seek_home 1 polls st ;;
    Ok (digitalWrite Status_Led_Pin LOW
       (digitalWrite Stepper_Enable HIGH
       (set_Home_Tracker false
       (set_Steps 0
       (emit (SerialPrintln "Starting point reached") st)))))
  else Ok st.

(** ** Tracking, lines 325-350 *)

Definition Tracking (k1 k2 : nat) (st : state) : result state :=
  if Run_Tracker st then
    let st := digitalWrite Stepper_Speed HIGH st in
    let st := emit (StepperMove (-1)) st in
    s <- as_long (Steps st + 1) ;;
    let st := set_Steps s st in
    st <- delayMicroseconds (Delay_1 st) k1 st ;;
    st <- delayMicroseconds (Delay_2 st) k2 st ;;
    if Steps st >? Step_Limit st then
      Ok (digitalWrite Status_Led_Pin LOW
         (emit (SerialPrintlnNum (Steps st))
         (emit (SerialPrint "Actual step position: ")
         (emit (SerialPrintln "Tracking Stopped")
         (digitalWrite Stepper_Enable HIGH
         (set_Run_Tracker false st))))))
    else Ok st
  else Ok st.

(** ** The main loop, lines 186-191 *)

Record loop_input := mkLoop {
  irq_idle : nat;                   (* interrupts served before Button_Scan *)
  scan : scan_input;
  home_polls : list (level * nat);
  irq_delay_1 : nat;                (* interrupts during delayMicroseconds(Delay_1) *)
  irq_delay_2 : nat                 (* interrupts during delayMicroseconds(Delay_2) *)
}.

Definition loop (i : loop_input) (st : state) : result state :=
  st <- interrupts (irq_idle i) st ;;
  st <- Button_Scan (scan i) st ;;
  st <- Homeing (home_polls i) st ;;
  Tracking (irq_delay_1 i) (irq_delay_2 i) st.

(** [run ins] is one pass of [loop] per element of [ins]. *)
Fixpoint run (ins : list loop_input) (st : state) : result state :=
  match ins with
  | [] => Ok st
  | i :: rest => st <- loop i st ;; run rest st
  end.

(** ** Floating point of [setup]

    The C++ type [double] is binary32 under avr-gcc and binary64 on the
    32-bit boards; the arithmetic is written once for both. *)

Record float_format := mkFormat { prec : Z; emax : Z }.

Definition binary32 : float_format := mkFormat 24 128.
Definition binary64 : float_format := mkFormat 53 1024.

Section Double.

Variable fmt : float_format.

Definition dmul : spec_float -> spec_float -> spec_float :=
  SFmul (prec fmt) (emax fmt).

Definition ddiv : spec_float -> spec_float -> spec_float :=
  SFdiv (prec fmt) (emax fmt).

(** Conversion of an integer operand, rounding to nearest. *)
Definition double_of_Z (z : Z) : spec_float :=
  binary_normalize (prec fmt) (emax fmt) z 0 false.

Definition exact_Z (z : Z) : spec_float :=
  match z with
  | Z0 => S754_zero false
  | Zpos p => S754_finite false p 0
  | Zneg p => S754_finite true p 0
  end.

(** A decimal literal: the nearest value of the format, obtained as the
    correctly rounded quotient of its digits by the power of ten. *)
Definition double_of_decimal (q : Q) : spec_float :=
  ddiv (exact_Z (Qnum q)) (exact_Z (Zpos (Qden q))).

(** [PI] of Arduino.h: [#define PI 3.1415926535897932384626433832795]. *)
Definition PI : spec_float :=
  double_of_decimal
    (31415926535897932384626433832795 # 10000000000000000000000000000000).

(** Assignment of a [double] to an [int]: the fraction is discarded;
    a value that does not fit is undefined behaviour. *)
Definition double_to_int (x : spec_float) : result Z :=
  match x with
  | S754_zero _ => Ok 0
  | S754_finite s m e =>
      let a := if 0 <=? e then Zpos m * 2 ^ e else Zpos m / 2 ^ (- e) in
      let z := if s then - a else a in
      if (INT_MIN <=? z) && (z <=? INT_MAX) then Ok z
      else Fault BadConversion
  | _ => Fault BadConversion
  end.

End Double.

(** ** Configuration and [setup], lines 99-180 *)

Record config := mkConfig {
  MOTOR_STEPS : Z;
  Thread_Pitch_mm : Q;
  Hinge_Distance : Z;
  Threaded_UpperRod_Length : Z
}.

(** The configuration block as shipped (lines 67-72), with the motor
    resolution left open for the two presets. *)
Definition shipped (motor_steps : Z) : config :=
  mkConfig motor_steps (125 # 100) 260 100.

(** The right-hand side of lines 121 and 127; [base] is the literal 0.3
    or 0.15. *)
Definition step_interval (fmt : float_format) (cfg : config) (base : Q)
  : spec_float :=
  dmul fmt
    (ddiv fmt
       (ddiv fmt (double_of_decimal fmt base) (double_of_Z fmt 16))
       (ddiv fmt
          (double_of_Z fmt (Hinge_Distance cfg))
          (ddiv fmt
             (dmul fmt (double_of_decimal fmt (Thread_Pitch_mm cfg))
                (double_of_Z fmt 1436))
             (dmul fmt (double_of_Z fmt 2) (PI fmt)))))
    (double_of_Z fmt 1000000).

(** Lines 117-128. *)
Definition setup_preset (fmt : float_format) (cfg : config) (st : state)
  : result state :=
  if MOTOR_STEPS cfg =? 200 then
    r <- double_to_int (step_interval fmt cfg (3 # 10)) ;;
    Ok (set_Rotation_Step_Interval r (set_Steps_mm 2560 st))
  else if MOTOR_STEPS cfg =? 400 then
    r <- double_to_int (step_interval fmt cfg (15 # 100)) ;;
    Ok (set_Rotation_Step_Interval r (set_Steps_mm 5120 st))
  else Ok st.

(** Lines 130-140. *)
Definition setup_delays (st : state) : result state :=
  if Rotation_Step_Interval st >? 16000 then
    d <- as_int (Rotation_Step_Interval st - 16000) ;;
    Ok (set_Delay_2 d (set_Delay_1 16000 st))
  else
    Ok (set_Delay_2 0 (set_Delay_1 (Rotation_Step_Interval st) st)).

(** Line 144: the subtraction is done in [int], the product in [long]. *)
Definition setup_limit (cfg : config) (st : state) : result state :=
  len <- as_int (Threaded_UpperRod_Length cfg - 10) ;;
  lim <- as_long (Steps_mm st * len) ;;
  Ok (set_Step_Limit lim st).

(** The loop [while (digitalRead(Button_Pin) == LOW) { }] of line 154. *)
Fixpoint wait_release (polls : list level) (st : state) : result state :=
  match polls with
  | [] => Fault StillWaiting
  | v :: rest =>
      let st := emit (DigitalRead Button_Pin v) st in
      match v with
      | LOW => wait_release rest st
      | HIGH => Ok st
      end
  end.

Record boot_input := mkBoot {
  boot_btn : level;                    (* level read at line 152 *)
  boot_btn_polls : list level;         (* levels read at line 154 *)
  boot_home_polls : list (level * nat) (* the switch during lines 158-162 *)
}.

(** Lines 152-164. *)
Definition setup_jog (b : boot_input) (st : state) : result state :=
  let st := emit (DigitalRead Button_Pin (boot_btn b)) st in
  if is_low (boot_btn b) then
    st <- wait_release (boot_btn_polls b) st ;;
    let st := digitalWrite Stepper_Speed LOW st in
    let st := digitalWrite Stepper_Enable LOW st in
    st <- seek_home (-1) (boot_home_polls b) st ;;
    Ok (digitalWrite Stepper_Enable HIGH st)
  else Ok st.

(** Lines 169-178. *)
Definition setup_report (st : state) : state :=
  emit (SerialPrintln "uS")
    (emit (SerialPrintNum (Delay_2 st))
    (emit (SerialPrint "uS + ")
    (emit (SerialPrintNum (Delay_1 st))
    (emit (SerialPrintln "uS")
    (emit (SerialPrintNum (Rotation_Step_Interval st))
    (emit (SerialPrint "Rotation speed = ")
    (emit (SerialPrintlnNum (Step_Limit st))
    (emit (SerialPrint "Step Limit = ") st)))))))).

Definition setup (fmt : float_format) (cfg : config) (b : boot_input)
  : result state :=
  let st := emit (SerialBegin 115200) power_on in
  let st := emit (SerialPrintln "Barndoor tracker v1.4 by Björn Pasteuning") st in
  let st := emit (TimerInitialize Timer1_period_us) st in
  let st := emit TimerAttach st in
  let st := emit (PinMode HomeStart_Pin INPUT_PULLUP) st in
  let st := emit (PinMode Status_Led_Pin OUTPUT) st in
  let st := emit (PinMode Button_Pin INPUT_PULLUP) st in
  let st := digitalWrite Stepper_Enable HIGH st in
  let st := emit (PinMode Stepper_Speed OUTPUT) st in
  let st := digitalWrite Stepper_Speed LOW st in
  let st := emit (StepperBegin 1 16) st in
  st <- setup_preset fmt cfg st ;;
  st <- setup_delays st ;;
  st <- setup_limit cfg st ;;
  let st := set_Home_Tracker true st in
  let st := set_Run_Tracker false st in
  let st := set_Time 0 st in
  let st := set_Steps 0 st in
  let st := set_Button_Pressed false st in
  st <- setup_jog b st ;;
  Ok (setup_report st).

(** ** Reachable states

    The states the program can be in between two passes of [loop]:
    what [setup] leaves, and what a pass of [loop] makes of such a
    state. *)

Inductive reachable (fmt : float_format) (cfg : config) : state -> Prop :=
| reach_setup : forall b st,
    setup fmt cfg b = Ok st -> reachable fmt cfg st
| reach_loop : forall i st st',
    reachable fmt cfg st -> loop i st = Ok st' -> reachable fmt cfg st'.

(** ** Direction of a motor command

    [stepper.move(n)] of the A4988 driver library takes a signed step
    count: a negative count turns the motor in reverse, any other
    forward. *)

Inductive direction := Forward | Reverse.

Definition direction_of (steps : Z) : direction :=
  if steps <? 0 then Reverse else Forward.

(** The motor commands of a history, most recent first. *)
Fixpoint moves (tr : list event) : list Z :=
  match tr with
  | [] => []
  | StepperMove n :: rest => n :: moves rest
  | _ :: rest => moves rest
  end.

Definition no_boot_button : boot_input := mkBoot HIGH [] [].

Definition quiet_scan : scan_input := mkScan HIGH 0 HIGH 0 0.

(** The idle pass of [loop]: button up, nothing served, switch closed. *)
Definition quiet : loop_input := mkLoop 0 quiet_scan [(LOW, 0%nat)] 0 0.

(** * Vocabulary of the statements

    Projections of the state and of the history, and the inputs and
    sample states that the statements below are about. *)

(** A write to the status indicator, the only thing [Timer_1] does to
    the world. *)
Definition led_write (e : event) : Prop :=
  exists v, e = DigitalWrite Status_Led_Pin v.

(** [isr_frame st st'] relates a state to one that differs from it by
    served interrupts only. *)
Record isr_frame (st st' : state) : Prop := mkFrame {
  fr_Run_Tracker : Run_Tracker st' = Run_Tracker st;
  fr_Home_Tracker : Home_Tracker st' = Home_Tracker st;
  fr_Button_Pressed : Button_Pressed st' = Button_Pressed st;
  fr_Steps : Steps st' = Steps st;
  fr_Steps_mm : Steps_mm st' = Steps_mm st;
  fr_Step_Limit : Step_Limit st' = Step_Limit st;
  fr_Interval : Rotation_Step_Interval st' = Rotation_Step_Interval st;
  fr_Delay_1 : Delay_1 st' = Delay_1 st;
  fr_Delay_2 : Delay_2 st' = Delay_2 st;
  fr_pins : forall p, p <> Status_Led_Pin -> pin_level st' p = pin_level st p;
  fr_trace : exists ws, trace st' = ws ++ trace st /\ Forall led_write ws;
  fr_latch_clear : Button_Pressed st = false ->
    Button_Timer st' = Button_Timer st /\
    Button_Timer_temp st' = Button_Timer_temp st;
  fr_stopped : Run_Tracker st = false ->
    Time st' = Time st /\ Time_temp st' = Time_temp st /\
    Toggle_Flag st' = Toggle_Flag st /\
    pins st' = pins st /\ trace st' = trace st
}.

(** [room k st]: the two software clocks of [Timer_1] are in their
    working range and can be advanced [k] more times without leaving
    [int]. *)
Definition room (k : Z) (st : state) : Prop :=
  0 <= Button_Timer_temp st <= 10 /\ 0 <= Time_temp st <= 10 /\
  INT_MIN <= Button_Timer st /\ Button_Timer st + k <= INT_MAX /\
  INT_MIN <= Time st /\ Time st + k <= INT_MAX.

(** One tick of a clock [(temp, count)], as lines 259-264 and 269-274
    perform it. *)
Definition advance (c : Z * Z) : Z * Z :=
  if fst c >? 9 then (1, snd c + 1) else (fst c + 1, snd c).

(** The two software clocks of [Timer_1], as (sub-tick, count). *)
Definition button_clock (st : state) : Z * Z :=
  (Button_Timer_temp st, Button_Timer st).

Definition time_clock (st : state) : Z * Z :=
  (Time_temp st, Time st).

(** The state with a clock replaced. *)
Definition with_button_clock (c : Z * Z) (st : state) : state :=
  set_Button_Timer_temp (fst c) (set_Button_Timer (snd c) st).

Definition with_time_clock (c : Z * Z) (st : state) : state :=
  set_Time_temp (fst c) (set_Time (snd c) st).

(** [advance_n n] is [n] ticks of a clock. *)
Fixpoint advance_n (n : nat) (c : Z * Z) : Z * Z :=
  match n with
  | O => c
  | S n' => advance_n n' (advance c)
  end.

(** The levels read from [pin], most recent first. *)
Fixpoint pin_reads (pin : Z) (tr : list event) : list level :=
  match tr with
  | [] => []
  | DigitalRead p v :: rest =>
      if p =? pin then v :: pin_reads pin rest else pin_reads pin rest
  | _ :: rest => pin_reads pin rest
  end.

Definition timing (st : state) : Z * Z * Z * Z * Z :=
  (Steps_mm st, Step_Limit st, Rotation_Step_Interval st, Delay_1 st,
   Delay_2 st).

Definition control (st : state) : bool * bool * bool * Z :=
  (Run_Tracker st, Home_Tracker st, Button_Pressed st, Steps st).

(** Number of interrupts a list of polls asks for. *)
Fixpoint irq_total (polls : list (level * nat)) : Z :=
  match polls with
  | [] => 0
  | (_, k) :: rest => Z.of_nat k + irq_total rest
  end.

(** What lines 340-345 add to the history, most recent first. *)
Definition stop_report (steps : Z) : list event :=
  [DigitalWrite Status_Led_Pin LOW;
   SerialPrintlnNum steps;
   SerialPrint "Actual step position: ";
   SerialPrintln "Tracking Stopped";
   DigitalWrite Stepper_Enable HIGH].

(** Number of times homing has been started, read off the history. *)
Fixpoint homing_starts (tr : list event) : Z :=
  match tr with
  | [] => 0
  | SerialPrintln s :: rest =>
      if String.eqb s "Homing!" then 1 + homing_starts rest
      else homing_starts rest
  | _ :: rest => homing_starts rest
  end.

(** [setup] followed by the passes of [loop] that [ins] describes. *)
Definition power_up (fmt : float_format) (cfg : config) (b : boot_input)
           (ins : list loop_input) : result state :=
  st <- setup fmt cfg b ;; run ins st.

(** [cruising L t s j st]: tracking, nothing pending, the button clock
    stopped at [(t, 0)], limit [L], position [s], and [j] ticks on the
    clock of [Time] since tracking began. *)
Definition cruising (L t s : Z) (j : nat) (st : state) : Prop :=
  Run_Tracker st = true /\ Home_Tracker st = false /\
  Button_Pressed st = false /\ Button_Timer st = 0 /\
  Button_Timer_temp st = t /\ Step_Limit st = L /\ Steps st = s /\
  time_clock st = advance_n j (0, 0).

(** A pass of [loop] with the button down at both reads, the switch
    closed, and [k] interrupts served before the scan and one during
    the wait that follows a new latch. *)
Definition held (k : nat) : loop_input :=
  mkLoop k (mkScan LOW 1 LOW 0 0) [(LOW, 0%nat)] 0 0.

(** A release that follows a latched press: the button is up at both
    reads, one interrupt is served during the wait of the release. *)
Definition released : loop_input :=
  mkLoop 0 (mkScan HIGH 0 HIGH 1 0) [(LOW, 0%nat)] 0 0.

(** A pass with the button up during which the timer fires once, in
    the first wait of [Tracking]. *)
Definition ticking : loop_input :=
  mkLoop 0 quiet_scan [(LOW, 0%nat)] 1 0.

(** Ten passes of undisturbed tracking.  With the shipped interval of
    10301 microseconds they take a little longer than the timer period
    of 100 ms: the timer fires once. *)
Definition ten_passes : list loop_input := repeat quiet 9 ++ [ticking].

(** The shipped 400-step machine one step short of its limit. *)
Definition at_limit : state :=
  mkState true false false 0 0 460800 5120 460800 10301 10301 0 1 1 false
    [] [].

(** A machine with the press latched and both flags set, about to
    home. *)
Definition homing_request : state :=
  mkState true true true 7 0 1234 5120 460800 10301 10301 0 3 4 true
    [] [DigitalRead Button_Pin LOW].

(** A short press released while idle, after homing. *)
Definition tap_idle : state :=
  mkState false false true 3 0 0 5120 460800 10301 10301 0 2 5 false
    [(Stepper_Enable, HIGH)]
    [DigitalRead Button_Pin LOW].

(** A press that has been latched for three counts while tracking. *)
Definition long_hold : state :=
  mkState true false true 9 3 777 5120 460800 10301 10301 0 1 6 true
    [] [DigitalRead Button_Pin LOW].

(** Everything but the history. *)
Definition sans_trace (st : state)
  : (bool * bool * bool * Z) * (Z * Z * Z * Z * Z) * (Z * Z) * (Z * Z) *
    bool * list (Z * level) :=
  (control st, timing st, button_clock st, time_clock st, Toggle_Flag st,
   pins st).

(** Everything but the constants that [setup] computes. *)
Definition sans_timing (st : state)
  : (bool * bool * bool * Z) * (Z * Z) * (Z * Z) * bool *
    list (Z * level) * list event :=
  (control st, button_clock st, time_clock st, Toggle_Flag st, pins st,
   trace st).

(** The commands that reach the motor driver's step and resolution
    inputs, most recent first. *)
Definition drive_event (e : event) : bool :=
  match e with
  | StepperMove _ => true
  | DigitalWrite p _ => p =? Stepper_Speed
  | _ => false
  end.

Definition drive_log (tr : list event) : list event := filter drive_event tr.

(** The motor commands issued since homing last completed (line 314
    reports it), most recent first. *)
Fixpoint moves_since_homing (tr : list event) : list Z :=
  match tr with
  | [] => []
  | StepperMove n :: rest => n :: moves_since_homing rest
  | SerialPrintln s :: rest =>
      if String.eqb s "Starting point reached" then []
      else moves_since_homing rest
  | _ :: rest => moves_since_homing rest
  end.

(** The driver is enabled exactly while tracking, and the indicator is
    dark when not tracking. *)
Definition outputs_follow_mode (st : state) : Prop :=
  pin_level st Stepper_Enable = (if Run_Tracker st then LOW else HIGH) /\
  (Run_Tracker st = false -> pin_level st Status_Led_Pin = LOW).

(** The arguments of the calls of [delayMicroseconds], most recent
    first. *)
Fixpoint waits_us (tr : list event) : list Z :=
  match tr with
  | [] => []
  | DelayMicroseconds us :: rest => us :: waits_us rest
  | _ :: rest => waits_us rest
  end.

(** [Button_Scan] does not touch the motor, the switch or [Steps], and
    never withdraws a homing request. *)
Record scan_frame (st st' : state) : Prop := mkScanFrame {
  sf_Steps : Steps st' = Steps st;
  sf_waits : waits_us (trace st') = waits_us (trace st);
  sf_timing : timing st' = timing st;
  sf_moves : moves (trace st') = moves (trace st);
  sf_since : moves_since_homing (trace st') = moves_since_homing (trace st);
  sf_drive : drive_log (trace st') = drive_log (trace st);
  sf_switch : pin_reads HomeStart_Pin (trace st') =
              pin_reads HomeStart_Pin (trace st);
  sf_Home : Home_Tracker st = true -> Home_Tracker st' = true
}.

(** The software clocks in their working range: the sub-tick counters
    within 0..10, the counts not negative. *)
Definition clocks_ok (st : state) : Prop :=
  0 <= Button_Timer_temp st <= 10 /\ 0 <= Time_temp st <= 10 /\
  0 <= Button_Timer st /\ 0 <= Time st.

(** What the clocks and the latch go through in a stretch of the main
    program that only waits: the latch is as before, the clocks stay
    in range, and [Button_Timer] stands still unless the press is
    latched. *)
Definition wait_frame (st st' : state) : Prop :=
  Button_Pressed st' = Button_Pressed st /\
  (clocks_ok st -> clocks_ok st') /\
  (Button_Pressed st = false -> Button_Timer st' = Button_Timer st).

(** What [n] consecutive interrupts write to the indicator while
    tracking, most recent first, when the first of them finds
    [Toggle_Flag = f] (lines 278-290). *)
Fixpoint blink (n : nat) (f : bool) : list event :=
  match n with
  | O => []
  | S n' =>
      blink n' (negb f) ++
      [DigitalWrite Status_Led_Pin (if f then HIGH else LOW)]
  end.

(** Number of interrupts that a pass of [loop] asks for when every
    wait of it is reached. *)
Definition irq_pass (i : loop_input) : Z :=
  Z.of_nat (irq_idle i) +
  (Z.of_nat (irq_latch (scan i)) + Z.of_nat (irq_release (scan i)) +
   Z.of_nat (irq_hold (scan i))) +
  irq_total (home_polls i) +
  (Z.of_nat (irq_delay_1 i) + Z.of_nat (irq_delay_2 i)).

(** * Properties *)

(** ** The result monad *)

Lemma bind_Ok_inv {A B : Type} (r : result A) (k : A -> result B) (b : B) :
  bind r k = Ok b -> exists a, r = Ok a /\ k a = Ok b.
Proof.
  destruct r as [a | f]; simpl; intros H.
  - exists a. split; [reflexivity | exact H].
  - discriminate H.
Qed.

Lemma as_int_Ok (z : Z) :
  INT_MIN <= z <= INT_MAX -> as_int z = Ok z.
Proof.
  intros [Hlo Hhi]. unfold as_int.
  apply Z.leb_le in Hlo. apply Z.leb_le in Hhi.
  rewrite Hlo, Hhi. reflexivity.
Qed.

Lemma as_int_inv (z r : Z) :
  as_int z = Ok r -> r = z /\ INT_MIN <= z <= INT_MAX.
Proof.
  unfold as_int. intros H.
  destruct (INT_MIN <=? z) eqn:Hlo; destruct (z <=? INT_MAX) eqn:Hhi;
    simpl in H; try discriminate H.
  injection H as <-.
  apply Z.leb_le in Hlo. apply Z.leb_le in Hhi. lia.
Qed.

Lemma as_long_Ok (z : Z) :
  LONG_MIN <= z <= LONG_MAX -> as_long z = Ok z.
Proof.
  intros [Hlo Hhi]. unfold as_long.
  apply Z.leb_le in Hlo. apply Z.leb_le in Hhi.
  rewrite Hlo, Hhi. reflexivity.
Qed.

Lemma as_long_inv (z r : Z) :
  as_long z = Ok r -> r = z /\ LONG_MIN <= z <= LONG_MAX.
Proof.
  unfold as_long. intros H.
  destruct (LONG_MIN <=? z) eqn:Hlo; destruct (z <=? LONG_MAX) eqn:Hhi;
    simpl in H; try discriminate H.
  injection H as <-.
  apply Z.leb_le in Hlo. apply Z.leb_le in Hhi. lia.
Qed.

(** ** What the interrupt handler leaves alone *)

Lemma isr_frame_refl (st : state) : isr_frame st st.
Proof.
  constructor; try reflexivity; auto.
  exists []. split; [reflexivity | constructor].
Qed.

Lemma isr_frame_trans (a b c : state) :
  isr_frame a b -> isr_frame b c -> isr_frame a c.
Proof.
  intros [] [].
  constructor; try congruence.
  - intros p Hp. rewrite fr_pins1 by exact Hp. apply fr_pins0. exact Hp.
  - destruct fr_trace0 as (w0 & E0 & F0). destruct fr_trace1 as (w1 & E1 & F1).
    exists (w1 ++ w0). split.
    + rewrite E1, E0. apply app_assoc.
    + apply Forall_app. split; assumption.
  - intros H. destruct (fr_latch_clear0 H) as [? ?].
    destruct fr_latch_clear1 as [? ?]; [congruence | split; congruence].
  - intros H. destruct (fr_stopped0 H) as (? & ? & ? & ? & ?).
    destruct fr_stopped1 as (? & ? & ? & ? & ?); [congruence |].
    repeat split; congruence.
Qed.

(** ** One interrupt, and several *)

Ltac int_range := unfold INT_MIN, INT_MAX, LONG_MIN, LONG_MAX in *; lia.

Ltac fields :=
  cbn -[Z.add Z.sub Z.mul Z.leb Z.ltb Z.gtb Z.eqb as_int as_long].

Ltac fields_all := cbn -[Z.add Z.sub Z.mul Z.leb Z.ltb Z.gtb Z.eqb] in *.

Ltac int_ok :=
  repeat match goal with
  | |- context [as_int ?z] => rewrite (as_int_Ok z) by int_range; simpl
  | |- context [as_long ?z] => rewrite (as_long_Ok z) by int_range; simpl
  end.

Lemma Timer_1_button_spec (st : state) :
  0 <= Button_Timer_temp st <= 10 ->
  INT_MIN <= Button_Timer st -> Button_Timer st + 1 <= INT_MAX ->
  Timer_1_button st =
  Ok (if Button_Pressed st then with_button_clock (advance (button_clock st)) st
      else st).
Proof.
  destruct st as [run home pressed time bt steps smm lim rsi d1 d2 btt tt tog ps tr].
  unfold Timer_1_button, with_button_clock, advance, button_clock. simpl.
  intros Hbtt Hbt0 Hbt1.
  destruct pressed; [| reflexivity].
  destruct (Z.gtb_spec btt 9); simpl; int_ok; reflexivity.
Qed.

Lemma Timer_1_time_spec (st : state) :
  0 <= Time_temp st <= 10 ->
  INT_MIN <= Time st -> Time st + 1 <= INT_MAX ->
  Timer_1_time st =
  Ok (if Run_Tracker st then with_time_clock (advance (time_clock st)) st
      else st).
Proof.
  destruct st as [run home pressed time bt steps smm lim rsi d1 d2 btt tt tog ps tr].
  unfold Timer_1_time, with_time_clock, advance, time_clock. simpl.
  intros Htt Ht0 Ht1.
  destruct run; [| reflexivity].
  destruct (Z.gtb_spec tt 9); simpl; int_ok; reflexivity.
Qed.

Lemma led_write_intro (v : level) : led_write (DigitalWrite Status_Led_Pin v).
Proof. exists v. reflexivity. Qed.

Lemma pins_after_write (ps : list (Z * level)) (pin p : Z) (v : level) :
  p <> pin -> last_write ((pin, v) :: ps) p = last_write ps p.
Proof. intros H. apply Z.eqb_neq in H. simpl. rewrite H. reflexivity. Qed.

Ltac frame_fields :=
  constructor; simpl; try reflexivity; try discriminate; auto;
  try (intros; apply pins_after_write; assumption).

Lemma Timer_1_led_frame (st : state) : isr_frame st (Timer_1_led st).
Proof.
  destruct st as [run home pressed time bt steps smm lim rsi d1 d2 btt tt tog ps tr].
  unfold Timer_1_led. simpl.
  destruct run; [destruct tog |]; frame_fields;
    try (eexists [_]; split; [reflexivity | repeat constructor; apply led_write_intro]);
    try (exists []; split; [reflexivity | constructor]).
Qed.

Lemma with_button_clock_frame (c : Z * Z) (st : state) :
  Button_Pressed st = true -> isr_frame st (with_button_clock c st).
Proof.
  intros H. destruct st. simpl in H. subst.
  frame_fields. exists []. split; [reflexivity | constructor].
Qed.

Lemma with_time_clock_frame (c : Z * Z) (st : state) :
  Run_Tracker st = true -> isr_frame st (with_time_clock c st).
Proof.
  intros H. destruct st. simpl in H. subst.
  frame_fields. exists []. split; [reflexivity | constructor].
Qed.

Lemma button_clock_with (c : Z * Z) (st : state) :
  button_clock (with_button_clock c st) = c.
Proof. destruct c. reflexivity. Qed.

Lemma time_clock_with (c : Z * Z) (st : state) :
  time_clock (with_time_clock c st) = c.
Proof. destruct c. reflexivity. Qed.

Lemma Timer_1_spec (st : state) :
  room 1 st ->
  exists st', Timer_1 st = Ok st' /\ isr_frame st st' /\
    button_clock st' =
      (if Button_Pressed st then advance (button_clock st)
       else button_clock st) /\
    time_clock st' =
      (if Run_Tracker st then advance (time_clock st) else time_clock st).
Proof.
  intros (Hbtt & Htt & Hbt0 & Hbt1 & Ht0 & Ht1).
  unfold Timer_1.
  rewrite Timer_1_button_spec by assumption. simpl.
  set (st1 := if Button_Pressed st then _ else st).
  assert (F1 : isr_frame st st1).
  { subst st1. destruct (Button_Pressed st) eqn:E.
    - apply with_button_clock_frame. exact E.
    - apply isr_frame_refl. }
  assert (T1 : time_clock st1 = time_clock st).
  { subst st1. destruct (Button_Pressed st); reflexivity. }
  assert (B1 : button_clock st1 =
               if Button_Pressed st then advance (button_clock st)
               else button_clock st).
  { subst st1. destruct (Button_Pressed st); [| reflexivity].
    apply button_clock_with. }
  unfold time_clock in T1. injection T1 as Ttt Tt.
  rewrite Timer_1_time_spec by (rewrite ?Ttt, ?Tt; assumption). simpl.
  set (st2 := if Run_Tracker st1 then _ else st1).
  assert (F2 : isr_frame st1 st2).
  { subst st2. destruct (Run_Tracker st1) eqn:E.
    - apply with_time_clock_frame. exact E.
    - apply isr_frame_refl. }
  exists (Timer_1_led st2). split; [reflexivity |]. split.
  { eapply isr_frame_trans; [exact F1 |].
    eapply isr_frame_trans; [exact F2 | apply Timer_1_led_frame]. }
  assert (L : forall s, button_clock (Timer_1_led s) = button_clock s /\
                        time_clock (Timer_1_led s) = time_clock s).
  { intros s. unfold Timer_1_led.
    destruct (Run_Tracker s); [destruct (Toggle_Flag s) |]; split; reflexivity. }
  destruct (L st2) as [Lb Lt]. rewrite Lb, Lt. clear L Lb Lt.
  rewrite <- (fr_Run_Tracker _ _ F1).
  subst st2. split.
  - rewrite <- B1. destruct (Run_Tracker st1); reflexivity.
  - destruct (Run_Tracker st1); [| unfold time_clock; congruence].
    rewrite time_clock_with. unfold time_clock. rewrite Ttt, Tt. reflexivity.
Qed.

Lemma advance_bounds (c : Z * Z) :
  0 <= fst c <= 10 ->
  1 <= fst (advance c) <= 10 /\ snd c <= snd (advance c) <= snd c + 1.
Proof.
  destruct c as [t n]. unfold advance. simpl. intros H.
  destruct (Z.gtb_spec t 9); simpl; lia.
Qed.

(** Closed form of a running clock: one count every ten ticks. *)
Lemma advance_n_closed (n : nat) (t c : Z) :
  1 <= t <= 10 ->
  advance_n n (t, c) =
  ((t - 1 + Z.of_nat n) mod 10 + 1, c + (t - 1 + Z.of_nat n) / 10).
Proof.
  revert t c. induction n as [| n IH]; intros t c Ht.
  - simpl. rewrite Z.add_0_r.
    rewrite Z.mod_small by lia. rewrite Z.div_small by lia.
    f_equal; lia.
  - simpl advance_n. unfold advance. simpl fst. simpl snd.
    destruct (Z.gtb_spec t 9) as [Hgt | Hle].
    + assert (t = 10) by lia. subst t.
      rewrite IH by lia.
      replace (1 - 1 + Z.of_nat n) with (Z.of_nat n) by lia.
      replace (10 - 1 + Z.of_nat (S n)) with (Z.of_nat n + 1 * 10) by lia.
      rewrite Z.mod_add by lia. rewrite Z.div_add by lia.
      f_equal. lia.
    + rewrite IH by lia.
      replace (t + 1 - 1 + Z.of_nat n) with (t - 1 + Z.of_nat (S n)) by lia.
      reflexivity.
Qed.

Lemma interrupts_spec (n : nat) :
  forall (m : Z) (st : state),
  0 <= m -> room (Z.of_nat n + m) st ->
  exists st', interrupts n st = Ok st' /\ isr_frame st st' /\ room m st' /\
    button_clock st' =
      (if Button_Pressed st then advance_n n (button_clock st)
       else button_clock st) /\
    time_clock st' =
      (if Run_Tracker st then advance_n n (time_clock st) else time_clock st).
Proof.
  induction n as [| n IH]; intros m st Hm Hroom.
  - exists st. simpl in Hroom. simpl.
    repeat split; try apply Hroom; try apply isr_frame_refl.
    + destruct (Button_Pressed st); reflexivity.
    + destruct (Run_Tracker st); reflexivity.
  - destruct Hroom as (Hbtt & Htt & Hbt0 & Hbt1 & Ht0 & Ht1).
    destruct (Timer_1_spec st) as (st1 & E1 & F1 & B1 & T1).
    { unfold room. repeat split; lia. }
    destruct (advance_bounds (button_clock st) Hbtt) as [Ab1 Ab2].
    destruct (advance_bounds (time_clock st) Htt) as [At1 At2].
    destruct (IH m st1 Hm) as (st2 & E2 & F2 & R2 & B2 & T2).
    { unfold room.
      change (Button_Timer_temp st1) with (fst (button_clock st1)).
      change (Button_Timer st1) with (snd (button_clock st1)).
      change (Time_temp st1) with (fst (time_clock st1)).
      change (Time st1) with (snd (time_clock st1)).
      rewrite B1, T1.
      destruct (Button_Pressed st); destruct (Run_Tracker st);
        unfold button_clock, time_clock in *; cbn [fst snd] in *;
        repeat split; lia. }
    exists st2. simpl. rewrite E1. simpl. split; [exact E2 |].
    split; [eapply isr_frame_trans; eassumption |].
    split; [exact R2 |].
    rewrite (fr_Button_Pressed _ _ F1) in B2.
    rewrite (fr_Run_Tracker _ _ F1) in T2.
    rewrite B2, T2, B1, T1.
    destruct (Button_Pressed st); destruct (Run_Tracker st); split; reflexivity.
Qed.

(** With both flags clear the handler does nothing at all. *)
Lemma interrupts_idle (n : nat) (st : state) :
  Button_Pressed st = false -> Run_Tracker st = false ->
  interrupts n st = Ok st.
Proof.
  intros Hb Hr. induction n as [| n IH]; [reflexivity |].
  simpl. unfold Timer_1, Timer_1_button, Timer_1_time, Timer_1_led.
  rewrite Hb. simpl. rewrite Hr. simpl. rewrite Hr. exact IH.
Qed.

(** Whenever the handler returns, it has respected the frame and ticked
    the clocks (no assumption on the clocks). *)
Lemma Timer_1_button_inv (st st' : state) :
  Timer_1_button st = Ok st' ->
  isr_frame st st' /\ time_clock st' = time_clock st /\
  button_clock st' =
    (if Button_Pressed st then advance (button_clock st) else button_clock st).
Proof.
  destruct st as [run home pressed time bt steps smm lim rsi d1 d2 btt tt tog ps tr].
  unfold Timer_1_button, button_clock, time_clock, advance. simpl. intros H.
  destruct pressed;
    [| injection H as <-; split; [apply isr_frame_refl | split; reflexivity]].
  destruct (btt >? 9); simpl in H.
  - destruct (as_int (bt + 1)) as [r |] eqn:E; simpl in H; [| discriminate H].
    apply as_int_inv in E. destruct E as [-> _].
    injection H as <-. split; [| split; reflexivity].
    frame_fields. exists []. split; [reflexivity | constructor].
  - destruct (as_int (btt + 1)) as [r |] eqn:E; simpl in H; [| discriminate H].
    apply as_int_inv in E. destruct E as [-> _].
    injection H as <-. split; [| split; reflexivity].
    frame_fields. exists []. split; [reflexivity | constructor].
Qed.

Lemma Timer_1_time_inv (st st' : state) :
  Timer_1_time st = Ok st' ->
  isr_frame st st' /\ button_clock st' = button_clock st /\
  time_clock st' =
    (if Run_Tracker st then advance (time_clock st) else time_clock st).
Proof.
  destruct st as [run home pressed time bt steps smm lim rsi d1 d2 btt tt tog ps tr].
  unfold Timer_1_time, button_clock, time_clock, advance. simpl. intros H.
  destruct run;
    [| injection H as <-; split; [apply isr_frame_refl | split; reflexivity]].
  destruct (tt >? 9); simpl in H.
  - destruct (as_int (time + 1)) as [r |] eqn:E; simpl in H; [| discriminate H].
    apply as_int_inv in E. destruct E as [-> _].
    injection H as <-. split; [| split; reflexivity].
    frame_fields. exists []. split; [reflexivity | constructor].
  - destruct (as_int (tt + 1)) as [r |] eqn:E; simpl in H; [| discriminate H].
    apply as_int_inv in E. destruct E as [-> _].
    injection H as <-. split; [| split; reflexivity].
    frame_fields. exists []. split; [reflexivity | constructor].
Qed.

Lemma Timer_1_led_clocks (st : state) :
  button_clock (Timer_1_led st) = button_clock st /\
  time_clock (Timer_1_led st) = time_clock st.
Proof.
  unfold Timer_1_led.
  destruct (Run_Tracker st); [destruct (Toggle_Flag st) |]; split; reflexivity.
Qed.

Lemma Timer_1_inv (st st' : state) :
  Timer_1 st = Ok st' ->
  isr_frame st st' /\
  button_clock st' =
    (if Button_Pressed st then advance (button_clock st)
     else button_clock st) /\
  time_clock st' =
    (if Run_Tracker st then advance (time_clock st) else time_clock st).
Proof.
  unfold Timer_1. intros H.
  apply bind_Ok_inv in H. destruct H as (st1 & H1 & H).
  apply bind_Ok_inv in H. destruct H as (st2 & H2 & H).
  injection H as <-.
  apply Timer_1_button_inv in H1. destruct H1 as (F1 & T1 & B1).
  apply Timer_1_time_inv in H2. destruct H2 as (F2 & B2 & T2).
  destruct (Timer_1_led_clocks st2) as [Lb Lt].
  split; [| split].
  - apply isr_frame_trans with st1; [exact F1 |].
    apply isr_frame_trans with st2; [exact F2 | apply Timer_1_led_frame].
  - rewrite Lb, B2. exact B1.
  - rewrite Lt, T2, T1. rewrite (fr_Run_Tracker _ _ F1). reflexivity.
Qed.

Lemma interrupts_inv (n : nat) :
  forall st st', interrupts n st = Ok st' ->
  isr_frame st st' /\
  button_clock st' =
    (if Button_Pressed st then advance_n n (button_clock st)
     else button_clock st) /\
  time_clock st' =
    (if Run_Tracker st then advance_n n (time_clock st) else time_clock st).
Proof.
  induction n as [| n IH]; simpl; intros st st' H.
  - injection H as <-. split; [apply isr_frame_refl |].
    destruct (Button_Pressed st); destruct (Run_Tracker st); split; reflexivity.
  - apply bind_Ok_inv in H. destruct H as (st1 & H1 & H).
    apply Timer_1_inv in H1. destruct H1 as (F1 & B1 & T1).
    apply IH in H. destruct H as (F & B & T).
    split; [eapply isr_frame_trans; eassumption |].
    rewrite (fr_Button_Pressed _ _ F1) in B.
    rewrite (fr_Run_Tracker _ _ F1) in T.
    rewrite B, T, B1, T1.
    destruct (Button_Pressed st); destruct (Run_Tracker st); split; reflexivity.
Qed.

Lemma interrupts_frame (n : nat) (st st' : state) :
  interrupts n st = Ok st' -> isr_frame st st'.
Proof. intros H. apply interrupts_inv in H. apply H. Qed.

Lemma moves_led (ws tr : list event) :
  Forall led_write ws -> moves (ws ++ tr) = moves tr.
Proof.
  induction 1 as [| e ws [v ->] _ IH]; simpl; [reflexivity | exact IH].
Qed.

Lemma pin_reads_led (pin : Z) (ws tr : list event) :
  Forall led_write ws -> pin_reads pin (ws ++ tr) = pin_reads pin tr.
Proof.
  induction 1 as [| e ws [v ->] _ IH]; simpl; [reflexivity | exact IH].
Qed.

Lemma isr_frame_moves (st st' : state) :
  isr_frame st st' -> moves (trace st') = moves (trace st).
Proof.
  intros F. destruct (fr_trace _ _ F) as (ws & -> & Hws).
  apply moves_led. exact Hws.
Qed.

Lemma isr_frame_pin_reads (pin : Z) (st st' : state) :
  isr_frame st st' -> pin_reads pin (trace st') = pin_reads pin (trace st).
Proof.
  intros F. destruct (fr_trace _ _ F) as (ws & -> & Hws).
  apply pin_reads_led. exact Hws.
Qed.

(** ** Frames of the main program

    [timing] is what [setup] computes once; [control] is what the
    routines of [loop] steer by. *)

Lemma isr_frame_timing (st st' : state) :
  isr_frame st st' -> timing st' = timing st.
Proof. intros []. unfold timing. congruence. Qed.

Lemma isr_frame_control (st st' : state) :
  isr_frame st st' -> control st' = control st.
Proof. intros []. unfold control. congruence. Qed.

Lemma delay_inv (ms : Z) (k : nat) (st st' : state) :
  delay ms k st = Ok st' ->
  isr_frame (emit (Delay ms) st) st' /\
  button_clock st' =
    (if Button_Pressed st then advance_n k (button_clock st)
     else button_clock st) /\
  time_clock st' =
    (if Run_Tracker st then advance_n k (time_clock st) else time_clock st).
Proof. unfold delay. intros H. apply interrupts_inv in H. exact H. Qed.

Lemma delayMicroseconds_inv (us : Z) (k : nat) (st st' : state) :
  delayMicroseconds us k st = Ok st' ->
  isr_frame (emit (DelayMicroseconds us) st) st'.
Proof. unfold delayMicroseconds. apply interrupts_frame. Qed.

Lemma room_le (k m : Z) (st : state) : m <= k -> room k st -> room m st.
Proof. unfold room. intros Hle H. repeat split; lia. Qed.

Lemma delay_spec (ms : Z) (k : nat) (m : Z) (st : state) :
  0 <= m -> room (Z.of_nat k + m) st ->
  exists st', delay ms k st = Ok st' /\ room m st'.
Proof.
  intros Hm Hroom.
  destruct (interrupts_spec k m (emit (Delay ms) st) Hm Hroom)
    as (st' & E & _ & R & _).
  exists st'. split; assumption.
Qed.

Lemma delayMicroseconds_spec (us : Z) (k : nat) (m : Z) (st : state) :
  0 <= m -> room (Z.of_nat k + m) st ->
  exists st', delayMicroseconds us k st = Ok st' /\ room m st'.
Proof.
  intros Hm Hroom.
  destruct (interrupts_spec k m (emit (DelayMicroseconds us) st) Hm Hroom)
    as (st' & E & _ & R & _).
  exists st'. split; assumption.
Qed.

(** *** The polling loops *)

Lemma irq_total_nonneg (polls : list (level * nat)) : 0 <= irq_total polls.
Proof. induction polls as [| [v k] rest IH]; simpl; lia. Qed.

Lemma seek_home_inv (n : Z) (polls : list (level * nat)) :
  forall st st', seek_home n polls st = Ok st' ->
  timing st' = timing st /\ control st' = control st /\
  (forall p, p <> Status_Led_Pin -> pin_level st' p = pin_level st p) /\
  (exists j, moves (trace st') = repeat n j ++ moves (trace st)) /\
  pin_reads Button_Pin (trace st') = pin_reads Button_Pin (trace st).
Proof.
  induction polls as [| [v k] rest IH]; simpl; intros st st' H;
    [discriminate H |].
  destruct v.
  - injection H as <-. repeat split; auto. exists O. reflexivity.
  - apply bind_Ok_inv in H. destruct H as (st1 & H1 & H).
    apply delay_inv in H1. destruct H1 as (F1 & _).
    apply IH in H. destruct H as (T & C & P & (j & M) & R).
    rewrite (isr_frame_timing _ _ F1) in T.
    rewrite (isr_frame_control _ _ F1) in C.
    rewrite (isr_frame_moves _ _ F1) in M.
    rewrite (isr_frame_pin_reads _ _ _ F1) in R.
    split; [exact T |]. split; [exact C |]. split; [| split].
    + intros p Hp. rewrite P by exact Hp. apply (fr_pins _ _ F1 p Hp).
    + exists (S j). rewrite M. simpl.
      rewrite app_comm_cons, repeat_cons, <- app_assoc. reflexivity.
    + exact R.
Qed.

(** The loop leaves as soon as the switch shows [LOW]. *)
Lemma seek_home_total (n : Z) (polls : list (level * nat)) :
  forall (m : Z) (st : state),
  In LOW (map fst polls) -> 0 <= m -> room (irq_total polls + m) st ->
  exists st', seek_home n polls st = Ok st' /\ room m st'.
Proof.
  induction polls as [| [v k] rest IH]; simpl; intros m st Hin Hm Hroom;
    [contradiction |].
  pose proof (irq_total_nonneg rest) as Hnn.
  destruct v.
  - eexists. split; [reflexivity |].
    apply room_le with (Z.of_nat k + irq_total rest + m); [lia |].
    exact Hroom.
  - destruct Hin as [Hin | Hin]; [discriminate Hin |].
    destruct (delay_spec 1 k (irq_total rest + m)
                (emit (StepperMove n) (emit (DigitalRead HomeStart_Pin HIGH) st)))
      as (st1 & E1 & R1); [lia | |].
    { apply room_le with (Z.of_nat k + irq_total rest + m); [lia |].
      exact Hroom. }
    rewrite E1. simpl. apply IH; assumption.
Qed.

Lemma wait_release_inv (polls : list level) :
  forall st st', wait_release polls st = Ok st' ->
  timing st' = timing st /\ control st' = control st /\ pins st' = pins st /\
  moves (trace st') = moves (trace st).
Proof.
  induction polls as [| v rest IH]; simpl; intros st st' H;
    [discriminate H |].
  destruct v.
  - apply IH in H. exact H.
  - injection H as <-. repeat split.
Qed.

(** ** Start-up *)

Lemma setup_preset_inv (fmt : float_format) (cfg : config) (st st' : state) :
  setup_preset fmt cfg st = Ok st' ->
  control st' = control st /\ Delay_1 st' = Delay_1 st /\
  Delay_2 st' = Delay_2 st /\ Step_Limit st' = Step_Limit st /\
  ((MOTOR_STEPS cfg = 200 /\ Steps_mm st' = 2560 /\
    double_to_int (step_interval fmt cfg (3 # 10)) =
      Ok (Rotation_Step_Interval st')) \/
   (MOTOR_STEPS cfg = 400 /\ Steps_mm st' = 5120 /\
    double_to_int (step_interval fmt cfg (15 # 100)) =
      Ok (Rotation_Step_Interval st')) \/
   (MOTOR_STEPS cfg <> 200 /\ MOTOR_STEPS cfg <> 400 /\ st' = st)).
Proof.
  unfold setup_preset. intros H.
  destruct (Z.eqb_spec (MOTOR_STEPS cfg) 200) as [E2 | N2].
  - destruct (double_to_int _) as [r |] eqn:E; simpl in H; [| discriminate H].
    injection H as <-. repeat split. left. repeat split; assumption.
  - destruct (Z.eqb_spec (MOTOR_STEPS cfg) 400) as [E4 | N4].
    + destruct (double_to_int _) as [r |] eqn:E; simpl in H; [| discriminate H].
      injection H as <-. repeat split. right. left. repeat split; assumption.
    + injection H as <-. repeat split. right. right. repeat split; assumption.
Qed.

(** The split of lines 130-140. *)
Lemma setup_delays_inv (st st' : state) :
  setup_delays st = Ok st' ->
  control st' = control st /\ Steps_mm st' = Steps_mm st /\
  Step_Limit st' = Step_Limit st /\
  Rotation_Step_Interval st' = Rotation_Step_Interval st /\
  Delay_1 st' <= 16000 /\
  Delay_1 st' + Delay_2 st' = Rotation_Step_Interval st /\
  (16000 < Rotation_Step_Interval st ->
   Delay_1 st' = 16000 /\ Delay_2 st' = Rotation_Step_Interval st - 16000) /\
  (Rotation_Step_Interval st <= 16000 ->
   Delay_1 st' = Rotation_Step_Interval st /\ Delay_2 st' = 0).
Proof.
  unfold setup_delays. intros H.
  destruct (Z.gtb_spec (Rotation_Step_Interval st) 16000) as [Hgt | Hle].
  - destruct (as_int _) as [d |] eqn:E; simpl in H; [| discriminate H].
    apply as_int_inv in E. destruct E as [-> _].
    injection H as <-. fields.
    repeat (split; [reflexivity |]). repeat split; intros; lia.
  - injection H as <-. fields.
    repeat (split; [reflexivity |]). repeat split; intros; lia.
Qed.

Lemma setup_limit_inv (cfg : config) (st st' : state) :
  setup_limit cfg st = Ok st' ->
  control st' = control st /\ Steps_mm st' = Steps_mm st /\
  Rotation_Step_Interval st' = Rotation_Step_Interval st /\
  Delay_1 st' = Delay_1 st /\ Delay_2 st' = Delay_2 st /\
  Step_Limit st' = Steps_mm st * (Threaded_UpperRod_Length cfg - 10).
Proof.
  unfold setup_limit. intros H.
  apply bind_Ok_inv in H. destruct H as (len & El & H).
  apply bind_Ok_inv in H. destruct H as (lim & Em & H).
  apply as_int_inv in El. destruct El as [-> _].
  apply as_long_inv in Em. destruct Em as [-> _].
  injection H as <-. repeat split.
Qed.

Lemma setup_jog_inv (b : boot_input) (st st' : state) :
  setup_jog b st = Ok st' ->
  timing st' = timing st /\ control st' = control st.
Proof.
  unfold setup_jog. intros H.
  destruct (is_low (boot_btn b)); [| injection H as <-; split; reflexivity].
  apply bind_Ok_inv in H. destruct H as (s1 & H1 & H).
  apply bind_Ok_inv in H. destruct H as (s2 & H2 & H).
  injection H as <-.
  apply wait_release_inv in H1. destruct H1 as (T1 & C1 & _).
  apply seek_home_inv in H2. destruct H2 as (T2 & C2 & _).
  split.
  - change (timing (digitalWrite Stepper_Enable HIGH s2)) with (timing s2).
    rewrite T2. exact T1.
  - change (control (digitalWrite Stepper_Enable HIGH s2)) with (control s2).
    rewrite C2. exact C1.
Qed.

(** What [setup] has established when it returns. *)
Lemma setup_inv (fmt : float_format) (cfg : config) (b : boot_input)
      (st : state) :
  setup fmt cfg b = Ok st ->
  control st = (false, true, false, 0) /\
  Step_Limit st = Steps_mm st * (Threaded_UpperRod_Length cfg - 10) /\
  Delay_1 st <= 16000 /\
  Delay_1 st + Delay_2 st = Rotation_Step_Interval st /\
  (16000 < Rotation_Step_Interval st ->
   Delay_1 st = 16000 /\ Delay_2 st = Rotation_Step_Interval st - 16000) /\
  (Rotation_Step_Interval st <= 16000 ->
   Delay_1 st = Rotation_Step_Interval st /\ Delay_2 st = 0) /\
  ((MOTOR_STEPS cfg = 200 /\ Steps_mm st = 2560 /\
    double_to_int (step_interval fmt cfg (3 # 10)) =
      Ok (Rotation_Step_Interval st)) \/
   (MOTOR_STEPS cfg = 400 /\ Steps_mm st = 5120 /\
    double_to_int (step_interval fmt cfg (15 # 100)) =
      Ok (Rotation_Step_Interval st)) \/
   (MOTOR_STEPS cfg <> 200 /\ MOTOR_STEPS cfg <> 400 /\
    Steps_mm st = 0 /\ Rotation_Step_Interval st = 0)).
Proof.
  unfold setup. intros H.
  apply bind_Ok_inv in H. destruct H as (s1 & H1 & H).
  apply bind_Ok_inv in H. destruct H as (s2 & H2 & H).
  apply bind_Ok_inv in H. destruct H as (s3 & H3 & H).
  apply bind_Ok_inv in H. destruct H as (s4 & H4 & H).
  injection H as <-.
  apply setup_preset_inv in H1. destruct H1 as (_ & _ & _ & _ & P).
  apply setup_delays_inv in H2.
  destruct H2 as (_ & Dm & _ & Dr & D1 & D2 & D3 & D4).
  apply setup_limit_inv in H3. destruct H3 as (_ & Lm & Lr & L1 & L2 & LL).
  apply setup_jog_inv in H4. destruct H4 as (T4 & C4).
  unfold timing in T4. simpl in T4. injection T4 as Tm Tl Tr T1 T2.
  unfold control in C4. simpl in C4.
  split; [exact C4 |].
  change (Step_Limit (setup_report s4)) with (Step_Limit s4).
  change (Steps_mm (setup_report s4)) with (Steps_mm s4).
  change (Delay_1 (setup_report s4)) with (Delay_1 s4).
  change (Delay_2 (setup_report s4)) with (Delay_2 s4).
  change (Rotation_Step_Interval (setup_report s4))
    with (Rotation_Step_Interval s4).
  rewrite Tm, Tl, Tr, T1, T2, Lm, Lr, L1, L2, LL, Dm, Dr.
  repeat split; try lia; try (apply D3; lia); try (apply D4; lia).
  destruct P as [(E & M & R) | [(E & M & R) | (N2 & N4 & ->)]].
  - left. repeat split; assumption.
  - right. left. repeat split; assumption.
  - right. right. repeat split; assumption.
Qed.

Lemma interval_400_binary32 :
  double_to_int (step_interval binary32 (shipped 400) (15 # 100)) = Ok 10301.
Proof. vm_compute. reflexivity. Qed.

Lemma interval_400_binary64 :
  double_to_int (step_interval binary64 (shipped 400) (15 # 100)) = Ok 10301.
Proof. vm_compute. reflexivity. Qed.

Lemma interval_200_binary32 :
  double_to_int (step_interval binary32 (shipped 200) (3 # 10)) = Ok 20602.
Proof. vm_compute. reflexivity. Qed.

Lemma interval_200_binary64 :
  double_to_int (step_interval binary64 (shipped 200) (3 # 10)) = Ok 20602.
Proof. vm_compute. reflexivity. Qed.

(** C3.  Whatever the configuration and the floating-point format, when
    [setup] returns the two waits satisfy [Delay_1 <= 16000] and
    [Delay_1 + Delay_2 = Rotation_Step_Interval]: above 16000 the first
    wait is 16000 and the second the remainder, otherwise the first is
    the whole interval and the second is 0.  For the 200-step and the
    400-step preset [Rotation_Step_Interval] is the truncated value of
    the formula of line 121, respectively line 127. *)
Theorem setup_delay_split (fmt : float_format) (cfg : config)
        (b : boot_input) (st : state) :
  setup fmt cfg b = Ok st ->
  Delay_1 st <= 16000 /\
  Delay_1 st + Delay_2 st = Rotation_Step_Interval st /\
  (16000 < Rotation_Step_Interval st ->
   Delay_1 st = 16000 /\ Delay_2 st = Rotation_Step_Interval st - 16000) /\
  (Rotation_Step_Interval st <= 16000 ->
   Delay_1 st = Rotation_Step_Interval st /\ Delay_2 st = 0) /\
  (MOTOR_STEPS cfg = 200 ->
   double_to_int (step_interval fmt cfg (3 # 10)) =
     Ok (Rotation_Step_Interval st)) /\
  (MOTOR_STEPS cfg = 400 ->
   double_to_int (step_interval fmt cfg (15 # 100)) =
     Ok (Rotation_Step_Interval st)).
Proof.
  intros H. apply setup_inv in H.
  destruct H as (_ & _ & D1 & D2 & D3 & D4 & P).
  repeat (split; [assumption |]).
  split; intros E;
    destruct P as [(E2 & _ & R) | [(E4 & _ & R) | (N2 & N4 & _)]];
    congruence.
Qed.

(** The 200-step preset takes the saturated branch (16000 + 4602), the
    400-step preset the other one (10301 + 0). *)
Lemma setup_delay_split_witness :
  (exists st, setup binary32 (shipped 200) no_boot_button = Ok st /\
     Rotation_Step_Interval st = 20602 /\
     Delay_1 st <= 16000 /\
     Delay_1 st + Delay_2 st = Rotation_Step_Interval st /\
     Delay_1 st = 16000 /\ Delay_2 st = 4602) /\
  (exists st, setup binary32 (shipped 400) no_boot_button = Ok st /\
     Rotation_Step_Interval st = 10301 /\
     Delay_1 st <= 16000 /\
     Delay_1 st + Delay_2 st = Rotation_Step_Interval st /\
     Delay_1 st = 10301 /\ Delay_2 st = 0).
Proof.
  split.
  - destruct (setup binary32 (shipped 200) no_boot_button) as [st |] eqn:E;
      [| vm_compute in E; discriminate E].
    exists st. split; [reflexivity |].
    destruct (setup_delay_split _ _ _ _ E) as (D1 & D2 & D3 & _ & R2 & _).
    specialize (R2 eq_refl). rewrite interval_200_binary32 in R2.
    injection R2 as R2.
    split; [symmetry; exact R2 |]. split; [exact D1 |]. split; [exact D2 |].
    rewrite <- R2 in D3. destruct D3 as [A B]; [lia |].
    split; [exact A | exact B].
  - destruct (setup binary32 (shipped 400) no_boot_button) as [st |] eqn:E;
      [| vm_compute in E; discriminate E].
    exists st. split; [reflexivity |].
    destruct (setup_delay_split _ _ _ _ E) as (D1 & D2 & _ & D4 & _ & R4).
    specialize (R4 eq_refl). rewrite interval_400_binary32 in R4.
    injection R4 as R4.
    split; [symmetry; exact R4 |]. split; [exact D1 |]. split; [exact D2 |].
    rewrite <- R4 in D4. destruct D4 as [A B]; [lia |].
    split; [exact A | exact B].
Defined.

(** C4, as amended.  With [MOTOR_STEPS = 400], a thread pitch of 1.25,
    a hinge distance of 260 and a rod of 100, in either floating-point
    format, [setup] yields [Steps_mm = 5120],
    [Rotation_Step_Interval = 10301] with [Delay_1 = 10301] and
    [Delay_2 = 0], and [Step_Limit = 5120 * (100 - 10) = 460800]. *)
Theorem setup_shipped_400 (fmt : float_format) :
  fmt = binary32 \/ fmt = binary64 ->
  (exists st, setup fmt (shipped 400) no_boot_button = Ok st) /\
  forall b st, setup fmt (shipped 400) b = Ok st ->
    Steps_mm st = 5120 /\ Rotation_Step_Interval st = 10301 /\
    Delay_1 st = 10301 /\ Delay_2 st = 0 /\
    Step_Limit st = 5120 * (100 - 10) /\ Step_Limit st = 460800.
Proof.
  intros Hfmt. split.
  - destruct Hfmt as [-> | ->]; eexists; vm_compute; reflexivity.
  - intros b st H. apply setup_inv in H.
    destruct H as (_ & L & _ & _ & _ & D4 & P).
    destruct P as [(E2 & _) | [(_ & M & R) | (_ & N4 & _)]];
      [discriminate E2 | | exfalso; apply N4; reflexivity].
    assert (Rotation_Step_Interval st = 10301) as Hr.
    { destruct Hfmt as [-> | ->].
      - rewrite interval_400_binary32 in R. congruence.
      - rewrite interval_400_binary64 in R. congruence. }
    rewrite M in L. simpl in L.
    destruct D4 as [A B]; [lia |].
    repeat split; try assumption; try lia.
Qed.

Lemma setup_shipped_400_witness :
  exists st, setup binary32 (shipped 400) no_boot_button = Ok st /\
    Steps_mm st = 5120 /\ Rotation_Step_Interval st = 10301 /\
    Delay_1 st = 10301 /\ Delay_2 st = 0 /\ Step_Limit st = 460800.
Proof.
  destruct (setup_shipped_400 binary32 (or_introl eq_refl)) as [[st E] H].
  exists st. split; [exact E |].
  destruct (H _ _ E) as (A & B & C & D & _ & F).
  repeat split; assumption.
Defined.

(** The interval of the shipped 400-step configuration is 10301, not
    9770. *)
Lemma setup_shipped_400_not_9770 :
  exists st, setup binary32 (shipped 400) no_boot_button = Ok st /\
    Rotation_Step_Interval st = 10301 /\ Delay_1 st = 10301 /\
    Delay_1 st <> 9770.
Proof.
  eexists. split; [vm_compute; reflexivity |].
  split; [reflexivity |]. split; [reflexivity |]. discriminate.
Qed.

(** ** Tracking *)

Ltac open_frame F :=
  pose proof (fr_Run_Tracker _ _ F);
  pose proof (fr_Home_Tracker _ _ F);
  pose proof (fr_Button_Pressed _ _ F);
  pose proof (fr_Steps _ _ F);
  pose proof (fr_Step_Limit _ _ F);
  pose proof (fr_Delay_1 _ _ F);
  pose proof (fr_Delay_2 _ _ F);
  pose proof (isr_frame_timing _ _ F).

Lemma Tracking_idle (k1 k2 : nat) (st : state) :
  Run_Tracker st = false -> Tracking k1 k2 st = Ok st.
Proof. unfold Tracking. intros ->. reflexivity. Qed.

Lemma Tracking_inv (k1 k2 : nat) (st st' : state) :
  Tracking k1 k2 st = Ok st' -> Run_Tracker st = true ->
  Steps st' = Steps st + 1 /\ LONG_MIN <= Steps st + 1 <= LONG_MAX /\
  timing st' = timing st /\
  Home_Tracker st' = Home_Tracker st /\
  Button_Pressed st' = Button_Pressed st /\
  Run_Tracker st' = negb (Steps st + 1 >? Step_Limit st) /\
  exists w1 w2, Forall led_write w1 /\ Forall led_write w2 /\
    trace st' =
      (if Steps st + 1 >? Step_Limit st then stop_report (Steps st + 1)
       else []) ++
      w2 ++ DelayMicroseconds (Delay_2 st) ::
      w1 ++ DelayMicroseconds (Delay_1 st) ::
      StepperMove (-1) :: DigitalWrite Stepper_Speed HIGH :: trace st /\
    (Steps st + 1 > Step_Limit st -> pin_level st' Stepper_Enable = HIGH).
Proof.
  unfold Tracking. intros H Hrun. rewrite Hrun in H.
  apply bind_Ok_inv in H. destruct H as (s & Es & H).
  apply as_long_inv in Es. destruct Es as [-> Hs].
  apply bind_Ok_inv in H. destruct H as (s1 & H1 & H).
  apply bind_Ok_inv in H. destruct H as (s2 & H2 & H).
  apply delayMicroseconds_inv in H1. apply delayMicroseconds_inv in H2.
  open_frame H1. open_frame H2.
  destruct (fr_trace _ _ H1) as (w1 & T1 & W1).
  destruct (fr_trace _ _ H2) as (w2 & T2 & W2).
  unfold timing in *. cbn -[Z.add Z.gtb] in *.
  assert (Steps s2 = Steps st + 1) as E2 by congruence.
  assert (Step_Limit s2 = Step_Limit st) as L2 by congruence.
  assert (trace s2 =
          w2 ++ DelayMicroseconds (Delay_2 st) ::
          w1 ++ DelayMicroseconds (Delay_1 st) ::
          StepperMove (-1) :: DigitalWrite Stepper_Speed HIGH :: trace st)
    as T.
  { rewrite T2, T1. replace (Delay_2 s1) with (Delay_2 st) by congruence.
    reflexivity. }
  rewrite E2, L2 in H.
  destruct (Z.gtb_spec (Steps st + 1) (Step_Limit st)) as [G | G];
    injection H as <-; cbn -[Z.add Z.gtb]; rewrite ?E2;
    (split; [congruence |]); (split; [exact Hs |]);
    (split; [congruence |]); (split; [congruence |]);
    (split; [congruence |]); (split; [congruence |]);
    exists w1, w2; (split; [exact W1 |]); (split; [exact W2 |]).
  - split; [| reflexivity]. rewrite T. reflexivity.
  - split; [exact T | intros Hgt; lia].
Qed.

Lemma Tracking_total (k1 k2 : nat) (st : state) :
  Run_Tracker st = true -> LONG_MIN <= Steps st + 1 <= LONG_MAX ->
  room (Z.of_nat k1 + Z.of_nat k2) st ->
  exists st', Tracking k1 k2 st = Ok st'.
Proof.
  intros Hrun Hs Hroom. unfold Tracking. rewrite Hrun.
  cbn [Steps emit digitalWrite].
  rewrite (as_long_Ok _ Hs). cbn [bind].
  match goal with
  | |- context [delayMicroseconds ?us k1 ?s] =>
      destruct (delayMicroseconds_spec us k1 (Z.of_nat k2) s)
        as (s1 & E1 & R1); [lia | exact Hroom |]
  end.
  rewrite E1. cbn [bind].
  destruct (delayMicroseconds_spec (Delay_2 s1) k2 0 s1) as (s2 & E2 & _);
    [lia | rewrite Z.add_0_r; exact R1 |].
  rewrite E2. cbn [bind].
  destruct (Steps s2 >? Step_Limit s2); eexists; reflexivity.
Qed.

(** C1.  A call of [Tracking] that takes [Steps] above [Step_Limit]
    returns with [Run_Tracker] cleared, the driver disabled
    ([Stepper_Enable] is [HIGH]) and the stop reported with the position
    reached, which is the old one plus one.  The history shows that the
    stop belongs to the same call as the step: one motor command, the
    two waits, then the report (the [w]s are the indicator toggles of
    the interrupts served during the waits). *)
Theorem Tracking_limit_stop (k1 k2 : nat) (st : state) :
  Run_Tracker st = true ->
  LONG_MIN <= Steps st + 1 <= LONG_MAX ->
  room (Z.of_nat k1 + Z.of_nat k2) st ->
  Step_Limit st < Steps st + 1 ->
  exists st' w1 w2,
    Tracking k1 k2 st = Ok st' /\
    Run_Tracker st' = false /\
    pin_level st' Stepper_Enable = HIGH /\
    Steps st' = Steps st + 1 /\
    Step_Limit st' = Step_Limit st /\
    Forall led_write w1 /\ Forall led_write w2 /\
    trace st' =
      stop_report (Steps st') ++
      w2 ++ DelayMicroseconds (Delay_2 st) ::
      w1 ++ DelayMicroseconds (Delay_1 st) ::
      StepperMove (-1) :: DigitalWrite Stepper_Speed HIGH :: trace st.
Proof.
  intros Hrun Hs Hroom Hlim.
  destruct (Tracking_total k1 k2 st Hrun Hs Hroom) as (st' & E).
  destruct (Tracking_inv _ _ _ _ E Hrun)
    as (S' & _ & T & _ & _ & R & w1 & w2 & W1 & W2 & Tr & P).
  exists st', w1, w2.
  assert ((Steps st + 1 >? Step_Limit st) = true) as G.
  { rewrite Z.gtb_ltb. apply Z.ltb_lt. exact Hlim. }
  rewrite G in R, Tr. unfold timing in T.
  split; [exact E |]. split; [exact R |].
  split; [apply P; lia |]. split; [exact S' |].
  split; [congruence |]. split; [exact W1 |]. split; [exact W2 |].
  rewrite S'. exact Tr.
Qed.

Lemma Tracking_limit_stop_witness :
  exists st' w1 w2,
    Tracking 1 0 at_limit = Ok st' /\
    Run_Tracker st' = false /\
    pin_level st' Stepper_Enable = HIGH /\
    Steps st' = 460801 /\
    Step_Limit st' = 460800 /\
    Forall led_write w1 /\ Forall led_write w2 /\
    trace st' =
      stop_report (Steps st') ++
      w2 ++ DelayMicroseconds 0 ::
      w1 ++ DelayMicroseconds 10301 ::
      StepperMove (-1) :: DigitalWrite Stepper_Speed HIGH :: [].
Proof.
  apply (Tracking_limit_stop 1 0 at_limit).
  - reflexivity.
  - vm_compute. split; discriminate.
  - vm_compute. repeat split; discriminate.
  - reflexivity.
Defined.

(** ** Homing *)

Lemma Homeing_idle (polls : list (level * nat)) (st : state) :
  Home_Tracker st = false -> Homeing polls st = Ok st.
Proof. unfold Homeing. intros ->. reflexivity. Qed.

Lemma Homeing_inv (polls : list (level * nat)) (st st' : state) :
  Homeing polls st = Ok st' -> Home_Tracker st = true ->
  Steps st' = 0 /\ Home_Tracker st' = false /\ Run_Tracker st' = false /\
  Button_Pressed st' = Button_Pressed st /\ timing st' = timing st /\
  pin_level st' Stepper_Enable = HIGH /\ pin_level st' Status_Led_Pin = LOW /\
  (exists j, moves (trace st') = repeat 1 j ++ moves (trace st)) /\
  pin_reads Button_Pin (trace st') = pin_reads Button_Pin (trace st).
Proof.
  unfold Homeing. intros H Hhome. rewrite Hhome in H.
  apply bind_Ok_inv in H. destruct H as (s1 & H1 & H).
  injection H as <-.
  apply seek_home_inv in H1. destruct H1 as (T & C & _ & M & R).
  unfold timing, control in *. cbn in T, C, M, R |- *.
  injection C as C1 C2 C3 C4.
  repeat split; try congruence; assumption.
Qed.

Lemma Homeing_total (polls : list (level * nat)) (st : state) :
  Home_Tracker st = true -> In LOW (map fst polls) ->
  room (irq_total polls) st ->
  exists st', Homeing polls st = Ok st'.
Proof.
  intros Hhome Hin Hroom. unfold Homeing. rewrite Hhome.
  match goal with
  | |- context [seek_home 1 polls ?s] =>
      destruct (seek_home_total 1 polls 0 s Hin) as (s1 & E & _);
        [lia | rewrite Z.add_0_r; exact Hroom |]
  end.
  rewrite E. eexists. reflexivity.
Qed.

(** C8.  When [Homeing] runs with [Home_Tracker] set and the switch
    shows [LOW] at one of its reads, the routine returns, and on return
    [Steps] is 0, the driver is disabled, [Home_Tracker] and
    [Run_Tracker] are clear.  The button is not read during the call:
    the reads of [Button_Pin] in the history are those from before. *)
Theorem Homeing_completes (polls : list (level * nat)) (st : state) :
  Home_Tracker st = true ->
  In LOW (map fst polls) ->
  room (irq_total polls) st ->
  exists st',
    Homeing polls st = Ok st' /\
    Steps st' = 0 /\
    pin_level st' Stepper_Enable = HIGH /\
    Home_Tracker st' = false /\
    Run_Tracker st' = false /\
    pin_reads Button_Pin (trace st') = pin_reads Button_Pin (trace st).
Proof.
  intros Hhome Hin Hroom.
  destruct (Homeing_total polls st Hhome Hin Hroom) as (st' & E).
  destruct (Homeing_inv _ _ _ E Hhome) as (S' & H' & R' & _ & _ & P & _ & _ & B).
  exists st'. repeat split; assumption.
Qed.

Lemma Homeing_completes_witness :
  exists st',
    Homeing [(HIGH, 2%nat); (HIGH, 0%nat); (HIGH, 9%nat); (LOW, 0%nat)]
      homing_request = Ok st' /\
    Steps st' = 0 /\
    pin_level st' Stepper_Enable = HIGH /\
    Home_Tracker st' = false /\
    Run_Tracker st' = false /\
    pin_reads Button_Pin (trace st') = [LOW].
Proof.
  apply (Homeing_completes
           [(HIGH, 2%nat); (HIGH, 0%nat); (HIGH, 9%nat); (LOW, 0%nat)]
           homing_request).
  - reflexivity.
  - simpl. right. right. right. left. reflexivity.
  - vm_compute. repeat split; discriminate.
Defined.

(** ** Direction of the motor commands *)

Lemma setup_jog_moves (b : boot_input) (st st' : state) :
  setup_jog b st = Ok st' ->
  exists j, moves (trace st') = repeat (-1) j ++ moves (trace st).
Proof.
  unfold setup_jog. intros H.
  destruct (is_low (boot_btn b));
    [| injection H as <-; exists O; reflexivity].
  apply bind_Ok_inv in H. destruct H as (s1 & H1 & H).
  apply bind_Ok_inv in H. destruct H as (s2 & H2 & H).
  injection H as <-.
  apply wait_release_inv in H1. destruct H1 as (_ & _ & _ & M1).
  apply seek_home_inv in H2. destruct H2 as (_ & _ & _ & (j & M2) & _).
  exists j. cbn [trace digitalWrite moves] in M2 |- *.
  rewrite M2. cbn [trace emit moves] in M1. rewrite M1. reflexivity.
Qed.

(** C9, as amended.  The direction is fixed per mode: every motor
    command issued by [Homeing] is [stepper.move(1)], forward; the one
    issued by a [Tracking] call is [stepper.move(-1)], reverse, and so
    are those of the jog that [setup] performs when the button is down
    at power-up.  Homing and tracking turn the motor in opposite
    directions. *)
Theorem direction_per_mode :
  (forall polls st st', Homeing polls st = Ok st' ->
     exists j, moves (trace st') = repeat 1 j ++ moves (trace st)) /\
  (forall k1 k2 st st', Tracking k1 k2 st = Ok st' -> Run_Tracker st = true ->
     moves (trace st') = (-1) :: moves (trace st)) /\
  (forall b st st', setup_jog b st = Ok st' ->
     exists j, moves (trace st') = repeat (-1) j ++ moves (trace st)) /\
  direction_of 1 = Forward /\ direction_of (-1) = Reverse.
Proof.
  split; [| split; [| split; [exact setup_jog_moves | split; reflexivity]]].
  - intros polls st st' H.
    destruct (Home_Tracker st) eqn:Hhome.
    + apply (Homeing_inv _ _ _ H Hhome).
    + rewrite (Homeing_idle _ _ Hhome) in H. injection H as <-.
      exists O. reflexivity.
  - intros k1 k2 st st' H Hrun.
    destruct (Tracking_inv _ _ _ _ H Hrun)
      as (_ & _ & _ & _ & _ & _ & w1 & w2 & W1 & W2 & Tr & _).
    rewrite Tr.
    assert (forall r, moves (stop_report r ++ w2 ++
              DelayMicroseconds (Delay_2 st) :: w1 ++
              DelayMicroseconds (Delay_1 st) :: StepperMove (-1) ::
              DigitalWrite Stepper_Speed HIGH :: trace st) =
            (-1) :: moves (trace st)) as A.
    { intros r. cbn [stop_report app moves].
      rewrite (moves_led w2) by exact W2. cbn [moves].
      rewrite (moves_led w1) by exact W1. reflexivity. }
    destruct (Steps st + 1 >? Step_Limit st); [apply A |].
    cbn [app]. rewrite (moves_led w2) by exact W2. cbn [moves].
    rewrite (moves_led w1) by exact W1. reflexivity.
Qed.

Lemma direction_per_mode_witness :
  (exists st' j,
     Homeing [(HIGH, 0%nat); (HIGH, 0%nat); (LOW, 0%nat)] homing_request
       = Ok st' /\
     moves (trace st') = repeat 1 j) /\
  (exists st', Tracking 0 0 at_limit = Ok st' /\
     moves (trace st') = [-1]).
Proof.
  destruct direction_per_mode as (HH & HT & _ & _).
  split.
  - destruct (Homeing [(HIGH, 0%nat); (HIGH, 0%nat); (LOW, 0%nat)]
                homing_request) as [st' |] eqn:E;
      [| vm_compute in E; discriminate E].
    destruct (HH _ _ _ E) as (j & M).
    exists st', j. split; [reflexivity |].
    rewrite M. simpl. apply app_nil_r.
  - destruct (Tracking 0 0 at_limit) as [st' |] eqn:E;
      [| vm_compute in E; discriminate E].
    exists st'. split; [reflexivity |].
    apply (HT _ _ _ _ E). reflexivity.
Defined.

(** Homing after power-up, with the switch open at the first read:
    the step that is issued is a forward one. *)
Lemma homing_step_is_forward :
  exists st st',
    setup binary32 (shipped 400) no_boot_button = Ok st /\
    Homeing [(HIGH, 0%nat); (LOW, 0%nat)] st = Ok st' /\
    moves (trace st') = [1] /\
    map direction_of (moves (trace st')) = [Forward] /\
    map direction_of (moves (trace st')) <> [Reverse].
Proof.
  eexists. eexists.
  split; [vm_compute; reflexivity |].
  split; [vm_compute; reflexivity |].
  split; [reflexivity |]. split; [reflexivity |]. discriminate.
Qed.

(** ** The button *)

Lemma delay_total_inv (ms : Z) (k : nat) (st : state) :
  room (Z.of_nat k) st ->
  exists st', delay ms k st = Ok st' /\ isr_frame (emit (Delay ms) st) st'.
Proof.
  intros Hroom.
  destruct (delay_spec ms k 0 st) as (st' & E & _);
    [lia | rewrite Z.add_0_r; exact Hroom |].
  exists st'. split; [exact E |]. apply (delay_inv _ _ _ _ E).
Qed.

(** The hold check does nothing up to a count of 2. *)
Lemma Button_Scan_hold_quiet (i : scan_input) (st : state) :
  Button_Timer st <= 2 -> Button_Scan_hold i st = Ok st.
Proof.
  intros H. unfold Button_Scan_hold.
  destruct (Z.gtb_spec (Button_Timer st) 2); [lia | reflexivity].
Qed.

(** C7.  The release statement (lines 211-237), entered with the press
    latched and the button read [HIGH], does one of three things,
    selected by [Button_Timer < 1] and [Run_Tracker] alone:
    - [Button_Timer < 1], not tracking: the driver is enabled, "Tracking
      Started" is printed once, [Run_Tracker] is set, [Time] is 0, the
      latch is cleared;
    - [Button_Timer < 1], tracking: [Run_Tracker] is cleared, the driver
      is disabled, the stop is reported with [Steps], which is
      unchanged, the latch is cleared;
    - [Button_Timer >= 1]: the latch is cleared and nothing else
      changes.
    With [Button_Timer] at 1 or 2 this is also all that the whole call
    of [Button_Scan] does. *)
Theorem release_classification (i : scan_input) (st : state) :
  Button_Pressed st = true ->
  btn_second i = HIGH ->
  room (Z.of_nat (irq_release i)) st ->
  (Button_Timer st < 1 -> Run_Tracker st = false ->
   exists st',
     Button_Scan_release i st = Ok st' /\
     Run_Tracker st' = true /\ pin_level st' Stepper_Enable = LOW /\
     Time st' = 0 /\ Button_Pressed st' = false /\
     Steps st' = Steps st /\ Home_Tracker st' = Home_Tracker st /\
     trace st' =
       SerialPrintln "Tracking Started" :: DigitalWrite Stepper_Enable LOW ::
       Delay 100 :: DigitalRead Button_Pin HIGH :: trace st) /\
  (Button_Timer st < 1 -> Run_Tracker st = true ->
   exists st' w,
     Button_Scan_release i st = Ok st' /\
     Run_Tracker st' = false /\ pin_level st' Stepper_Enable = HIGH /\
     Button_Pressed st' = false /\
     Steps st' = Steps st /\ Home_Tracker st' = Home_Tracker st /\
     Forall led_write w /\
     trace st' =
       stop_report (Steps st) ++
       w ++ Delay 100 :: DigitalRead Button_Pin HIGH :: trace st) /\
  (1 <= Button_Timer st ->
   Button_Scan_release i st =
   Ok (set_Button_Pressed false (emit (DigitalRead Button_Pin HIGH) st))) /\
  (1 <= Button_Timer st <= 2 ->
   Button_Scan i st =
   Ok (set_Button_Pressed false
         (emit (DigitalRead Button_Pin HIGH)
            (emit (DigitalRead Button_Pin (btn_first i)) st)))).
Proof.
  intros Hlatch Hb Hroom.
  assert (1 <= Button_Timer st <= 2 ->
          Button_Scan i st =
          Ok (set_Button_Pressed false
                (emit (DigitalRead Button_Pin HIGH)
                   (emit (DigitalRead Button_Pin (btn_first i)) st))))
    as Whole.
  { intros [Hge Hle]. apply Z.ltb_ge in Hge.
    unfold Button_Scan, Button_Scan_latch, Button_Scan_release.
    cbn [Button_Pressed emit]. rewrite Hlatch. cbn [negb].
    destruct (btn_first i);
      cbn [is_low bind Button_Pressed Button_Timer Run_Tracker emit];
      rewrite Hlatch, Hb;
      cbn [is_high is_low negb Button_Timer Run_Tracker emit];
      rewrite Hge; cbn [andb bind];
      apply Button_Scan_hold_quiet; exact Hle. }
  unfold Button_Scan_release. rewrite Hlatch, Hb.
  cbn [is_high is_low negb Button_Timer Run_Tracker emit].
  destruct (delay_total_inv 100 (irq_release i)
              (emit (DigitalRead Button_Pin HIGH) st) Hroom) as (s1 & E & F).
  split; [| split; [| split]].
  - intros Hlt Hrun.
    apply Z.ltb_lt in Hlt. rewrite Hlt, Hrun. cbn [andb negb].
    rewrite E. cbn [bind].
    eexists. split; [reflexivity |].
    destruct (fr_stopped _ _ F Hrun) as (_ & _ & _ & P & T).
    open_frame F. fields_all. rewrite T.
    repeat split; congruence.
  - intros Hlt Hrun.
    apply Z.ltb_lt in Hlt. rewrite Hlt, Hrun. cbn [andb negb].
    rewrite E. cbn [bind].
    destruct (fr_trace _ _ F) as (w & T & W).
    eexists. exists w. split; [reflexivity |].
    open_frame F. fields_all. rewrite T.
    repeat split; try congruence; try assumption.
  - intros Hge.
    apply Z.ltb_ge in Hge. rewrite Hge. reflexivity.
  - exact Whole.
Qed.

Lemma release_classification_witness :
  exists st',
    Button_Scan_release (mkScan LOW 0 HIGH 1 0) tap_idle = Ok st' /\
    Run_Tracker st' = true /\ pin_level st' Stepper_Enable = LOW /\
    Time st' = 0 /\ Button_Pressed st' = false /\
    Steps st' = 0 /\ Home_Tracker st' = false /\
    trace st' =
      [SerialPrintln "Tracking Started"; DigitalWrite Stepper_Enable LOW;
       Delay 100; DigitalRead Button_Pin HIGH; DigitalRead Button_Pin LOW].
Proof.
  apply (release_classification (mkScan LOW 0 HIGH 1 0) tap_idle).
  - reflexivity.
  - reflexivity.
  - vm_compute. repeat split; discriminate.
  - reflexivity.
  - reflexivity.
Defined.

Lemma advance_n_slow (n : nat) (t c : Z) :
  0 <= t <= 10 -> (n <= 20)%nat -> snd (advance_n n (t, c)) <= c + 2.
Proof.
  intros Ht Hn.
  destruct (Z.eq_dec t 0) as [-> | Hnz].
  - destruct n as [| n]; [simpl; lia |].
    change (advance_n (S n) (0, c)) with (advance_n n (1, c)).
    rewrite advance_n_closed by lia. cbn [snd].
    assert ((1 - 1 + Z.of_nat n) / 10 < 2); [| lia].
    apply Z.div_lt_upper_bound; lia.
  - rewrite advance_n_closed by lia. cbn [snd].
    assert ((t - 1 + Z.of_nat n) / 10 < 3); [| lia].
    apply Z.div_lt_upper_bound; lia.
Qed.

(** With the press latched and [Button_Timer > 2] the first two
    statements of [Button_Scan] leave everything but the latch and the
    history as it is, whatever the button shows. *)
Lemma Button_Scan_before_hold (i : scan_input) (st : state) :
  Button_Pressed st = true -> 2 < Button_Timer st ->
  exists s2,
    (s1 <- Button_Scan_latch i st ;; Button_Scan_release i s1) = Ok s2 /\
    Button_Timer s2 = Button_Timer st /\
    (forall k, room k st -> room k s2).
Proof.
  intros Hlatch Hgt.
  assert ((Button_Timer st <? 1) = false) as Hlt by (apply Z.ltb_ge; lia).
  unfold Button_Scan_latch, Button_Scan_release.
  cbn [Button_Pressed emit]. rewrite Hlatch. cbn [negb].
  destruct (btn_first i); destruct (btn_second i);
    cbn [is_low is_high negb bind Button_Pressed Button_Timer Run_Tracker emit];
    rewrite ?Hlatch;
    cbn [is_low is_high negb bind Button_Pressed Button_Timer Run_Tracker emit];
    rewrite ?Hlt; cbn [andb];
    eexists; (split; [reflexivity |]); split; try reflexivity; auto.
Qed.

(** C6, as amended.  When the hold check (lines 238-245) runs with
    [Button_Timer > 2] the request fires in that call, without a read
    of the button: [Run_Tracker] is cleared, [Home_Tracker] is set, the
    latch is cleared and [Button_Timer] is back to 0.  A call of
    [Button_Scan] entered with the press latched and [Button_Timer > 2]
    ends in this way whatever it reads from the button.  From a zeroed
    [Button_Timer] no run of 20 or fewer timer interrupts brings it
    above 2, so the check that follows does not fire again.  Nothing
    limits the request to one per continuous hold. *)
Theorem hold_request (i : scan_input) (st : state) :
  2 < Button_Timer st ->
  room (Z.of_nat (irq_hold i)) st ->
  (exists st',
     Button_Scan_hold i st = Ok st' /\
     Run_Tracker st' = false /\ Home_Tracker st' = true /\
     Button_Pressed st' = false /\ Button_Timer st' = 0 /\
     pin_reads Button_Pin (trace st') = pin_reads Button_Pin (trace st)) /\
  (Button_Pressed st = true ->
   exists st',
     Button_Scan i st = Ok st' /\
     Run_Tracker st' = false /\ Home_Tracker st' = true /\
     Button_Pressed st' = false /\ Button_Timer st' = 0) /\
  (forall (n : nat) (s s' : state) (j : scan_input),
     Button_Timer s = 0 -> 0 <= Button_Timer_temp s <= 10 ->
     (n <= 20)%nat -> interrupts n s = Ok s' ->
     Button_Timer s' <= 2 /\ Button_Scan_hold j s' = Ok s').
Proof.
  intros Hgt Hroom.
  assert (forall s, 2 < Button_Timer s -> room (Z.of_nat (irq_hold i)) s ->
          exists s',
            Button_Scan_hold i s = Ok s' /\
            Run_Tracker s' = false /\ Home_Tracker s' = true /\
            Button_Pressed s' = false /\ Button_Timer s' = 0 /\
            pin_reads Button_Pin (trace s') = pin_reads Button_Pin (trace s))
    as Fire.
  { intros s Hs Hr. unfold Button_Scan_hold.
    destruct (Z.gtb_spec (Button_Timer s) 2) as [_ | Hle]; [| lia].
    destruct (delay_total_inv 100 (irq_hold i) s Hr) as (s1 & E & F).
    rewrite E. cbn [bind]. eexists. split; [reflexivity |].
    cbn [trace set_Button_Timer set_Button_Pressed set_Home_Tracker
         set_Run_Tracker].
    rewrite (isr_frame_pin_reads Button_Pin _ _ F).
    repeat split. }
  split; [apply Fire; assumption |]. split.
  - intros Hlatch.
    destruct (Button_Scan_before_hold i st Hlatch Hgt) as (s2 & E2 & B2 & R2).
    destruct (Fire s2) as (s' & E' & A & B & C & D & _);
      [lia | apply R2; exact Hroom |].
    exists s'. split; [| repeat split; assumption].
    unfold Button_Scan.
    destruct (Button_Scan_latch i st) as [s1 |]; cbn [bind] in E2 |- *;
      [| discriminate E2].
    rewrite E2. cbn [bind]. exact E'.
  - intros n s s' j Hz Ht Hn H.
    apply interrupts_inv in H. destruct H as (_ & B & _).
    assert (Button_Timer s' <= 2) as Hle.
    { change (Button_Timer s') with (snd (button_clock s')). rewrite B.
      destruct (Button_Pressed s).
      - unfold button_clock. rewrite Hz.
        apply (advance_n_slow n (Button_Timer_temp s) 0 Ht Hn).
      - unfold button_clock. cbn [snd]. lia. }
    split; [exact Hle | apply Button_Scan_hold_quiet; exact Hle].
Qed.

Lemma hold_request_witness :
  exists st',
    Button_Scan (mkScan LOW 0 LOW 0 1) long_hold = Ok st' /\
    Run_Tracker st' = false /\ Home_Tracker st' = true /\
    Button_Pressed st' = false /\ Button_Timer st' = 0.
Proof.
  apply (hold_request (mkScan LOW 0 LOW 0 1) long_hold).
  - reflexivity.
  - vm_compute. repeat split; discriminate.
  - reflexivity.
Defined.

(** The button is down at every read of four consecutive passes (eight
    reads); with thirty interrupts served before the second and before
    the fourth pass, homing is started twice during that one hold. *)
Lemma hold_requests_home_twice :
  exists st0 st1 st2,
    setup binary32 (shipped 400) no_boot_button = Ok st0 /\
    run [quiet] st0 = Ok st1 /\
    run [held 0; held 30; held 0; held 30] st1 = Ok st2 /\
    pin_reads Button_Pin (trace st2) =
      repeat LOW 8 ++ pin_reads Button_Pin (trace st1) /\
    homing_starts (trace st2) = homing_starts (trace st1) + 2.
Proof.
  eexists. eexists. eexists.
  split; [vm_compute; reflexivity |].
  split; [vm_compute; reflexivity |].
  split; [vm_compute; reflexivity |].
  split; vm_compute; reflexivity.
Qed.

(** ** The software clocks *)

(** From power-on ([Button_Timer_temp = 0]) the first count comes with
    the eleventh tick; from then on the clock is in its cycle 1..10. *)
Lemma first_count_at_tick_11 (c : Z) :
  advance_n 10 (0, c) = (10, c) /\ advance_n 11 (0, c) = (1, c + 1).
Proof. split; reflexivity. Qed.

(** C5, as amended.  The timer is programmed to 100000 microseconds
    (100 ms).  While the press is latched, [n] ticks advance
    [Button_Timer] by [(Button_Timer_temp - 1 + n) / 10], that is by
    one every ten ticks, and ten ticks last 1000000 microseconds: a
    unit of [Button_Timer] is one second of hold.  [Time] advances in
    the same way while [Run_Tracker] is set.  Neither counter moves
    while its flag is clear. *)
Theorem tick_cadence (n : nat) (st : state) :
  room (Z.of_nat n) st ->
  (Button_Pressed st = true -> 1 <= Button_Timer_temp st) ->
  (Run_Tracker st = true -> 1 <= Time_temp st) ->
  Timer1_period_us = 100 * 1000 /\
  10 * Timer1_period_us = 1000000 /\
  exists st',
    interrupts n st = Ok st' /\
    Button_Timer st' =
      (if Button_Pressed st
       then Button_Timer st + (Button_Timer_temp st - 1 + Z.of_nat n) / 10
       else Button_Timer st) /\
    Time st' =
      (if Run_Tracker st
       then Time st + (Time_temp st - 1 + Z.of_nat n) / 10
       else Time st) /\
    (n = 10%nat ->
     Button_Timer st' =
       (if Button_Pressed st then Button_Timer st + 1 else Button_Timer st) /\
     Time st' = (if Run_Tracker st then Time st + 1 else Time st)).
Proof.
  intros Hroom Hb Ht.
  split; [reflexivity |]. split; [reflexivity |].
  destruct (interrupts_spec n 0 st) as (st' & E & _ & _ & B & T);
    [lia | rewrite Z.add_0_r; exact Hroom |].
  destruct Hroom as (Hbtt & Htt & _).
  exists st'. split; [exact E |].
  assert (Button_Timer st' =
          (if Button_Pressed st
           then Button_Timer st + (Button_Timer_temp st - 1 + Z.of_nat n) / 10
           else Button_Timer st)) as HB.
  { change (Button_Timer st') with (snd (button_clock st')). rewrite B.
    destruct (Button_Pressed st); [| reflexivity].
    unfold button_clock. rewrite advance_n_closed by (specialize (Hb eq_refl); lia).
    reflexivity. }
  assert (Time st' =
          (if Run_Tracker st
           then Time st + (Time_temp st - 1 + Z.of_nat n) / 10
           else Time st)) as HT.
  { change (Time st') with (snd (time_clock st')). rewrite T.
    destruct (Run_Tracker st); [| reflexivity].
    unfold time_clock. rewrite advance_n_closed by (specialize (Ht eq_refl); lia).
    reflexivity. }
  split; [exact HB |]. split; [exact HT |].
  intros ->. rewrite HB, HT. split.
  - destruct (Button_Pressed st); [| reflexivity].
    specialize (Hb eq_refl).
    replace (Button_Timer_temp st - 1 + Z.of_nat 10)
      with (Button_Timer_temp st - 1 + 1 * 10) by lia.
    rewrite Z.div_add by lia. rewrite Z.div_small by lia. lia.
  - destruct (Run_Tracker st); [| reflexivity].
    specialize (Ht eq_refl).
    replace (Time_temp st - 1 + Z.of_nat 10)
      with (Time_temp st - 1 + 1 * 10) by lia.
    rewrite Z.div_add by lia. rewrite Z.div_small by lia. lia.
Qed.

Lemma tick_cadence_witness :
  exists st',
    interrupts 10 long_hold = Ok st' /\
    Button_Timer st' = 4 /\ Time st' = 10.
Proof.
  destruct (tick_cadence 10 long_hold) as (_ & _ & st' & E & _ & _ & H).
  - vm_compute. repeat split; discriminate.
  - intros _. vm_compute. discriminate.
  - intros _. vm_compute. discriminate.
  - exists st'. split; [exact E |]. apply (H eq_refl).
Defined.

(** After power-up and homing the button is pressed and kept down for
    ten ticks of 100 ms, one second: [Button_Timer] has advanced by 1,
    not by the 10 that a count in deciseconds would show, and a tick
    is not a centisecond. *)
Lemma one_second_is_one_count :
  exists st0 st1 st2,
    setup binary32 (shipped 400) no_boot_button = Ok st0 /\
    run [quiet; held 0] st0 = Ok st1 /\
    Button_Pressed st1 = true /\
    interrupts 10 st1 = Ok st2 /\
    Button_Timer st2 - Button_Timer st1 = 1 /\
    10 * Timer1_period_us = 1000000 /\
    (Button_Timer st2 - Button_Timer st1) * 100000 <> 10 * Timer1_period_us /\
    Timer1_period_us <> 10000.
Proof.
  eexists. eexists. eexists.
  split; [vm_compute; reflexivity |].
  split; [vm_compute; reflexivity |].
  split; [reflexivity |].
  split; [vm_compute; reflexivity |].
  split; [reflexivity |]. split; [reflexivity |].
  split; vm_compute; discriminate.
Qed.

(** ** One pass of [loop] *)

Lemma Button_Scan_latch_inv (i : scan_input) (st st' : state) :
  Button_Scan_latch i st = Ok st' ->
  Steps st' = Steps st /\ timing st' = timing st /\
  Run_Tracker st' = Run_Tracker st /\ Home_Tracker st' = Home_Tracker st.
Proof.
  unfold Button_Scan_latch. intros H.
  destruct (is_low (btn_first i)); [| injection H as <-; repeat split].
  cbn [Button_Pressed emit] in H.
  destruct (Button_Pressed st); cbn [negb] in H;
    [injection H as <-; repeat split |].
  apply delay_inv in H. destruct H as (F & _).
  open_frame F. unfold timing in *. fields_all.
  repeat split; congruence.
Qed.

Lemma Button_Scan_release_inv (i : scan_input) (st st' : state) :
  Button_Scan_release i st = Ok st' ->
  Steps st' = Steps st /\ timing st' = timing st /\
  Home_Tracker st' = Home_Tracker st.
Proof.
  unfold Button_Scan_release. intros H.
  destruct (Button_Pressed st); [| injection H as <-; repeat split].
  destruct (is_high (btn_second i)); [| injection H as <-; repeat split].
  cbn [Button_Timer Run_Tracker emit] in H.
  destruct ((Button_Timer st <? 1) && negb (Run_Tracker st));
    [| destruct ((Button_Timer st <? 1) && Run_Tracker st);
       [| injection H as <-; repeat split]];
    apply bind_Ok_inv in H; destruct H as (s1 & H1 & H);
    injection H as <-;
    apply delay_inv in H1; destruct H1 as (F & _);
    open_frame F; unfold timing in *; fields_all;
    repeat split; congruence.
Qed.

Lemma Button_Scan_hold_inv (i : scan_input) (st st' : state) :
  Button_Scan_hold i st = Ok st' ->
  Steps st' = Steps st /\ timing st' = timing st /\
  (Home_Tracker st' = Home_Tracker st /\ Run_Tracker st' = Run_Tracker st \/
   Home_Tracker st' = true /\ Run_Tracker st' = false).
Proof.
  unfold Button_Scan_hold. intros H.
  destruct (Button_Timer st >? 2);
    [| injection H as <-; repeat split; left; split; reflexivity].
  apply bind_Ok_inv in H. destruct H as (s1 & H1 & H).
  injection H as <-.
  apply delay_inv in H1. destruct H1 as (F & _).
  open_frame F. unfold timing in *. fields_all.
  repeat split; try congruence. right. split; reflexivity.
Qed.

Lemma Button_Scan_inv (i : scan_input) (st st' : state) :
  Button_Scan i st = Ok st' ->
  Steps st' = Steps st /\ timing st' = timing st.
Proof.
  unfold Button_Scan. intros H.
  apply bind_Ok_inv in H. destruct H as (s1 & H1 & H).
  apply bind_Ok_inv in H. destruct H as (s2 & H2 & H).
  apply Button_Scan_latch_inv in H1. destruct H1 as (A1 & B1 & _).
  apply Button_Scan_release_inv in H2. destruct H2 as (A2 & B2 & _).
  apply Button_Scan_hold_inv in H. destruct H as (A3 & B3 & _).
  split; congruence.
Qed.

(** The effect of a pass on the position, by cases on what the pass
    did: it homed, it took a step, or it did neither. *)
Lemma loop_inv (i : loop_input) (st st' : state) :
  loop i st = Ok st' ->
  timing st' = timing st /\
  ((Steps st' = 0 /\ Run_Tracker st' = false) \/
   (Steps st' = Steps st /\ Run_Tracker st' = false) \/
   (Steps st' = Steps st + 1 /\
    Run_Tracker st' = negb (Steps st + 1 >? Step_Limit st))).
Proof.
  unfold loop. intros H.
  apply bind_Ok_inv in H. destruct H as (s1 & H1 & H).
  apply bind_Ok_inv in H. destruct H as (s2 & H2 & H).
  apply bind_Ok_inv in H. destruct H as (s3 & H3 & H).
  apply interrupts_frame in H1.
  pose proof (fr_Steps _ _ H1) as S1.
  pose proof (isr_frame_timing _ _ H1) as T1.
  apply Button_Scan_inv in H2. destruct H2 as (S2 & T2).
  destruct (Home_Tracker s2) eqn:Hhome.
  - destruct (Homeing_inv _ _ _ H3 Hhome) as (S3 & _ & R3 & _ & T3 & _).
    rewrite (Tracking_idle _ _ _ R3) in H. injection H as <-.
    split; [congruence |]. left. split; assumption.
  - rewrite (Homeing_idle _ _ Hhome) in H3. injection H3 as <-.
    destruct (Run_Tracker s2) eqn:Hrun.
    + destruct (Tracking_inv _ _ _ _ H Hrun) as (S4 & _ & T4 & _ & _ & R4 & _).
      split; [congruence |]. right. right.
      assert (Step_Limit s2 = Step_Limit st) as L.
      { unfold timing in *. congruence. }
      rewrite R4, S4, L. split; congruence.
    + rewrite (Tracking_idle _ _ _ Hrun) in H. injection H as <-.
      split; [congruence |]. right. left. split; congruence.
Qed.

Lemma run_app (xs ys : list loop_input) :
  forall st, run (xs ++ ys) st = (st <- run xs st ;; run ys st).
Proof.
  induction xs as [| x xs IH]; simpl; intros st; [reflexivity |].
  destruct (loop x st) as [s |]; simpl; [apply IH | reflexivity].
Qed.

Lemma reachable_run (fmt : float_format) (cfg : config)
      (ins : list loop_input) :
  forall st st', reachable fmt cfg st -> run ins st = Ok st' ->
  reachable fmt cfg st'.
Proof.
  induction ins as [| i rest IH]; simpl; intros st st' Hr H.
  - injection H as <-. exact Hr.
  - apply bind_Ok_inv in H. destruct H as (s1 & H1 & H).
    apply (IH s1 st'); [| exact H].
    apply reach_loop with i st; assumption.
Qed.

Lemma reachable_nonneg (fmt : float_format) (cfg : config) (st : state) :
  reachable fmt cfg st ->
  0 <= Steps st /\ (Run_Tracker st = true -> Steps st <= Step_Limit st).
Proof.
  induction 1 as [b st H | i st st' _ [IH _] H].
  - apply setup_inv in H. destruct H as (C & _).
    unfold control in C. injection C as Hr _ _ Hs.
    rewrite Hs, Hr. split; [lia | discriminate].
  - apply loop_inv in H. destruct H as (T & [(S' & R) | [(S' & R) | (S' & R)]]).
    + rewrite S', R. split; [lia | discriminate].
    + rewrite S', R. split; [lia | discriminate].
    + assert (Step_Limit st' = Step_Limit st) as L.
      { unfold timing in T. congruence. }
      rewrite S', R, L. split; [lia |].
      destruct (Z.gtb_spec (Steps st + 1) (Step_Limit st)); simpl;
        [discriminate | lia].
Qed.

(** ** Position and travel limit over the reachable states *)

(** C2.  In every state between two passes of [loop], [Steps] is not
    negative, and while [Run_Tracker] is set
    [0 <= Steps <= Step_Limit].  A call of [Tracking] never decreases
    [Steps], and a pass of [loop] that ends with [Run_Tracker] set has
    advanced [Steps] by exactly one. *)
Theorem tracking_invariant (fmt : float_format) (cfg : config) (st : state) :
  reachable fmt cfg st ->
  0 <= Steps st /\
  (Run_Tracker st = true -> 0 <= Steps st <= Step_Limit st) /\
  (forall k1 k2 s s', Tracking k1 k2 s = Ok s' ->
     Steps s <= Steps s' /\
     (Run_Tracker s = true -> Steps s' = Steps s + 1)) /\
  (forall i st', loop i st = Ok st' -> Run_Tracker st' = true ->
     Steps st' = Steps st + 1 /\ Steps st <= Steps st').
Proof.
  intros Hr. destruct (reachable_nonneg _ _ _ Hr) as [H0 HL].
  split; [exact H0 |]. split; [intros R; split; [exact H0 | exact (HL R)] |].
  split.
  - intros k1 k2 s s' H.
    destruct (Run_Tracker s) eqn:Hrun.
    + destruct (Tracking_inv _ _ _ _ H Hrun) as (S' & _).
      split; [lia | intros _; exact S'].
    + rewrite (Tracking_idle _ _ _ Hrun) in H. injection H as <-.
      split; [lia | discriminate].
  - intros i st' H R.
    apply loop_inv in H.
    destruct H as (_ & [(_ & R') | [(_ & R') | (S' & _)]]);
      try congruence.
    split; [exact S' | lia].
Qed.

Lemma power_up_reachable (fmt : float_format) (cfg : config)
      (b : boot_input) (ins : list loop_input) (st : state) :
  power_up fmt cfg b ins = Ok st -> reachable fmt cfg st.
Proof.
  unfold power_up. intros H.
  apply bind_Ok_inv in H. destruct H as (st0 & H0 & H).
  apply reachable_run with ins st0; [| exact H].
  apply reach_setup with b. exact H0.
Qed.

(** Power-up, homing, then a short press: the tracker is tracking and
    has taken its first step. *)
Lemma tracking_invariant_witness :
  exists st,
    power_up binary32 (shipped 400) no_boot_button [quiet; held 0; released]
      = Ok st /\
    Run_Tracker st = true /\ Steps st = 1 /\
    0 <= Steps st <= Step_Limit st.
Proof.
  destruct (power_up binary32 (shipped 400) no_boot_button
              [quiet; held 0; released]) as [st |] eqn:E;
    [| vm_compute in E; discriminate E].
  exists st. split; [reflexivity |].
  assert (Run_Tracker st = true /\ Steps st = 1) as [R S].
  { pose proof E as E'. vm_compute in E'. injection E' as <-.
    split; reflexivity. }
  split; [exact R |]. split; [exact S |].
  apply (tracking_invariant binary32 (shipped 400) st).
  - apply power_up_reachable with no_boot_button [quiet; held 0; released].
    exact E.
  - exact R.
Defined.

(** C10, as amended.  Between two passes of [loop], [Steps] is within
    [Step_Limit] while [Run_Tracker] is set.  A pass that starts with
    [Run_Tracker] set ends with [Steps <= Step_Limit + 1], and if it
    ends with a step taken and [Run_Tracker] cleared, that is, stopped
    by the limit check, then [Steps = Step_Limit + 1] exactly.  The same
    holds of any call of [Tracking] entered with [Steps <= Step_Limit]. *)
Theorem limit_overshoot (fmt : float_format) (cfg : config) (st : state) :
  reachable fmt cfg st ->
  (Run_Tracker st = true -> Steps st <= Step_Limit st) /\
  (forall i st', loop i st = Ok st' -> Run_Tracker st = true ->
     Steps st' <= Step_Limit st' + 1 /\
     (Run_Tracker st' = false -> Steps st' = Steps st + 1 ->
      Steps st' = Step_Limit st' + 1)) /\
  (forall k1 k2 s s', Tracking k1 k2 s = Ok s' ->
     Run_Tracker s = true -> Steps s <= Step_Limit s ->
     Steps s' <= Step_Limit s' + 1 /\
     (Run_Tracker s' = false -> Steps s' = Step_Limit s' + 1)).
Proof.
  intros Hr. destruct (reachable_nonneg _ _ _ Hr) as [H0 HL].
  split; [exact HL |]. split.
  - intros i st' H R. specialize (HL R).
    apply loop_inv in H. destruct H as (T & C).
    assert (Step_Limit st' = Step_Limit st) as L.
    { unfold timing in T. congruence. }
    rewrite L.
    destruct C as [(S' & R') | [(S' & R') | (S' & R')]].
    + split; [lia | intros _ E; lia].
    + split; [lia | intros _ E; lia].
    + split; [lia |]. intros Rf _. rewrite Rf in R'.
      destruct (Z.gtb_spec (Steps st + 1) (Step_Limit st));
        [lia | discriminate R'].
  - intros k1 k2 s s' H R Hle.
    destruct (Tracking_inv _ _ _ _ H R) as (S' & _ & T & _ & _ & R' & _).
    assert (Step_Limit s' = Step_Limit s) as L.
    { unfold timing in T. congruence. }
    rewrite L, S'. split; [lia |]. intros Rf. rewrite Rf in R'.
    destruct (Z.gtb_spec (Steps s + 1) (Step_Limit s));
      [lia | discriminate R'].
Qed.

Lemma power_up_app (fmt : float_format) (cfg : config) (b : boot_input)
      (xs ys : list loop_input) :
  power_up fmt cfg b (xs ++ ys) =
  (st <- power_up fmt cfg b xs ;; run ys st).
Proof.
  unfold power_up. destruct (setup fmt cfg b) as [st |]; simpl;
    [apply run_app | reflexivity].
Qed.

Lemma limit_overshoot_witness :
  exists st,
    power_up binary32 (shipped 400) no_boot_button [quiet; held 0; released]
      = Ok st /\
    Run_Tracker st = true /\ Steps st <= Step_Limit st.
Proof.
  destruct (power_up binary32 (shipped 400) no_boot_button
              [quiet; held 0; released]) as [st |] eqn:E;
    [| vm_compute in E; discriminate E].
  exists st. split; [reflexivity |].
  assert (Run_Tracker st = true) as R.
  { pose proof E as E'. vm_compute in E'. injection E' as <-. reflexivity. }
  split; [exact R |].
  apply (limit_overshoot binary32 (shipped 400) st).
  - apply power_up_reachable with no_boot_button [quiet; held 0; released].
    exact E.
  - exact R.
Defined.

(** *** Running into the limit, and past it *)

Lemma advance_n_snoc (n : nat) :
  forall c, advance (advance_n n c) = advance_n (S n) c.
Proof.
  induction n as [| n IH]; intros c; [reflexivity |].
  change (advance_n (S n) c) with (advance_n n (advance c)).
  rewrite IH. reflexivity.
Qed.

(** The clock of [Time], [j] ticks after the start of tracking. *)
Lemma advance_n_range (j : nat) :
  0 <= fst (advance_n j (0, 0)) <= 10 /\
  0 <= snd (advance_n j (0, 0)) <= Z.of_nat j / 10.
Proof.
  destruct j as [| j]; [repeat split; vm_compute; discriminate |].
  change (advance_n (S j) (0, 0)) with (advance_n j (1, 0)).
  rewrite advance_n_closed by lia. cbn [fst snd].
  replace (1 - 1 + Z.of_nat j) with (Z.of_nat j) by lia.
  pose proof (Z.mod_pos_bound (Z.of_nat j) 10 ltac:(lia)).
  pose proof (Z.div_pos (Z.of_nat j) 10 ltac:(lia) ltac:(lia)).
  assert (Z.of_nat j / 10 <= Z.of_nat (S j) / 10)
    by (apply Z.div_le_mono; lia).
  lia.
Qed.

Lemma cruise_step (L t s : Z) (j : nat) (st : state) :
  cruising L t s j st -> s + 1 <= L -> LONG_MIN <= s + 1 <= LONG_MAX ->
  exists st', loop quiet st = Ok st' /\ cruising L t (s + 1) j st'.
Proof.
  destruct st as [run home pressed time bt steps smm lim rsi d1 d2 btt tt tog ps tr].
  unfold cruising, time_clock. cbn [Run_Tracker Home_Tracker Button_Pressed
    Button_Timer Button_Timer_temp Step_Limit Steps Time_temp Time].
  intros (-> & -> & -> & -> & -> & -> & -> & Hclock) Hle Hs.
  unfold loop, quiet, quiet_scan, Button_Scan, Button_Scan_latch,
    Button_Scan_release, Button_Scan_hold, Homeing, Tracking,
    delayMicroseconds.
  fields. change (0 >? 2) with false. fields.
  rewrite (as_long_Ok _ Hs). fields.
  destruct (Z.gtb_spec (s + 1) L); [lia |].
  eexists. split; [reflexivity |]. repeat split. exact Hclock.
Qed.

Lemma cruise (L t : Z) (j n : nat) :
  forall s st,
  cruising L t s j st -> s + Z.of_nat n <= L ->
  LONG_MIN <= s -> L <= LONG_MAX ->
  exists st', run (repeat quiet n) st = Ok st' /\
              cruising L t (s + Z.of_nat n) j st'.
Proof.
  induction n as [| n IH]; intros s st Hc Hle Hlo Hhi.
  - exists st. split; [reflexivity |]. rewrite Z.add_0_r. exact Hc.
  - destruct (cruise_step L t s j st Hc) as (s1 & E1 & C1); [lia | lia |].
    destruct (IH (s + 1) s1 C1) as (s2 & E2 & C2); [lia | lia | lia |].
    exists s2. cbn [repeat run]. rewrite E1. cbn [bind]. split; [exact E2 |].
    replace (s + Z.of_nat (S n)) with (s + 1 + Z.of_nat n) by lia.
    exact C2.
Qed.

Lemma advance_n_add (n m : nat) :
  forall c, advance_n (n + m) c = advance_n m (advance_n n c).
Proof.
  induction n as [| n IH]; intros c; [reflexivity |].
  cbn [Nat.add advance_n]. apply IH.
Qed.

Lemma Tracking_clocks (k1 k2 : nat) (st st' : state) :
  Tracking k1 k2 st = Ok st' -> Run_Tracker st = true ->
  Button_Pressed st = false ->
  button_clock st' = button_clock st /\
  time_clock st' = advance_n (k1 + k2) (time_clock st).
Proof.
  unfold Tracking. intros H Hrun Hup. rewrite Hrun in H.
  apply bind_Ok_inv in H. destruct H as (s & Es & H).
  apply bind_Ok_inv in H. destruct H as (s1 & H1 & H).
  apply bind_Ok_inv in H. destruct H as (s2 & H2 & H).
  unfold delayMicroseconds in H1, H2.
  apply interrupts_inv in H1. destruct H1 as (F1 & B1 & T1).
  apply interrupts_inv in H2. destruct H2 as (F2 & B2 & T2).
  pose proof (fr_Run_Tracker _ _ F1) as R1.
  pose proof (fr_Button_Pressed _ _ F1) as P1.
  cbn [Run_Tracker Button_Pressed emit set_Steps digitalWrite]
    in B1, T1, B2, T2, R1, P1.
  rewrite R1, Hrun in T2. rewrite P1, Hup in B2.
  rewrite Hrun in T1. rewrite Hup in B1.
  change (button_clock (emit (DelayMicroseconds (Delay_2 s1)) s1))
    with (button_clock s1) in B2.
  change (time_clock (emit (DelayMicroseconds (Delay_2 s1)) s1))
    with (time_clock s1) in T2.
  assert (button_clock s2 = button_clock st) as B.
  { rewrite B2, B1. reflexivity. }
  assert (time_clock s2 = advance_n (k1 + k2) (time_clock st)) as T.
  { rewrite advance_n_add. rewrite T2, T1. reflexivity. }
  destruct (Steps s2 >? Step_Limit s2); injection H as <-; split; assumption.
Qed.

Lemma Button_Scan_quiet (st : state) :
  Button_Pressed st = false -> Button_Timer st <= 2 ->
  Button_Scan quiet_scan st = Ok (emit (DigitalRead Button_Pin HIGH) st).
Proof.
  intros Hup Hle.
  unfold Button_Scan, Button_Scan_latch, Button_Scan_release, quiet_scan.
  cbn [btn_first is_low bind Button_Pressed emit]. rewrite Hup.
  apply Button_Scan_hold_quiet. exact Hle.
Qed.

(** A pass in which the timer fires: one step, one tick. *)
Lemma ticking_step (L t s : Z) (j : nat) (st : state) :
  cruising L t s j st -> 0 <= t <= 10 ->
  s + 1 <= L -> LONG_MIN <= s + 1 <= LONG_MAX ->
  Z.of_nat j / 10 < INT_MAX ->
  exists st', loop ticking st = Ok st' /\ cruising L t (s + 1) (S j) st'.
Proof.
  intros (R & H & P & BT & BTT & LL & SS & TC) Ht Hle Hs Hj.
  destruct (advance_n_range j) as [Hf Hc].
  rewrite <- TC in Hf, Hc. cbn [time_clock fst snd] in Hf, Hc.
  unfold loop, ticking.
  cbn [irq_idle scan home_polls irq_delay_1 irq_delay_2 interrupts bind].
  rewrite Button_Scan_quiet by (try assumption; lia). cbn [bind].
  rewrite Homeing_idle by exact H. cbn [bind].
  set (s0 := emit (DigitalRead Button_Pin HIGH) st).
  assert (room (Z.of_nat 1 + Z.of_nat 0) s0) as Hroom.
  { unfold room, s0. cbn [Button_Timer_temp Time_temp Button_Timer Time emit].
    rewrite BT, BTT. repeat split; int_range. }
  destruct (Tracking_total 1 0 s0) as (st' & E);
    [exact R | unfold s0; cbn [Steps emit]; rewrite SS; exact Hs
    | exact Hroom |].
  destruct (Tracking_inv _ _ _ _ E R)
    as (S' & _ & T & H' & P' & R' & _).
  destruct (Tracking_clocks _ _ _ _ E R P) as (B' & C').
  unfold s0 in S', T, H', P', R', B', C'.
  cbn [Steps Step_Limit Home_Tracker Button_Pressed emit] in S', H', P', R'.
  unfold timing in T.
  cbn [Steps_mm Step_Limit Rotation_Step_Interval Delay_1 Delay_2 emit] in T.
  unfold button_clock in B'. unfold time_clock at 2 in C'.
  cbn [Button_Timer_temp Button_Timer Time_temp Time emit] in B', C'.
  exists st'. split; [exact E |].
  rewrite SS, LL in R'.
  destruct (Z.gtb_spec (s + 1) L); [lia |].
  unfold cruising. repeat split; try congruence; try exact R'.
  rewrite C'. change (1 + 0)%nat with 1%nat.
  change (Time_temp st, Time st) with (time_clock st). rewrite TC.
  apply advance_n_snoc.
Qed.

Lemma cruise_block (L t s : Z) (j : nat) (st : state) :
  cruising L t s j st -> 0 <= t <= 10 -> s + 10 <= L ->
  LONG_MIN <= s -> L <= LONG_MAX -> Z.of_nat j / 10 < INT_MAX ->
  exists st', run ten_passes st = Ok st' /\ cruising L t (s + 10) (S j) st'.
Proof.
  intros Hc Ht Hle Hlo Hhi Hj. unfold ten_passes.
  destruct (cruise L t j 9 s st Hc) as (s1 & E1 & C1); [lia | lia | lia |].
  destruct (ticking_step L t _ j s1 C1) as (s2 & E2 & C2);
    [exact Ht | lia | lia | exact Hj |].
  exists s2. rewrite run_app, E1. cbn [bind run]. rewrite E2. cbn [bind].
  split; [reflexivity |].
  replace (s + 10) with (s + Z.of_nat 9 + 1) by lia. exact C2.
Qed.

Lemma cruise_blocks (L t : Z) (n : nat) :
  0 <= t <= 10 ->
  forall s j st,
  cruising L t s j st -> s + 10 * Z.of_nat n <= L ->
  LONG_MIN <= s -> L <= LONG_MAX ->
  (Z.of_nat j + Z.of_nat n) / 10 < INT_MAX ->
  exists st', run (List.concat (repeat ten_passes n)) st = Ok st' /\
              cruising L t (s + 10 * Z.of_nat n) (j + n) st'.
Proof.
  intros Ht.
  induction n as [| n IH]; intros s j st Hc Hle Hlo Hhi Hj.
  - exists st. split; [reflexivity |].
    rewrite Z.mul_0_r, Z.add_0_r, Nat.add_0_r. exact Hc.
  - assert (Z.of_nat j / 10 <= (Z.of_nat j + Z.of_nat (S n)) / 10)
      by (apply Z.div_le_mono; lia).
    destruct (cruise_block L t s j st Hc) as (s1 & E1 & C1);
      [exact Ht | lia | lia | lia | lia |].
    destruct (IH (s + 10) (S j) s1 C1) as (s2 & E2 & C2);
      [lia | lia | lia | |].
    { replace (Z.of_nat (S j) + Z.of_nat n)
        with (Z.of_nat j + Z.of_nat (S n)) by lia.
      exact Hj. }
    exists s2. cbn [repeat List.concat]. rewrite run_app, E1. cbn [bind].
    split; [exact E2 |].
    replace (s + 10 * Z.of_nat (S n)) with (s + 10 + 10 * Z.of_nat n) by lia.
    replace (j + S n)%nat with (S j + n)%nat by lia.
    exact C2.
Qed.

(** At the limit: the next pass stops the tracker one step beyond it;
    a press and its release then start it again, and the pass of the
    release takes one more step before the check stops it anew. *)
Lemma restart_beyond_limit (j : nat) (st : state) :
  cruising 460800 2 460800 j st ->
  exists s1 s2,
    run [quiet] st = Ok s1 /\
    Run_Tracker s1 = false /\ Steps s1 = 460801 /\
    run [held 0; released] s1 = Ok s2 /\
    Run_Tracker s2 = false /\ Steps s2 = 460802 /\
    Step_Limit s2 = 460800.
Proof.
  destruct st as [run home pressed time bt steps smm lim rsi d1 d2 btt tt tog ps tr].
  unfold cruising. cbn [Run_Tracker Home_Tracker Button_Pressed
    Button_Timer Button_Timer_temp Step_Limit Steps].
  intros (-> & -> & -> & -> & -> & -> & -> & _).
  eexists. eexists.
  split; [vm_compute; reflexivity |].
  split; [reflexivity |]. split; [reflexivity |].
  split; [vm_compute; reflexivity |].
  split; [reflexivity |]. split; reflexivity.
Qed.

(** The shipped 400-step machine is powered up, homes, is started with
    a short press and tracks undisturbed, the timer firing every tenth
    pass, until the limit check stops it at 460801.  A second short
    press starts it again: the pass of the release takes one more step
    before the check stops it, and [Steps] is [Step_Limit + 2]. *)
Lemma restart_passes_limit :
  exists st,
    power_up binary32 (shipped 400) no_boot_button
      ([quiet; held 0; released] ++
       List.concat (repeat ten_passes (Z.to_nat 46079)) ++ repeat quiet 9 ++
       [quiet; held 0; released]) = Ok st /\
    reachable binary32 (shipped 400) st /\
    Run_Tracker st = false /\
    Step_Limit st = 460800 /\ Steps st = 460802 /\
    Steps st = Step_Limit st + 2 /\ ~ Steps st <= Step_Limit st + 1.
Proof.
  destruct (power_up binary32 (shipped 400) no_boot_button
              [quiet; held 0; released]) as [sA |] eqn:EA;
    [| vm_compute in EA; discriminate EA].
  assert (cruising 460800 2 1 0 sA) as CA.
  { pose proof EA as E'. vm_compute in E'. injection E' as <-.
    repeat split. }
  destruct (cruise_blocks 460800 2 (Z.to_nat 46079) ltac:(lia) 1 0%nat sA CA)
    as (sB & EB & CB); [lia | int_range | int_range | |].
  { apply Z.div_lt_upper_bound; int_range. }
  replace (1 + 10 * Z.of_nat (Z.to_nat 46079)) with 460791 in CB by lia.
  destruct (cruise 460800 2 _ 9 460791 sB CB) as (sC & EC & CC);
    [lia | int_range | int_range |].
  change (460791 + Z.of_nat 9) with 460800 in CC.
  destruct (restart_beyond_limit _ sC CC)
    as (s1 & s2 & E1 & _ & _ & E2 & R2 & S2 & L2).
  assert (power_up binary32 (shipped 400) no_boot_button
            ([quiet; held 0; released] ++
             List.concat (repeat ten_passes (Z.to_nat 46079)) ++
             repeat quiet 9 ++ [quiet; held 0; released]) = Ok s2) as E.
  { rewrite power_up_app, EA. cbn [bind].
    rewrite run_app, EB. cbn [bind].
    rewrite run_app, EC. cbn [bind].
    change [quiet; held 0; released] with ([quiet] ++ [held 0; released]).
    rewrite run_app, E1. cbn [bind]. exact E2. }
  exists s2. split; [exact E |].
  split; [exact (power_up_reachable _ _ _ _ _ E) |].
  split; [exact R2 |]. split; [exact L2 |]. split; [exact S2 |].
  rewrite S2, L2. split; [reflexivity | lia].
Qed.

(** * Further properties of the routines *)

(** ** [setup] *)

Lemma wait_release_quiet (polls : list level) :
  forall st st', wait_release polls st = Ok st' ->
  sans_trace st' = sans_trace st.
Proof.
  induction polls as [| v rest IH]; simpl; intros st st' H;
    [discriminate H |].
  destruct v.
  - apply IH in H. exact H.
  - injection H as <-. reflexivity.
Qed.

(** With both flags clear the seeking loop changes the history only. *)
Lemma seek_home_quiet (n : Z) (polls : list (level * nat)) :
  forall st st', Run_Tracker st = false -> Button_Pressed st = false ->
  seek_home n polls st = Ok st' -> sans_trace st' = sans_trace st.
Proof.
  induction polls as [| [v k] rest IH]; simpl; intros st st' Hr Hb H;
    [discriminate H |].
  destruct v.
  - injection H as <-. reflexivity.
  - unfold delay in H. rewrite interrupts_idle in H by assumption.
    cbn [bind] in H. apply IH in H; [exact H | exact Hr | exact Hb].
Qed.

Lemma setup_preset_sans_timing (fmt : float_format) (cfg : config)
      (st st' : state) :
  setup_preset fmt cfg st = Ok st' -> sans_timing st' = sans_timing st.
Proof.
  unfold setup_preset. intros H.
  destruct (MOTOR_STEPS cfg =? 200).
  - destruct (double_to_int _); simpl in H; [| discriminate H].
    injection H as <-. reflexivity.
  - destruct (MOTOR_STEPS cfg =? 400).
    + destruct (double_to_int _); simpl in H; [| discriminate H].
      injection H as <-. reflexivity.
    + injection H as <-. reflexivity.
Qed.

Lemma setup_delays_sans_timing (st st' : state) :
  setup_delays st = Ok st' -> sans_timing st' = sans_timing st.
Proof.
  unfold setup_delays. intros H.
  destruct (Rotation_Step_Interval st >? 16000).
  - destruct (as_int _); simpl in H; [| discriminate H].
    injection H as <-. reflexivity.
  - injection H as <-. reflexivity.
Qed.

Lemma setup_limit_sans_timing (cfg : config) (st st' : state) :
  setup_limit cfg st = Ok st' -> sans_timing st' = sans_timing st.
Proof.
  unfold setup_limit. intros H.
  destruct (as_int _); simpl in H; [| discriminate H].
  destruct (as_long _); simpl in H; [| discriminate H].
  injection H as <-. reflexivity.
Qed.

Ltac unfold_views :=
  unfold sans_trace, sans_timing, control, timing, button_clock, time_clock
    in *;
  cbn [Run_Tracker Home_Tracker Button_Pressed Time Button_Timer Steps
       Steps_mm Step_Limit Rotation_Step_Interval Delay_1 Delay_2
       Button_Timer_temp Time_temp Toggle_Flag pins trace
       emit digitalWrite set_Run_Tracker set_Home_Tracker
       set_Button_Pressed set_Time set_Button_Timer set_Steps
       set_Button_Timer_temp set_Time_temp set_Toggle_Flag power_on] in *.

(** The jog of lines 152-164 on a machine at rest: the state is as
    before but for the history and the writes to the driver. *)
Lemma setup_jog_quiet (b : boot_input) (st st' : state) :
  Run_Tracker st = false -> Button_Pressed st = false ->
  setup_jog b st = Ok st' ->
  control st' = control st /\ timing st' = timing st /\
  button_clock st' = button_clock st /\ time_clock st' = time_clock st /\
  (pins st' = pins st \/
   pins st' =
     (Stepper_Enable, HIGH) :: (Stepper_Enable, LOW) ::
     (Stepper_Speed, LOW) :: pins st) /\
  (boot_btn b = HIGH -> moves (trace st') = moves (trace st)).
Proof.
  unfold setup_jog. intros Hr Hb H.
  destruct (boot_btn b); cbn [is_low] in H.
  - apply bind_Ok_inv in H. destruct H as (s1 & H1 & H).
    apply bind_Ok_inv in H. destruct H as (s2 & H2 & H).
    injection H as <-.
    apply wait_release_quiet in H1.
    assert (Run_Tracker s1 = false /\ Button_Pressed s1 = false) as [R1 B1].
    { unfold_views. split; congruence. }
    apply seek_home_quiet in H2; [| exact R1 | exact B1].
    unfold_views.
    repeat split; try congruence.
    right. congruence.
  - injection H as <-. repeat split. left. reflexivity.
Qed.

(** X1.  Whatever the configuration and whatever the button and the
    switch do during start-up, when [setup] returns homing is pending
    and nothing else: [Home_Tracker] is set, [Run_Tracker] and the
    press latch are clear, [Steps], [Time] and [Button_Timer] are 0,
    the driver is disabled and set to full steps, the indicator is
    off.  The only motor commands issued so far are the reverse steps
    of the jog, and there are none if the button was up at power-up. *)
Theorem setup_leaves_homing_pending (fmt : float_format) (cfg : config)
        (b : boot_input) (st : state) :
  setup fmt cfg b = Ok st ->
  Home_Tracker st = true /\ Run_Tracker st = false /\
  Button_Pressed st = false /\
  Steps st = 0 /\ Time st = 0 /\ Button_Timer st = 0 /\
  pin_level st Stepper_Enable = HIGH /\
  pin_level st Stepper_Speed = LOW /\
  pin_level st Status_Led_Pin = LOW /\
  (exists j, moves (trace st) = repeat (-1) j) /\
  (boot_btn b = HIGH -> moves (trace st) = []).
Proof.
  unfold setup. intros H.
  apply bind_Ok_inv in H. destruct H as (s1 & H1 & H).
  apply bind_Ok_inv in H. destruct H as (s2 & H2 & H).
  apply bind_Ok_inv in H. destruct H as (s3 & H3 & H).
  apply bind_Ok_inv in H. destruct H as (s4 & H4 & H).
  injection H as <-.
  apply setup_preset_sans_timing in H1.
  apply setup_delays_sans_timing in H2.
  apply setup_limit_sans_timing in H3.
  rewrite H2, H1 in H3. clear H1 H2.
  pose proof (setup_jog_moves _ _ _ H4) as (j & M4).
  apply setup_jog_quiet in H4; [| reflexivity | reflexivity].
  destruct H4 as (C4 & _ & B4 & K4 & P4 & N4).
  unfold setup_report, pin_level.
  unfold_views.
  assert (pins s3 = [(Stepper_Speed, LOW); (Stepper_Enable, HIGH)]) as P3
    by congruence.
  assert (moves (trace s3) = []) as T3.
  { replace (trace s3) with
      [StepperBegin 1 16; DigitalWrite Stepper_Speed LOW;
       PinMode Stepper_Speed OUTPUT; DigitalWrite Stepper_Enable HIGH;
       PinMode Button_Pin INPUT_PULLUP; PinMode Status_Led_Pin OUTPUT;
       PinMode HomeStart_Pin INPUT_PULLUP; TimerAttach;
       TimerInitialize Timer1_period_us;
       SerialPrintln "Barndoor tracker v1.4 by Björn Pasteuning";
       SerialBegin 115200] by congruence.
    reflexivity. }
  rewrite T3 in M4, N4.
  assert (last_write (pins s4) Stepper_Enable = HIGH /\
          last_write (pins s4) Stepper_Speed = LOW /\
          last_write (pins s4) Status_Led_Pin = LOW) as (PE & PS & PL).
  { destruct P4 as [-> | ->]; rewrite P3; repeat split. }
  cbn [moves].
  repeat split; try congruence.
  - exists j. rewrite M4. apply app_nil_r.
  - exact N4.
Qed.

Lemma setup_leaves_homing_pending_witness :
  exists st,
    setup binary32 (shipped 400)
      (mkBoot LOW [LOW; HIGH] [(HIGH, 0%nat); (HIGH, 3%nat); (LOW, 0%nat)])
      = Ok st /\
    Home_Tracker st = true /\ Run_Tracker st = false /\
    Steps st = 0 /\ pin_level st Stepper_Enable = HIGH /\
    moves (trace st) = [-1; -1].
Proof.
  destruct (setup binary32 (shipped 400)
              (mkBoot LOW [LOW; HIGH]
                 [(HIGH, 0%nat); (HIGH, 3%nat); (LOW, 0%nat)]))
    as [st |] eqn:E; [| vm_compute in E; discriminate E].
  exists st. split; [reflexivity |].
  destruct (setup_leaves_homing_pending _ _ _ _ E)
    as (A & B & _ & C & _ & _ & D & _).
  repeat (split; [assumption |]).
  vm_compute in E. injection E as <-. reflexivity.
Defined.

(** X2.  A motor resolution other than 200 or 400 is not rejected:
    [setup] skips both presets and goes on with the zero-initialised
    globals, so that [Steps_mm], [Rotation_Step_Interval], both waits
    and [Step_Limit] are 0 when it returns; and it does return (here
    with the button up at power-up) whenever the rod length fits. *)
Theorem setup_unsupported_motor (fmt : float_format) (cfg : config) :
  MOTOR_STEPS cfg <> 200 -> MOTOR_STEPS cfg <> 400 ->
  (forall b st, setup fmt cfg b = Ok st ->
     Steps_mm st = 0 /\ Rotation_Step_Interval st = 0 /\
     Delay_1 st = 0 /\ Delay_2 st = 0 /\ Step_Limit st = 0) /\
  (INT_MIN <= Threaded_UpperRod_Length cfg - 10 <= INT_MAX ->
   exists st, setup fmt cfg no_boot_button = Ok st).
Proof.
  intros N2 N4. split.
  - intros b st H. apply setup_inv in H.
    destruct H as (_ & L & _ & _ & _ & D4 & P).
    destruct P as [(E2 & _) | [(E4 & _) | (_ & _ & M & R)]];
      [contradiction | contradiction |].
    destruct D4 as [A B]; [lia |].
    rewrite M in L. repeat split; try assumption; lia.
  - intros Hrod. unfold setup, setup_preset.
    apply Z.eqb_neq in N2. apply Z.eqb_neq in N4. rewrite N2, N4.
    cbn [bind]. unfold setup_delays. cbn [Rotation_Step_Interval emit
      digitalWrite power_on].
    change (0 >? 16000) with false. cbn [bind].
    unfold setup_limit. rewrite (as_int_Ok _ Hrod). cbn [bind].
    cbn [Steps_mm set_Delay_2 set_Delay_1 emit digitalWrite power_on].
    change (0 * (Threaded_UpperRod_Length cfg - 10)) with 0.
    change (as_long 0) with (@Ok Z 0). cbn [bind].
    eexists. reflexivity.
Qed.

Lemma setup_unsupported_motor_witness :
  exists st,
    setup binary32 (shipped 300) no_boot_button = Ok st /\
    Steps_mm st = 0 /\ Rotation_Step_Interval st = 0 /\
    Delay_1 st = 0 /\ Delay_2 st = 0 /\ Step_Limit st = 0.
Proof.
  destruct (setup_unsupported_motor binary32 (shipped 300)) as [H [st E]].
  - discriminate.
  - discriminate.
  - vm_compute. split; discriminate.
  - exists st. split; [exact E | exact (H _ _ E)].
Defined.

(** ** [Homeing] and the resolution of the driver *)

Lemma drive_log_led (ws tr : list event) :
  Forall led_write ws -> drive_log (ws ++ tr) = drive_log tr.
Proof.
  induction 1 as [| e ws [v ->] _ IH]; [reflexivity | exact IH].
Qed.

Lemma isr_frame_drive_log (st st' : state) :
  isr_frame st st' -> drive_log (trace st') = drive_log (trace st).
Proof.
  intros F. destruct (fr_trace _ _ F) as (ws & -> & Hws).
  apply drive_log_led. exact Hws.
Qed.

(** The seeking loop steps once per [HIGH] read and leaves at the first
    [LOW]. *)
Lemma seek_home_count (n : Z) (polls : list (level * nat)) :
  forall st st', seek_home n polls st = Ok st' ->
  exists j,
    (j < List.length polls)%nat /\
    firstn j (map fst polls) = repeat HIGH j /\
    nth j (map fst polls) HIGH = LOW /\
    moves (trace st') = repeat n j ++ moves (trace st) /\
    pin_reads HomeStart_Pin (trace st') =
      LOW :: repeat HIGH j ++ pin_reads HomeStart_Pin (trace st) /\
    drive_log (trace st') = repeat (StepperMove n) j ++ drive_log (trace st).
Proof.
  induction polls as [| [v k] rest IH]; simpl; intros st st' H;
    [discriminate H |].
  destruct v.
  - injection H as <-. exists O. simpl. repeat split. lia.
  - apply bind_Ok_inv in H. destruct H as (s1 & H1 & H).
    apply delay_inv in H1. destruct H1 as (F1 & _).
    apply IH in H. destruct H as (j & Hj & Hf & Hn & M & R & D).
    rewrite (isr_frame_moves _ _ F1) in M.
    rewrite (isr_frame_pin_reads _ _ _ F1) in R.
    rewrite (isr_frame_drive_log _ _ F1) in D.
    exists (S j).
    split; [simpl; lia |].
    split; [cbn [firstn repeat]; rewrite Hf; reflexivity |].
    split; [exact Hn |]. split; [| split].
    + rewrite M. cbn [trace emit moves].
      change (repeat n (S j)) with (n :: repeat n j).
      rewrite repeat_cons, <- app_assoc. reflexivity.
    + rewrite R. cbn [trace emit pin_reads].
      change (HomeStart_Pin =? HomeStart_Pin) with true. cbn iota.
      change (repeat HIGH (S j)) with (HIGH :: repeat HIGH j).
      rewrite repeat_cons, <- app_assoc. reflexivity.
    + rewrite D. cbn [trace emit drive_log filter drive_event].
      change (repeat (StepperMove n) (S j))
        with (StepperMove n :: repeat (StepperMove n) j).
      rewrite repeat_cons, <- app_assoc. reflexivity.
Qed.

(** X3.  A call of [Homeing] that runs issues exactly one forward step
    for each read of the switch that shows [HIGH] and returns at the
    first read that shows [LOW]; at the home position (switch [LOW] at
    the first read) it issues no step at all. *)
Theorem Homeing_steps_until_switch (polls : list (level * nat))
        (st st' : state) :
  Homeing polls st = Ok st' -> Home_Tracker st = true ->
  exists j,
    (j < List.length polls)%nat /\
    firstn j (map fst polls) = repeat HIGH j /\
    nth j (map fst polls) HIGH = LOW /\
    moves (trace st') = repeat 1 j ++ moves (trace st) /\
    pin_reads HomeStart_Pin (trace st') =
      LOW :: repeat HIGH j ++ pin_reads HomeStart_Pin (trace st) /\
    (hd HIGH (map fst polls) = LOW ->
     moves (trace st') = moves (trace st)).
Proof.
  unfold Homeing. intros H Hhome. rewrite Hhome in H.
  apply bind_Ok_inv in H. destruct H as (s1 & H1 & H).
  injection H as <-.
  apply seek_home_count in H1.
  destruct H1 as (j & Hj & Hf & Hn & M & R & _).
  exists j. cbn [trace emit digitalWrite set_Steps set_Home_Tracker
    set_Run_Tracker moves pin_reads] in M, R |- *.
  change (Status_Led_Pin =? HomeStart_Pin) with false in R.
  repeat (split; [assumption |]).
  intros Hhd. destruct j as [| j]; [rewrite M; reflexivity |].
  destruct polls as [| [v k] rest]; [simpl in Hj; lia |].
  simpl in Hhd, Hf. rewrite Hhd in Hf. discriminate Hf.
Qed.

Lemma Homeing_steps_until_switch_witness :
  exists st',
    Homeing [(HIGH, 2%nat); (HIGH, 0%nat); (HIGH, 9%nat); (LOW, 0%nat)]
      homing_request = Ok st' /\
    moves (trace st') = [1; 1; 1] /\
    pin_reads HomeStart_Pin (trace st') = [LOW; HIGH; HIGH; HIGH].
Proof.
  destruct (Homeing [(HIGH, 2%nat); (HIGH, 0%nat); (HIGH, 9%nat); (LOW, 0%nat)]
              homing_request) as [st' |] eqn:E;
    [| vm_compute in E; discriminate E].
  exists st'. split; [reflexivity |].
  destruct (Homeing_steps_until_switch _ _ _ E eq_refl)
    as (j & Hj & _ & Hn & M & R & _).
  destruct j as [| [| [| [| j]]]]; try discriminate Hn.
  - split; [exact M | exact R].
  - simpl in Hj. lia.
Defined.

(** X4.  Each mode selects the resolution of the driver before it
    steps: a call of [Homeing] that runs writes [Stepper_Speed] [LOW]
    (full steps) once and then issues its forward steps, a call of
    [Tracking] that runs writes it [HIGH] (microsteps) and then issues
    its one reverse step; nothing else is sent to the step and
    resolution inputs, whatever the interrupts do meanwhile. *)
Theorem resolution_before_steps :
  (forall polls st st', Homeing polls st = Ok st' -> Home_Tracker st = true ->
     exists j,
       drive_log (trace st') =
         repeat (StepperMove 1) j ++
         DigitalWrite Stepper_Speed LOW :: drive_log (trace st)) /\
  (forall k1 k2 st st', Tracking k1 k2 st = Ok st' -> Run_Tracker st = true ->
     drive_log (trace st') =
       StepperMove (-1) ::
       DigitalWrite Stepper_Speed HIGH :: drive_log (trace st)).
Proof.
  split.
  - intros polls st st' H Hhome.
    unfold Homeing in H. rewrite Hhome in H.
    apply bind_Ok_inv in H. destruct H as (s1 & H1 & H).
    injection H as <-.
    apply seek_home_count in H1.
    destruct H1 as (j & _ & _ & _ & _ & _ & D).
    exists j. exact D.
  - intros k1 k2 st st' H Hrun.
    destruct (Tracking_inv _ _ _ _ H Hrun)
      as (_ & _ & _ & _ & _ & _ & w1 & w2 & W1 & W2 & Tr & _).
    rewrite Tr.
    assert (drive_log (w2 ++ DelayMicroseconds (Delay_2 st) :: w1 ++
              DelayMicroseconds (Delay_1 st) :: StepperMove (-1) ::
              DigitalWrite Stepper_Speed HIGH :: trace st) =
            StepperMove (-1) :: DigitalWrite Stepper_Speed HIGH ::
            drive_log (trace st)) as A.
    { rewrite (drive_log_led w2) by exact W2.
      change (drive_log (DelayMicroseconds (Delay_2 st) :: ?x))
        with (drive_log x).
      cbn [drive_log filter drive_event].
      change (filter drive_event) with drive_log.
      rewrite (drive_log_led w1) by exact W1. reflexivity. }
    destruct (Steps st + 1 >? Step_Limit st); [| exact A].
    unfold stop_report. cbn [app]. exact A.
Qed.

Lemma resolution_before_steps_witness :
  (exists st' j,
     Homeing [(HIGH, 0%nat); (HIGH, 0%nat); (LOW, 0%nat)] homing_request
       = Ok st' /\
     drive_log (trace st') =
       repeat (StepperMove 1) j ++ [DigitalWrite Stepper_Speed LOW]) /\
  (exists st', Tracking 1 0 at_limit = Ok st' /\
     drive_log (trace st') =
       [StepperMove (-1); DigitalWrite Stepper_Speed HIGH]).
Proof.
  destruct resolution_before_steps as (HH & HT).
  split.
  - destruct (Homeing [(HIGH, 0%nat); (HIGH, 0%nat); (LOW, 0%nat)]
                homing_request) as [st' |] eqn:E;
      [| vm_compute in E; discriminate E].
    destruct (HH _ _ _ E eq_refl) as (j & D).
    exists st', j. split; [reflexivity | exact D].
  - destruct (Tracking 1 0 at_limit) as [st' |] eqn:E;
      [| vm_compute in E; discriminate E].
    exists st'. split; [reflexivity |].
    apply (HT _ _ _ _ E). reflexivity.
Defined.

(** ** What a pass of [loop] does to the motor and to [Steps] *)

Lemma scan_frame_refl (st : state) : scan_frame st st.
Proof. constructor; auto. Qed.

Lemma scan_frame_trans (a b c : state) :
  scan_frame a b -> scan_frame b c -> scan_frame a c.
Proof. intros [] []. constructor; try congruence. auto. Qed.

Lemma moves_since_homing_led (ws tr : list event) :
  Forall led_write ws ->
  moves_since_homing (ws ++ tr) = moves_since_homing tr.
Proof.
  induction 1 as [| e ws [v ->] _ IH]; simpl; [reflexivity | exact IH].
Qed.

Lemma waits_us_led (ws tr : list event) :
  Forall led_write ws -> waits_us (ws ++ tr) = waits_us tr.
Proof.
  induction 1 as [| e ws [v ->] _ IH]; simpl; [reflexivity | exact IH].
Qed.

Lemma isr_scan_frame (st st' : state) : isr_frame st st' -> scan_frame st st'.
Proof.
  intros F. constructor.
  - apply (fr_Steps _ _ F).
  - destruct (fr_trace _ _ F) as (ws & -> & Hws).
    apply waits_us_led. exact Hws.
  - apply (isr_frame_timing _ _ F).
  - apply (isr_frame_moves _ _ F).
  - destruct (fr_trace _ _ F) as (ws & -> & Hws).
    apply moves_since_homing_led. exact Hws.
  - apply (isr_frame_drive_log _ _ F).
  - apply (isr_frame_pin_reads _ _ _ F).
  - intros H. rewrite (fr_Home_Tracker _ _ F). exact H.
Qed.

Lemma delay_scan_frame (ms : Z) (k : nat) (st st' : state) :
  delay ms k st = Ok st' -> scan_frame st st'.
Proof.
  intros H. apply delay_inv in H. destruct H as (F & _).
  apply scan_frame_trans with (emit (Delay ms) st).
  - constructor; auto.
  - apply isr_scan_frame. exact F.
Qed.

Lemma Button_Scan_latch_frame (i : scan_input) (st st' : state) :
  Button_Scan_latch i st = Ok st' -> scan_frame st st'.
Proof.
  unfold Button_Scan_latch. intros H.
  destruct (is_low (btn_first i));
    [| injection H as <-; constructor; auto].
  cbn [Button_Pressed emit] in H.
  destruct (Button_Pressed st); cbn [negb] in H;
    [injection H as <-; constructor; auto |].
  apply delay_scan_frame in H.
  eapply scan_frame_trans; [| exact H]. constructor; auto.
Qed.

Lemma Button_Scan_release_frame (i : scan_input) (st st' : state) :
  Button_Scan_release i st = Ok st' -> scan_frame st st'.
Proof.
  unfold Button_Scan_release. intros H.
  destruct (Button_Pressed st); [| injection H as <-; apply scan_frame_refl].
  destruct (is_high (btn_second i));
    [| injection H as <-; constructor; auto].
  cbn [Button_Timer Run_Tracker emit] in H.
  destruct ((Button_Timer st <? 1) && negb (Run_Tracker st));
    [| destruct ((Button_Timer st <? 1) && Run_Tracker st);
       [| injection H as <-; constructor; auto]];
    apply bind_Ok_inv in H; destruct H as (s1 & H1 & H);
    injection H as <-;
    apply delay_scan_frame in H1; destruct H1;
    unfold timing in *;
    constructor; cbn [Steps Steps_mm Step_Limit Rotation_Step_Interval
      Delay_1 Delay_2 Home_Tracker trace emit digitalWrite set_Run_Tracker
      set_Time set_Button_Pressed moves drive_log filter drive_event
      pin_reads waits_us] in *; auto; congruence.
Qed.

Lemma Button_Scan_hold_frame (i : scan_input) (st st' : state) :
  Button_Scan_hold i st = Ok st' -> scan_frame st st'.
Proof.
  unfold Button_Scan_hold. intros H.
  destruct (Button_Timer st >? 2); [| injection H as <-; apply scan_frame_refl].
  apply bind_Ok_inv in H. destruct H as (s1 & H1 & H).
  injection H as <-.
  apply delay_scan_frame in H1. destruct H1.
  constructor; auto.
Qed.

Lemma Button_Scan_frame (i : scan_input) (st st' : state) :
  Button_Scan i st = Ok st' -> scan_frame st st'.
Proof.
  unfold Button_Scan. intros H.
  apply bind_Ok_inv in H. destruct H as (s1 & H1 & H).
  apply bind_Ok_inv in H. destruct H as (s2 & H2 & H).
  apply scan_frame_trans with s1; [apply (Button_Scan_latch_frame _ _ _ H1) |].
  apply scan_frame_trans with s2; [apply (Button_Scan_release_frame _ _ _ H2) |].
  apply (Button_Scan_hold_frame _ _ _ H).
Qed.

Lemma Tracking_moves (k1 k2 : nat) (st st' : state) :
  Tracking k1 k2 st = Ok st' -> Run_Tracker st = true ->
  moves (trace st') = (-1) :: moves (trace st).
Proof.
  intros H Hrun.
  destruct (Tracking_inv _ _ _ _ H Hrun)
    as (_ & _ & _ & _ & _ & _ & w1 & w2 & W1 & W2 & Tr & _).
  rewrite Tr.
  assert (moves (w2 ++ DelayMicroseconds (Delay_2 st) :: w1 ++
            DelayMicroseconds (Delay_1 st) :: StepperMove (-1) ::
            DigitalWrite Stepper_Speed HIGH :: trace st) =
          (-1) :: moves (trace st)) as A.
  { rewrite (moves_led w2) by exact W2. cbn [moves].
    rewrite (moves_led w1) by exact W1. reflexivity. }
  destruct (Steps st + 1 >? Step_Limit st); [| exact A].
  unfold stop_report. cbn [app moves]. exact A.
Qed.

(** X5.  In one pass of [loop] the motor is either left alone, or
    stepped once in reverse by [Tracking], or driven forward by
    [Homeing], never both; and [Steps] follows: unchanged, one more, or
    0.  A pass that tracks does not home and a pass that homes does not
    track. *)
Theorem pass_moves_and_position (i : loop_input) (st st' : state) :
  loop i st = Ok st' ->
  (moves (trace st') = moves (trace st) /\ Steps st' = Steps st) \/
  (moves (trace st') = (-1) :: moves (trace st) /\
   Steps st' = Steps st + 1) \/
  (exists j, moves (trace st') = repeat 1 j ++ moves (trace st) /\
             Steps st' = 0 /\ Run_Tracker st' = false).
Proof.
  unfold loop. intros H.
  apply bind_Ok_inv in H. destruct H as (s1 & H1 & H).
  apply bind_Ok_inv in H. destruct H as (s2 & H2 & H).
  apply bind_Ok_inv in H. destruct H as (s3 & H3 & H).
  apply interrupts_frame in H1. apply isr_scan_frame in H1.
  apply Button_Scan_frame in H2.
  pose proof (scan_frame_trans _ _ _ H1 H2) as [S2 _ _ M2 _ _ _ _].
  destruct (Home_Tracker s2) eqn:Hhome.
  - destruct (Homeing_inv _ _ _ H3 Hhome)
      as (S3 & _ & R3 & _ & _ & _ & _ & (j & M3) & _).
    rewrite (Tracking_idle _ _ _ R3) in H. injection H as <-.
    right. right. exists j. rewrite M3, M2.
    repeat split; assumption.
  - rewrite (Homeing_idle _ _ Hhome) in H3. injection H3 as <-.
    destruct (Run_Tracker s2) eqn:Hrun.
    + destruct (Tracking_inv _ _ _ _ H Hrun) as (S4 & _).
      right. left. rewrite (Tracking_moves _ _ _ _ H Hrun), M2, S4, S2.
      split; reflexivity.
    + rewrite (Tracking_idle _ _ _ Hrun) in H. injection H as <-.
      left. split; assumption.
Qed.

Lemma pass_moves_and_position_witness :
  exists st',
    loop (mkLoop 0 quiet_scan [(LOW, 0%nat)] 1 0) at_limit = Ok st' /\
    moves (trace st') = [-1] /\ Steps st' = 460801.
Proof.
  destruct (loop (mkLoop 0 quiet_scan [(LOW, 0%nat)] 1 0) at_limit)
    as [st' |] eqn:E; [| vm_compute in E; discriminate E].
  exists st'. split; [reflexivity |].
  destruct (pass_moves_and_position _ _ _ E)
    as [(M & S') | [(M & S') | (j & M & S' & _)]].
  - exfalso. vm_compute in E. injection E as <-. discriminate S'.
  - split; [exact M | exact S'].
  - exfalso. vm_compute in E. injection E as <-. discriminate S'.
Defined.

(** ** The position counter and the motor *)

Lemma Homeing_since (polls : list (level * nat)) (st st' : state) :
  Homeing polls st = Ok st' -> Home_Tracker st = true ->
  moves_since_homing (trace st') = [].
Proof.
  unfold Homeing. intros H Hhome. rewrite Hhome in H.
  apply bind_Ok_inv in H. destruct H as (s1 & _ & H).
  injection H as <-. reflexivity.
Qed.

Lemma Tracking_since (k1 k2 : nat) (st st' : state) :
  Tracking k1 k2 st = Ok st' -> Run_Tracker st = true ->
  moves_since_homing (trace st') = (-1) :: moves_since_homing (trace st).
Proof.
  intros H Hrun.
  destruct (Tracking_inv _ _ _ _ H Hrun)
    as (_ & _ & _ & _ & _ & _ & w1 & w2 & W1 & W2 & Tr & _).
  rewrite Tr.
  assert (moves_since_homing
            (w2 ++ DelayMicroseconds (Delay_2 st) :: w1 ++
             DelayMicroseconds (Delay_1 st) :: StepperMove (-1) ::
             DigitalWrite Stepper_Speed HIGH :: trace st) =
          (-1) :: moves_since_homing (trace st)) as A.
  { rewrite (moves_since_homing_led w2) by exact W2.
    cbn [moves_since_homing].
    rewrite (moves_since_homing_led w1) by exact W1. reflexivity. }
  destruct (Steps st + 1 >? Step_Limit st); exact A.
Qed.

(** X6.  Between passes of [loop], from the first pass on, [Steps] is
    the number of motor commands issued since homing last completed,
    and every one of them is a single reverse step: nothing but
    [Tracking] has moved the motor since, and each step was counted. *)
Theorem position_counts_tracking_steps (fmt : float_format) (cfg : config)
        (st : state) :
  reachable fmt cfg st -> Home_Tracker st = false ->
  0 <= Steps st /\
  moves_since_homing (trace st) = repeat (-1) (Z.to_nat (Steps st)).
Proof.
  intros Hr Hh. split; [apply (reachable_nonneg _ _ _ Hr) |].
  revert Hh.
  induction Hr as [b st H | i st st' Hr IH H]; intros Hhome'.
  - apply setup_inv in H. destruct H as (C & _).
    unfold control in C. congruence.
  - pose proof (reachable_nonneg _ _ _ Hr) as (Hpos & _).
    unfold loop in H.
    apply bind_Ok_inv in H. destruct H as (s1 & H1 & H).
    apply bind_Ok_inv in H. destruct H as (s2 & H2 & H).
    apply bind_Ok_inv in H. destruct H as (s3 & H3 & H).
    apply interrupts_frame in H1. apply isr_scan_frame in H1.
    apply Button_Scan_frame in H2.
    pose proof (scan_frame_trans _ _ _ H1 H2) as [S2 _ _ _ M2 _ _ K2].
    destruct (Home_Tracker s2) eqn:Hhome.
    + destruct (Homeing_inv _ _ _ H3 Hhome) as (S3 & _ & R3 & _).
      rewrite (Tracking_idle _ _ _ R3) in H. injection H as <-.
      rewrite (Homeing_since _ _ _ H3 Hhome), S3. reflexivity.
    + assert (Home_Tracker st = false) as Hst.
      { destruct (Home_Tracker st) eqn:Hst; [| reflexivity].
        discriminate (K2 eq_refl). }
      specialize (IH Hst).
      rewrite (Homeing_idle _ _ Hhome) in H3. injection H3 as <-.
      destruct (Run_Tracker s2) eqn:Hrun.
      * destruct (Tracking_inv _ _ _ _ H Hrun) as (S4 & _).
        rewrite (Tracking_since _ _ _ _ H Hrun), M2, IH, S4, S2.
        replace (Z.to_nat (Steps st + 1)) with (S (Z.to_nat (Steps st)))
          by lia.
        reflexivity.
      * rewrite (Tracking_idle _ _ _ Hrun) in H. injection H as <-.
        rewrite M2, IH, S2. reflexivity.
Qed.

Lemma position_counts_tracking_steps_witness :
  exists st,
    power_up binary64 (shipped 400) (mkBoot LOW [HIGH] [(HIGH, 0%nat); (LOW, 0%nat)])
      [mkLoop 0 quiet_scan [(HIGH, 0%nat); (HIGH, 0%nat); (LOW, 0%nat)] 0 0;
       held 0; released; quiet; ticking] = Ok st /\
    Steps st = 3 /\
    moves (trace st) = [-1; -1; -1; 1; 1; -1] /\
    moves_since_homing (trace st) = [-1; -1; -1].
Proof.
  destruct (power_up binary64 (shipped 400)
              (mkBoot LOW [HIGH] [(HIGH, 0%nat); (LOW, 0%nat)])
              [mkLoop 0 quiet_scan
                 [(HIGH, 0%nat); (HIGH, 0%nat); (LOW, 0%nat)] 0 0;
               held 0; released; quiet; ticking]) as [st |] eqn:E;
    [| vm_compute in E; discriminate E].
  exists st. split; [reflexivity |].
  assert (Home_Tracker st = false /\ Steps st = 3 /\
          moves (trace st) = [-1; -1; -1; 1; 1; -1]) as (Hh & S' & M).
  { pose proof E as E'. vm_compute in E'. injection E' as <-.
    repeat split; reflexivity. }
  split; [exact S' |]. split; [exact M |].
  destruct (position_counts_tracking_steps binary64 (shipped 400) st)
    as (_ & Q).
  - eapply power_up_reachable. exact E.
  - exact Hh.
  - rewrite Q, S'. reflexivity.
Defined.

(** ** The outputs and the mode *)

Lemma isr_frame_outputs (st st' : state) :
  isr_frame st st' -> outputs_follow_mode st -> outputs_follow_mode st'.
Proof.
  intros F (E & L). unfold outputs_follow_mode.
  rewrite (fr_Run_Tracker _ _ F).
  split.
  - rewrite (fr_pins _ _ F) by discriminate. exact E.
  - intros Hrun. destruct (fr_stopped _ _ F Hrun) as (_ & _ & _ & P & _).
    unfold pin_level. rewrite P. exact (L Hrun).
Qed.

Lemma delay_outputs (ms : Z) (k : nat) (st st' : state) :
  delay ms k st = Ok st' -> outputs_follow_mode st ->
  outputs_follow_mode st' /\ Run_Tracker st' = Run_Tracker st.
Proof.
  intros H O. apply delay_inv in H. destruct H as (F & _).
  split; [| exact (fr_Run_Tracker _ _ F)].
  apply (isr_frame_outputs _ _ F). exact O.
Qed.

Lemma Button_Scan_latch_outputs (i : scan_input) (st st' : state) :
  Button_Scan_latch i st = Ok st' -> outputs_follow_mode st ->
  outputs_follow_mode st'.
Proof.
  unfold Button_Scan_latch. intros H O.
  destruct (is_low (btn_first i)); [| injection H as <-; exact O].
  cbn [Button_Pressed emit] in H.
  destruct (Button_Pressed st); cbn [negb] in H;
    [injection H as <-; exact O |].
  apply delay_outputs in H; [apply H | exact O].
Qed.

Lemma Button_Scan_release_outputs (i : scan_input) (st st' : state) :
  Button_Scan_release i st = Ok st' -> outputs_follow_mode st ->
  outputs_follow_mode st'.
Proof.
  unfold Button_Scan_release. intros H O.
  destruct (Button_Pressed st); [| injection H as <-; exact O].
  destruct (is_high (btn_second i)); [| injection H as <-; exact O].
  cbn [Button_Timer Run_Tracker emit] in H.
  destruct ((Button_Timer st <? 1) && negb (Run_Tracker st));
    [| destruct ((Button_Timer st <? 1) && Run_Tracker st);
       [| injection H as <-; exact O]];
    apply bind_Ok_inv in H; destruct H as (s1 & H1 & H);
    injection H as <-;
    apply delay_outputs in H1; try exact O;
    split; [reflexivity | discriminate | reflexivity | reflexivity].
Qed.

Lemma Button_Scan_hold_outputs (i : scan_input) (st st' : state) :
  Button_Scan_hold i st = Ok st' -> outputs_follow_mode st ->
  Home_Tracker st' = true \/ outputs_follow_mode st'.
Proof.
  unfold Button_Scan_hold. intros H O.
  destruct (Button_Timer st >? 2); [| injection H as <-; right; exact O].
  apply bind_Ok_inv in H. destruct H as (s1 & _ & H).
  injection H as <-. left. reflexivity.
Qed.

Lemma Button_Scan_outputs (i : scan_input) (st st' : state) :
  Button_Scan i st = Ok st' ->
  Home_Tracker st = true \/ outputs_follow_mode st ->
  Home_Tracker st' = true \/ outputs_follow_mode st'.
Proof.
  intros H [Hhome | O].
  - left. apply (sf_Home _ _ (Button_Scan_frame _ _ _ H) Hhome).
  - unfold Button_Scan in H.
    apply bind_Ok_inv in H. destruct H as (s1 & H1 & H).
    apply bind_Ok_inv in H. destruct H as (s2 & H2 & H).
    apply (Button_Scan_hold_outputs _ _ _ H).
    apply (Button_Scan_release_outputs _ _ _ H2).
    apply (Button_Scan_latch_outputs _ _ _ H1). exact O.
Qed.

Lemma Tracking_pins (k1 k2 : nat) (st st' : state) :
  Tracking k1 k2 st = Ok st' -> Run_Tracker st = true ->
  pin_level st' Stepper_Speed = HIGH /\
  (Run_Tracker st' = true ->
   pin_level st' Stepper_Enable = pin_level st Stepper_Enable) /\
  (Run_Tracker st' = false ->
   pin_level st' Stepper_Enable = HIGH /\
   pin_level st' Status_Led_Pin = LOW).
Proof.
  unfold Tracking. intros H Hrun. rewrite Hrun in H.
  apply bind_Ok_inv in H. destruct H as (s & _ & H).
  apply bind_Ok_inv in H. destruct H as (s1 & H1 & H).
  apply bind_Ok_inv in H. destruct H as (s2 & H2 & H).
  apply delayMicroseconds_inv in H1. apply delayMicroseconds_inv in H2.
  assert (forall p, p <> Status_Led_Pin ->
            pin_level s2 p =
            pin_level (digitalWrite Stepper_Speed HIGH st) p) as P.
  { intros p Hp. rewrite (fr_pins _ _ H2 p Hp).
    exact (fr_pins _ _ H1 p Hp). }
  assert (Run_Tracker s2 = true) as R2.
  { rewrite (fr_Run_Tracker _ _ H2). cbn [Run_Tracker emit].
    rewrite (fr_Run_Tracker _ _ H1). exact Hrun. }
  destruct (Steps s2 >? Step_Limit s2); injection H as <-.
  - split; [| split].
    + change (pin_level s2 Stepper_Speed = HIGH).
      rewrite P by discriminate. reflexivity.
    + discriminate.
    + intros _. split; reflexivity.
  - split; [| split].
    + rewrite P by discriminate. reflexivity.
    + intros _. rewrite P by discriminate. reflexivity.
    + congruence.
Qed.

Lemma setup_outputs (fmt : float_format) (cfg : config) (b : boot_input)
      (st : state) :
  setup fmt cfg b = Ok st ->
  Run_Tracker st = false /\
  pin_level st Stepper_Enable = HIGH /\ pin_level st Status_Led_Pin = LOW.
Proof.
  unfold setup. intros H.
  apply bind_Ok_inv in H. destruct H as (s1 & H1 & H).
  apply bind_Ok_inv in H. destruct H as (s2 & H2 & H).
  apply bind_Ok_inv in H. destruct H as (s3 & H3 & H).
  apply bind_Ok_inv in H. destruct H as (s4 & H4 & H).
  injection H as <-.
  apply setup_preset_sans_timing in H1.
  apply setup_delays_sans_timing in H2.
  apply setup_limit_sans_timing in H3.
  rewrite H2, H1 in H3. clear H1 H2.
  apply setup_jog_quiet in H4; [| reflexivity | reflexivity].
  destruct H4 as (C4 & _ & _ & _ & P4 & _).
  unfold setup_report, pin_level.
  unfold_views.
  assert (pins s3 = [(Stepper_Speed, LOW); (Stepper_Enable, HIGH)]) as P3
    by congruence.
  split; [congruence |].
  destruct P4 as [-> | ->]; rewrite P3; split; reflexivity.
Qed.

(** X7.  Between passes of [loop] the outputs follow the mode: the
    driver's enable input is asserted ([LOW]) exactly while
    [Run_Tracker] is set; while it is set the driver is on its
    microstepping resolution; while it is clear the indicator is
    dark. *)
Theorem outputs_between_passes (fmt : float_format) (cfg : config)
        (st : state) :
  reachable fmt cfg st ->
  pin_level st Stepper_Enable = (if Run_Tracker st then LOW else HIGH) /\
  (Run_Tracker st = true -> pin_level st Stepper_Speed = HIGH) /\
  (Run_Tracker st = false -> pin_level st Status_Led_Pin = LOW).
Proof.
  intros Hr.
  enough (outputs_follow_mode st /\
          (Run_Tracker st = true -> pin_level st Stepper_Speed = HIGH))
    as ((E & L) & S') by (repeat split; assumption).
  induction Hr as [b st H | i st st' Hr (IH & _) H].
  - destruct (setup_outputs _ _ _ _ H) as (R & E & L).
    unfold outputs_follow_mode. rewrite R.
    repeat split; [exact E | intros _; exact L | discriminate].
  - unfold loop in H.
    apply bind_Ok_inv in H. destruct H as (s1 & H1 & H).
    apply bind_Ok_inv in H. destruct H as (s2 & H2 & H).
    apply bind_Ok_inv in H. destruct H as (s3 & H3 & H).
    apply interrupts_frame in H1.
    pose proof (isr_frame_outputs _ _ H1 IH) as O1.
    pose proof (Button_Scan_outputs _ _ _ H2 (or_intror O1)) as O2.
    destruct (Home_Tracker s2) eqn:Hhome.
    + destruct (Homeing_inv _ _ _ H3 Hhome)
        as (_ & _ & R3 & _ & _ & E3 & L3 & _).
      rewrite (Tracking_idle _ _ _ R3) in H. injection H as <-.
      unfold outputs_follow_mode. rewrite R3.
      repeat split; [exact E3 | intros _; exact L3 | discriminate].
    + destruct O2 as [O2 | (E2 & L2)]; [discriminate O2 |].
      rewrite (Homeing_idle _ _ Hhome) in H3. injection H3 as <-.
      destruct (Run_Tracker s2) eqn:Hrun.
      * destruct (Tracking_pins _ _ _ _ H Hrun) as (P1 & P2 & P3).
        unfold outputs_follow_mode.
        destruct (Run_Tracker st') eqn:R'.
        -- repeat split;
             [rewrite (P2 eq_refl); exact E2 | discriminate | intros _; exact P1].
        -- destruct (P3 eq_refl) as (E3 & L3).
           repeat split; [exact E3 | intros _; exact L3 | discriminate].
      * rewrite (Tracking_idle _ _ _ Hrun) in H. injection H as <-.
        unfold outputs_follow_mode. rewrite Hrun.
        repeat split; [exact E2 | exact L2 | discriminate].
Qed.

Lemma outputs_between_passes_witness :
  exists st,
    power_up binary64 (shipped 200) no_boot_button
      [quiet; held 0; released; ticking] = Ok st /\
    Run_Tracker st = true /\
    pin_level st Stepper_Enable = LOW /\
    pin_level st Stepper_Speed = HIGH.
Proof.
  destruct (power_up binary64 (shipped 200) no_boot_button
              [quiet; held 0; released; ticking]) as [st |] eqn:E;
    [| vm_compute in E; discriminate E].
  exists st. split; [reflexivity |].
  assert (Run_Tracker st = true) as R.
  { pose proof E as E'. vm_compute in E'. injection E' as <-. reflexivity. }
  destruct (outputs_between_passes binary64 (shipped 200) st) as (En & Sp & _).
  - eapply power_up_reachable. exact E.
  - rewrite R in En. split; [exact R |]. split; [exact En | exact (Sp R)].
Defined.

(** ** The software clocks between passes *)

Lemma advance_n_bounds (n : nat) :
  forall c, 0 <= fst c <= 10 ->
  0 <= fst (advance_n n c) <= 10 /\ snd c <= snd (advance_n n c).
Proof.
  induction n as [| n IH]; intros c Hc; [simpl; lia |].
  destruct (advance_bounds c Hc) as (A1 & A2).
  destruct (IH (advance c)) as (B1 & B2); [lia |].
  cbn [advance_n]. lia.
Qed.

Lemma wait_frame_refl (st : state) : wait_frame st st.
Proof. unfold wait_frame. auto. Qed.

Lemma wait_frame_trans (a b c : state) :
  wait_frame a b -> wait_frame b c -> wait_frame a c.
Proof.
  intros (P1 & C1 & L1) (P2 & C2 & L2). unfold wait_frame.
  split; [congruence |]. split; [auto |].
  intros Hp. rewrite L2, L1; congruence.
Qed.

Lemma interrupts_wait_frame (n : nat) (st st' : state) :
  interrupts n st = Ok st' -> wait_frame st st'.
Proof.
  intros H. apply interrupts_inv in H. destruct H as (F & B & T).
  split; [apply (fr_Button_Pressed _ _ F) |]. split.
  - intros (b1 & t1 & b2 & t2).
    destruct (advance_n_bounds n (button_clock st) b1) as (Bf & Bs).
    destruct (advance_n_bounds n (time_clock st) t1) as (Tf & Ts).
    unfold clocks_ok.
    change (Button_Timer_temp st') with (fst (button_clock st')).
    change (Button_Timer st') with (snd (button_clock st')).
    change (Time_temp st') with (fst (time_clock st')).
    change (Time st') with (snd (time_clock st')).
    rewrite B, T.
    destruct (Button_Pressed st); destruct (Run_Tracker st);
      unfold button_clock, time_clock in *; cbn [fst snd] in *;
      repeat split; lia.
  - intros Hp. apply (fr_latch_clear _ _ F Hp).
Qed.

Lemma delay_wait_frame (ms : Z) (k : nat) (st st' : state) :
  delay ms k st = Ok st' -> wait_frame st st'.
Proof.
  unfold delay. intros H. apply interrupts_wait_frame in H. exact H.
Qed.

Lemma delayMicroseconds_wait_frame (us : Z) (k : nat) (st st' : state) :
  delayMicroseconds us k st = Ok st' -> wait_frame st st'.
Proof.
  unfold delayMicroseconds. intros H.
  apply interrupts_wait_frame in H. exact H.
Qed.

Lemma seek_home_wait_frame (n : Z) (polls : list (level * nat)) :
  forall st st', seek_home n polls st = Ok st' -> wait_frame st st'.
Proof.
  induction polls as [| [v k] rest IH]; simpl; intros st st' H;
    [discriminate H |].
  destruct v.
  - injection H as <-. exact (wait_frame_refl st).
  - apply bind_Ok_inv in H. destruct H as (s1 & H1 & H).
    apply delay_wait_frame in H1. apply IH in H.
    apply wait_frame_trans with s1; [exact H1 | exact H].
Qed.

Lemma Homeing_wait_frame (polls : list (level * nat)) (st st' : state) :
  Homeing polls st = Ok st' -> wait_frame st st'.
Proof.
  unfold Homeing. intros H.
  destruct (Home_Tracker st); [| injection H as <-; apply wait_frame_refl].
  apply bind_Ok_inv in H. destruct H as (s1 & H1 & H).
  injection H as <-. apply seek_home_wait_frame in H1. exact H1.
Qed.

Lemma Tracking_wait_frame (k1 k2 : nat) (st st' : state) :
  Tracking k1 k2 st = Ok st' -> wait_frame st st'.
Proof.
  unfold Tracking. intros H.
  destruct (Run_Tracker st); [| injection H as <-; apply wait_frame_refl].
  apply bind_Ok_inv in H. destruct H as (s & _ & H).
  apply bind_Ok_inv in H. destruct H as (s1 & H1 & H).
  apply bind_Ok_inv in H. destruct H as (s2 & H2 & H).
  apply delayMicroseconds_wait_frame in H1.
  apply delayMicroseconds_wait_frame in H2.
  pose proof (wait_frame_trans _ _ _ H1 H2) as W.
  destruct (Steps s2 >? Step_Limit s2); injection H as <-; exact W.
Qed.

Lemma Button_Scan_latch_clocks (i : scan_input) (st st' : state) :
  Button_Scan_latch i st = Ok st' -> clocks_ok st -> clocks_ok st'.
Proof.
  unfold Button_Scan_latch. intros H C.
  destruct (is_low (btn_first i)); [| injection H as <-; exact C].
  cbn [Button_Pressed emit] in H.
  destruct (Button_Pressed st); cbn [negb] in H;
    [injection H as <-; exact C |].
  apply delay_wait_frame in H. destruct H as (_ & W & _). apply W.
  unfold clocks_ok in *. fields. lia.
Qed.

Lemma Button_Scan_release_clocks (i : scan_input) (st st' : state) :
  Button_Scan_release i st = Ok st' -> clocks_ok st -> clocks_ok st'.
Proof.
  unfold Button_Scan_release. intros H C.
  destruct (Button_Pressed st); [| injection H as <-; exact C].
  destruct (is_high (btn_second i)); [| injection H as <-; exact C].
  cbn [Button_Timer Run_Tracker emit] in H.
  destruct ((Button_Timer st <? 1) && negb (Run_Tracker st));
    [| destruct ((Button_Timer st <? 1) && Run_Tracker st);
       [| injection H as <-; exact C]];
    apply bind_Ok_inv in H; destruct H as (s1 & H1 & H);
    injection H as <-;
    apply delay_wait_frame in H1; destruct H1 as (_ & W & _);
    specialize (W C); unfold clocks_ok in *; fields; lia.
Qed.

Lemma Button_Scan_hold_clocks (i : scan_input) (st st' : state) :
  Button_Scan_hold i st = Ok st' -> clocks_ok st ->
  clocks_ok st' /\ Button_Timer st' <= 2.
Proof.
  unfold Button_Scan_hold. intros H C.
  destruct (Z.gtb_spec (Button_Timer st) 2) as [G | G];
    [| injection H as <-; split; [exact C | lia]].
  apply bind_Ok_inv in H. destruct H as (s1 & H1 & H).
  injection H as <-.
  apply delay_wait_frame in H1. destruct H1 as (_ & W & _).
  specialize (W C). unfold clocks_ok in *. fields. lia.
Qed.

Lemma Button_Scan_clocks (i : scan_input) (st st' : state) :
  Button_Scan i st = Ok st' -> clocks_ok st ->
  clocks_ok st' /\ Button_Timer st' <= 2.
Proof.
  unfold Button_Scan. intros H C.
  apply bind_Ok_inv in H. destruct H as (s1 & H1 & H).
  apply bind_Ok_inv in H. destruct H as (s2 & H2 & H).
  apply (Button_Scan_hold_clocks _ _ _ H).
  apply (Button_Scan_release_clocks _ _ _ H2).
  apply (Button_Scan_latch_clocks _ _ _ H1). exact C.
Qed.

Lemma loop_clocks (i : loop_input) (st st' : state) :
  loop i st = Ok st' -> clocks_ok st ->
  clocks_ok st' /\ (Button_Pressed st' = false -> Button_Timer st' <= 2).
Proof.
  unfold loop. intros H C.
  apply bind_Ok_inv in H. destruct H as (s1 & H1 & H).
  apply bind_Ok_inv in H. destruct H as (s2 & H2 & H).
  apply bind_Ok_inv in H. destruct H as (s3 & H3 & H).
  apply interrupts_wait_frame in H1. destruct H1 as (_ & W1 & _).
  destruct (Button_Scan_clocks _ _ _ H2 (W1 C)) as (C2 & B2).
  apply Homeing_wait_frame in H3. apply Tracking_wait_frame in H.
  destruct (wait_frame_trans _ _ _ H3 H) as (P & W & L).
  split; [exact (W C2) |].
  intros Hp. rewrite L by congruence. exact B2.
Qed.

Lemma setup_clocks (fmt : float_format) (cfg : config) (b : boot_input)
      (st : state) :
  setup fmt cfg b = Ok st ->
  button_clock st = (0, 0) /\ time_clock st = (0, 0).
Proof.
  unfold setup. intros H.
  apply bind_Ok_inv in H. destruct H as (s1 & H1 & H).
  apply bind_Ok_inv in H. destruct H as (s2 & H2 & H).
  apply bind_Ok_inv in H. destruct H as (s3 & H3 & H).
  apply bind_Ok_inv in H. destruct H as (s4 & H4 & H).
  injection H as <-.
  apply setup_preset_sans_timing in H1.
  apply setup_delays_sans_timing in H2.
  apply setup_limit_sans_timing in H3.
  rewrite H2, H1 in H3. clear H1 H2.
  apply setup_jog_quiet in H4; [| reflexivity | reflexivity].
  destruct H4 as (_ & _ & B4 & K4 & _).
  unfold setup_report.
  unfold_views.
  split; congruence.
Qed.

Lemma reachable_clocks (fmt : float_format) (cfg : config) (st : state) :
  reachable fmt cfg st ->
  clocks_ok st /\ (Button_Pressed st = false -> Button_Timer st <= 2).
Proof.
  induction 1 as [b st H | i st st' _ (IH & _) H].
  - apply setup_clocks in H. destruct H as (B & T).
    unfold button_clock, time_clock in B, T.
    injection B as B1 B2. injection T as T1 T2.
    unfold clocks_ok. rewrite B1, B2, T1, T2. repeat split; lia.
  - apply (loop_clocks _ _ _ H IH).
Qed.

(** X8.  Between passes of [loop] the sub-tick counters of [Timer_1]
    are within 0..10, [Button_Timer] and [Time] are not negative, and
    with the latch clear [Button_Timer] is at most 2.  Hence the
    handler can be served any number of times without leaving [int],
    as long as that number fits below [INT_MAX] on top of both
    counts. *)
Theorem clocks_between_passes (fmt : float_format) (cfg : config)
        (st : state) :
  reachable fmt cfg st ->
  0 <= Button_Timer_temp st <= 10 /\ 0 <= Time_temp st <= 10 /\
  0 <= Button_Timer st /\ 0 <= Time st /\
  (Button_Pressed st = false -> Button_Timer st <= 2) /\
  (forall k : nat,
     Button_Timer st + Z.of_nat k <= INT_MAX ->
     Time st + Z.of_nat k <= INT_MAX ->
     exists st', interrupts k st = Ok st').
Proof.
  intros Hr.
  destruct (reachable_clocks _ _ _ Hr) as ((B1 & T1 & B2 & T2) & L).
  repeat split; try lia; try exact L.
  intros k Hb Ht.
  destruct (interrupts_spec k 0 st) as (st' & E & _); [lia | |].
  - unfold room. rewrite Z.add_0_r. repeat split; int_range.
  - exists st'. exact E.
Qed.

Lemma clocks_between_passes_witness :
  exists st,
    power_up binary64 (shipped 400) no_boot_button
      [quiet; held 0; released; mkLoop 25 quiet_scan [(LOW, 0%nat)] 7 0]
      = Ok st /\
    time_clock st = (2, 3) /\
    exists st', interrupts 1000 st = Ok st'.
Proof.
  destruct (power_up binary64 (shipped 400) no_boot_button
              [quiet; held 0; released;
               mkLoop 25 quiet_scan [(LOW, 0%nat)] 7 0]) as [st |] eqn:E;
    [| vm_compute in E; discriminate E].
  exists st. split; [reflexivity |].
  assert (time_clock st = (2, 3) /\ Button_Timer st = 0) as (T & B).
  { pose proof E as E'. vm_compute in E'. injection E' as <-.
    split; reflexivity. }
  split; [exact T |].
  destruct (clocks_between_passes binary64 (shipped 400) st)
    as (_ & _ & _ & _ & _ & Q).
  - eapply power_up_reachable. exact E.
  - apply (Q 1000%nat).
    + rewrite B. vm_compute. discriminate.
    + unfold time_clock in T. injection T as _ ->. vm_compute. discriminate.
Defined.

(** ** An idle machine *)

Lemma idle_pass (i : loop_input) (st : state) :
  Run_Tracker st = false -> Home_Tracker st = false ->
  Button_Pressed st = false -> Button_Timer st <= 2 ->
  btn_first (scan i) = HIGH ->
  loop i st = Ok (emit (DigitalRead Button_Pin HIGH) st).
Proof.
  intros Hr Hh Hp Hb Hf. unfold loop.
  rewrite (interrupts_idle _ _ Hp Hr). cbn [bind].
  unfold Button_Scan, Button_Scan_latch, Button_Scan_release.
  rewrite Hf. cbn [is_low bind Button_Pressed emit]. rewrite Hp.
  cbn [bind].
  rewrite Button_Scan_hold_quiet by exact Hb. cbn [bind].
  rewrite Homeing_idle by exact Hh. cbn [bind].
  apply Tracking_idle. exact Hr.
Qed.

Lemma idle_run (ins : list loop_input) :
  forall st,
  Run_Tracker st = false -> Home_Tracker st = false ->
  Button_Pressed st = false -> Button_Timer st <= 2 ->
  Forall (fun i => btn_first (scan i) = HIGH) ins ->
  exists st',
    run ins st = Ok st' /\ sans_trace st' = sans_trace st /\
    trace st' =
      repeat (DigitalRead Button_Pin HIGH) (List.length ins) ++ trace st.
Proof.
  induction ins as [| i rest IH]; intros st Hr Hh Hp Hb Hall.
  - exists st. repeat split.
  - inversion Hall as [| ? ? Hi Hrest]; subst.
    destruct (IH (emit (DigitalRead Button_Pin HIGH) st))
      as (st' & E & V & T); try assumption.
    exists st'. cbn [run]. rewrite (idle_pass i st) by assumption.
    cbn [bind]. split; [exact E |]. split; [exact V |].
    rewrite T. cbn [trace emit List.length].
    change (DigitalRead Button_Pin HIGH :: trace st)
      with ([DigitalRead Button_Pin HIGH] ++ trace st).
    rewrite app_assoc. f_equal.
    change [DigitalRead Button_Pin HIGH]
      with (repeat (DigitalRead Button_Pin HIGH) 1).
    rewrite <- repeat_app. f_equal. lia.
Qed.

(** X9.  A machine that is between passes, neither tracking nor asked
    to home, with no press latched, stays exactly as it is for as long
    as the button reads up at the top of [Button_Scan]: whatever the
    timer and the other inputs do, each pass only adds that one read
    to the history.  Nothing moves until the button is pressed. *)
Theorem idle_until_pressed (fmt : float_format) (cfg : config)
        (ins : list loop_input) (st : state) :
  reachable fmt cfg st ->
  Run_Tracker st = false -> Home_Tracker st = false ->
  Button_Pressed st = false ->
  Forall (fun i => btn_first (scan i) = HIGH) ins ->
  exists st',
    run ins st = Ok st' /\ sans_trace st' = sans_trace st /\
    trace st' =
      repeat (DigitalRead Button_Pin HIGH) (List.length ins) ++ trace st.
Proof.
  intros Hreach Hr Hh Hp Hall.
  apply idle_run; try assumption.
  apply (reachable_clocks _ _ _ Hreach). exact Hp.
Qed.

Lemma idle_until_pressed_witness :
  exists st st',
    power_up binary32 (shipped 200) no_boot_button [quiet; held 0; released;
      ticking; held 0; released] = Ok st /\
    Steps st = 3 /\ Toggle_Flag st = true /\
    run [mkLoop 40 (mkScan HIGH 7 LOW 9 30) [] 5 6; quiet; ticking] st
      = Ok st' /\
    sans_trace st' = sans_trace st /\
    trace st' = repeat (DigitalRead Button_Pin HIGH) 3 ++ trace st.
Proof.
  destruct (power_up binary32 (shipped 200) no_boot_button
              [quiet; held 0; released; ticking; held 0; released])
    as [st |] eqn:E; [| vm_compute in E; discriminate E].
  assert (Run_Tracker st = false /\ Home_Tracker st = false /\
          Button_Pressed st = false /\ Steps st = 3 /\ Toggle_Flag st = true)
    as (Hr & Hh & Hp & Hs & Hb).
  { pose proof E as E'. vm_compute in E'. injection E' as <-.
    repeat split; reflexivity. }
  destruct (idle_until_pressed binary32 (shipped 200)
              [mkLoop 40 (mkScan HIGH 7 LOW 9 30) [] 5 6; quiet; ticking] st)
    as (st' & R & V & T); try assumption.
  - eapply power_up_reachable. exact E.
  - repeat constructor.
  - exists st, st'. repeat split; assumption.
Defined.

(** ** A press and its release within one call of [Button_Scan] *)

(** From a zeroed count, the first count arrives with the tick that
    finds the sub-tick counter above 9. *)
Lemma first_count (k : nat) (t : Z) :
  0 <= t <= 10 ->
  (snd (advance_n k (t, 0)) <? 1) = (t + Z.of_nat k <=? 10).
Proof.
  intros Ht.
  assert (forall n t', 1 <= t' <= 10 ->
            (snd (advance_n n (t', 0)) <? 1) = (t' - 1 + Z.of_nat n <? 10))
    as Closed.
  { intros n t' Ht'. rewrite advance_n_closed by exact Ht'. cbn [snd].
    rewrite Z.add_0_l.
    destruct (Z.ltb_spec (t' - 1 + Z.of_nat n) 10) as [L | L].
    - apply Z.ltb_lt. rewrite Z.div_small by lia. lia.
    - apply Z.ltb_ge.
      pose proof (Z.div_le_lower_bound (t' - 1 + Z.of_nat n) 10 1
                    ltac:(lia) ltac:(lia)).
      lia. }
  destruct (Z.eq_dec t 0) as [-> | Hnz].
  - destruct k as [| k]; [reflexivity |].
    change (advance_n (S k) (0, 0)) with (advance_n k (1, 0)).
    rewrite Closed by lia.
    destruct (Z.ltb_spec (1 - 1 + Z.of_nat k) 10);
      destruct (Z.leb_spec (0 + Z.of_nat (S k)) 10); lia.
  - rewrite Closed by lia.
    destruct (Z.ltb_spec (t - 1 + Z.of_nat k) 10);
      destruct (Z.leb_spec (t + Z.of_nat k) 10); lia.
Qed.

(** X10.  A call of [Button_Scan] that finds no press latched, reads
    the button down at line 200 and up again at line 211 treats the
    press as a tap exactly when the interrupts served during the wait
    of line 207 do not carry the sub-tick counter past 10: the press
    zeroes [Button_Timer] but not [Button_Timer_temp].  A tap toggles
    [Run_Tracker]; otherwise the press is dropped.  In both cases the
    latch is clear afterwards and no homing is requested. *)
Theorem tap_within_one_scan (i : scan_input) (st st' : state) :
  Button_Pressed st = false ->
  btn_first i = LOW -> btn_second i = HIGH ->
  0 <= Button_Timer_temp st <= 10 ->
  (irq_latch i + irq_release i <= 20)%nat ->
  Button_Scan i st = Ok st' ->
  Button_Pressed st' = false /\
  Home_Tracker st' = Home_Tracker st /\
  Run_Tracker st' =
    (if Button_Timer_temp st + Z.of_nat (irq_latch i) <=? 10
     then negb (Run_Tracker st) else Run_Tracker st) /\
  Steps st' = Steps st /\ moves (trace st') = moves (trace st).
Proof.
  intros Hp Hf Hs Ht Hk H.
  pose proof (Button_Scan_frame _ _ _ H) as [S' _ _ M' _ _ _ _].
  enough (Button_Pressed st' = false /\
          Home_Tracker st' = Home_Tracker st /\
          Run_Tracker st' =
            (if Button_Timer_temp st + Z.of_nat (irq_latch i) <=? 10
             then negb (Run_Tracker st) else Run_Tracker st))
    as (A & B & C) by (repeat split; assumption).
  clear S' M'.
  unfold Button_Scan in H.
  apply bind_Ok_inv in H. destruct H as (s1 & H1 & H).
  apply bind_Ok_inv in H. destruct H as (s2 & H2 & H).
  unfold Button_Scan_latch in H1. rewrite Hf in H1.
  cbn [is_low Button_Pressed emit] in H1. rewrite Hp in H1.
  cbn [negb] in H1.
  apply delay_inv in H1. destruct H1 as (F1 & B1 & _).
  assert (button_clock s1 =
          advance_n (irq_latch i) (Button_Timer_temp st, 0)) as B1'
    by exact B1.
  assert (Button_Pressed s1 = true) as P1
    by exact (fr_Button_Pressed _ _ F1).
  assert (Run_Tracker s1 = Run_Tracker st) as R1
    by exact (fr_Run_Tracker _ _ F1).
  assert (Home_Tracker s1 = Home_Tracker st) as G1
    by exact (fr_Home_Tracker _ _ F1).
  clear B1 F1.
  assert ((Button_Timer s1 <? 1) =
          (Button_Timer_temp st + Z.of_nat (irq_latch i) <=? 10)) as Q.
  { change (Button_Timer s1) with (snd (button_clock s1)).
    rewrite B1'. apply first_count. exact Ht. }
  unfold Button_Scan_release in H2. rewrite P1, Hs in H2.
  cbn [is_high is_low negb Button_Timer Run_Tracker emit] in H2.
  rewrite Q, R1 in H2.
  destruct (Button_Timer_temp st + Z.of_nat (irq_latch i) <=? 10);
    cbn [andb] in H2.
  - assert (exists s1d,
              delay 100 (irq_release i)
                (emit (DigitalRead Button_Pin HIGH) s1) = Ok s1d /\
              Button_Pressed s2 = false /\
              Home_Tracker s2 = Home_Tracker s1d /\
              Run_Tracker s2 = negb (Run_Tracker st) /\
              Button_Timer s2 = Button_Timer s1d) as (s1d & D & P2 & G2 & R2 & T2).
    { destruct (Run_Tracker st); cbn [negb] in H2;
        apply bind_Ok_inv in H2; destruct H2 as (s1d & D & H2);
        injection H2 as <-; exists s1d; repeat split; exact D. }
    apply delay_inv in D. destruct D as (F2 & B2 & _).
    assert (button_clock s1d =
            advance_n (irq_latch i + irq_release i)
              (Button_Timer_temp st, 0)) as B2'.
    { rewrite advance_n_add, <- B1'.
      cbn [Button_Pressed emit] in B2. rewrite P1 in B2. exact B2. }
    assert (Button_Timer s2 <= 2) as Le.
    { rewrite T2. change (Button_Timer s1d) with (snd (button_clock s1d)).
      rewrite B2'.
      apply (advance_n_slow _ (Button_Timer_temp st) 0 Ht Hk). }
    rewrite (Button_Scan_hold_quiet _ _ Le) in H. injection H as <-.
    split; [exact P2 |]. split; [| exact R2].
    rewrite G2, <- G1. exact (fr_Home_Tracker _ _ F2).
  - injection H2 as <-.
    assert (Button_Timer (set_Button_Pressed false
              (emit (DigitalRead Button_Pin HIGH) s1)) <= 2) as Le.
    { change (snd (button_clock s1) <= 2). rewrite B1'.
      apply (advance_n_slow _ (Button_Timer_temp st) 0 Ht). lia. }
    rewrite (Button_Scan_hold_quiet _ _ Le) in H. injection H as <-.
    split; [reflexivity |]. split; [exact G1 | exact R1].
Qed.

(** The same tap on the same tracking machine, with the sub-tick
    counter at 10 and at 4: dropped, and taken. *)
Lemma tap_within_one_scan_witness :
  (exists st',
     Button_Scan (mkScan LOW 1 HIGH 1 0)
       (set_Button_Timer_temp 10 (set_Button_Pressed false long_hold))
       = Ok st' /\
     Run_Tracker st' = true /\ Button_Pressed st' = false) /\
  (exists st',
     Button_Scan (mkScan LOW 1 HIGH 1 0)
       (set_Button_Timer_temp 4 (set_Button_Pressed false long_hold))
       = Ok st' /\
     Run_Tracker st' = false /\ Button_Pressed st' = false).
Proof.
  split.
  - destruct (Button_Scan (mkScan LOW 1 HIGH 1 0)
                (set_Button_Timer_temp 10
                   (set_Button_Pressed false long_hold)))
      as [st' |] eqn:E; [| vm_compute in E; discriminate E].
    exists st'. split; [reflexivity |].
    destruct (tap_within_one_scan (mkScan LOW 1 HIGH 1 0)
                (set_Button_Timer_temp 10
                   (set_Button_Pressed false long_hold)) st'
                eq_refl eq_refl eq_refl
                ltac:(cbn; lia) ltac:(cbn; lia) E) as (P & _ & R & _).
    split; [exact R | exact P].
  - destruct (Button_Scan (mkScan LOW 1 HIGH 1 0)
                (set_Button_Timer_temp 4
                   (set_Button_Pressed false long_hold)))
      as [st' |] eqn:E; [| vm_compute in E; discriminate E].
    exists st'. split; [reflexivity |].
    destruct (tap_within_one_scan (mkScan LOW 1 HIGH 1 0)
                (set_Button_Timer_temp 4
                   (set_Button_Pressed false long_hold)) st'
                eq_refl eq_refl eq_refl
                ltac:(cbn; lia) ltac:(cbn; lia) E) as (P & _ & R & _).
    split; [exact R | exact P].
Defined.

(** ** The indicator *)

Lemma Timer_1_button_outputs (st st' : state) :
  Timer_1_button st = Ok st' ->
  Run_Tracker st' = Run_Tracker st /\ Toggle_Flag st' = Toggle_Flag st /\
  pins st' = pins st /\ trace st' = trace st.
Proof.
  destruct st as [run home pressed time bt steps smm lim rsi d1 d2 btt tt tog ps tr].
  unfold Timer_1_button. simpl. intros H.
  destruct pressed; [| injection H as <-; repeat split].
  destruct (btt >? 9); simpl in H.
  - destruct (as_int (bt + 1)); simpl in H; [| discriminate H].
    injection H as <-. repeat split.
  - destruct (as_int (btt + 1)); simpl in H; [| discriminate H].
    injection H as <-. repeat split.
Qed.

Lemma Timer_1_time_outputs (st st' : state) :
  Timer_1_time st = Ok st' ->
  Run_Tracker st' = Run_Tracker st /\ Toggle_Flag st' = Toggle_Flag st /\
  pins st' = pins st /\ trace st' = trace st.
Proof.
  destruct st as [run home pressed time bt steps smm lim rsi d1 d2 btt tt tog ps tr].
  unfold Timer_1_time. simpl. intros H.
  destruct run; [| injection H as <-; repeat split].
  destruct (tt >? 9); simpl in H.
  - destruct (as_int (time + 1)); simpl in H; [| discriminate H].
    injection H as <-. repeat split.
  - destruct (as_int (tt + 1)); simpl in H; [| discriminate H].
    injection H as <-. repeat split.
Qed.

Lemma Timer_1_toggles (st st' : state) :
  Timer_1 st = Ok st' -> Run_Tracker st = true ->
  Run_Tracker st' = true /\
  Toggle_Flag st' = negb (Toggle_Flag st) /\
  trace st' =
    DigitalWrite Status_Led_Pin (if Toggle_Flag st then HIGH else LOW) ::
    trace st /\
  pin_level st' Status_Led_Pin = (if Toggle_Flag st' then LOW else HIGH).
Proof.
  unfold Timer_1. intros H Hrun.
  apply bind_Ok_inv in H. destruct H as (s1 & H1 & H).
  apply bind_Ok_inv in H. destruct H as (s2 & H2 & H).
  injection H as <-.
  apply Timer_1_button_outputs in H1. destruct H1 as (R1 & G1 & P1 & T1).
  apply Timer_1_time_outputs in H2. destruct H2 as (R2 & G2 & P2 & T2).
  assert (Run_Tracker s2 = true) as R by congruence.
  assert (Toggle_Flag s2 = Toggle_Flag st) as G by congruence.
  assert (trace s2 = trace st) as T by congruence.
  unfold Timer_1_led, pin_level. rewrite R, G.
  destruct (Toggle_Flag st);
    cbn [Run_Tracker Toggle_Flag trace pins set_Toggle_Flag digitalWrite
         negb last_write];
    rewrite T; repeat split; assumption.
Qed.

Lemma interrupts_blink (n : nat) :
  forall st st', Run_Tracker st = true -> interrupts n st = Ok st' ->
  trace st' = blink n (Toggle_Flag st) ++ trace st /\
  Toggle_Flag st' =
    (if Nat.even n then Toggle_Flag st else negb (Toggle_Flag st)) /\
  ((0 < n)%nat ->
   pin_level st' Status_Led_Pin = (if Toggle_Flag st' then LOW else HIGH)).
Proof.
  induction n as [| n IH]; intros st st' Hrun H.
  - injection H as <-. repeat split. intros Hn. inversion Hn.
  - cbn [interrupts] in H.
    apply bind_Ok_inv in H. destruct H as (s1 & H1 & H).
    destruct (Timer_1_toggles _ _ H1 Hrun) as (R1 & G1 & T1 & P1).
    destruct (IH _ _ R1 H) as (T & G & P).
    split; [| split].
    + rewrite T, T1, G1. cbn [blink]. rewrite <- app_assoc. reflexivity.
    + rewrite G, G1. rewrite Nat.even_succ, <- Nat.negb_even.
      destruct (Nat.even n); cbn [negb];
        [reflexivity | apply Bool.negb_involutive].
    + intros _. destruct n as [| n].
      * injection H as <-. exact P1.
      * apply P. lia.
Qed.

(** X11.  While [Run_Tracker] is set every served interrupt writes the
    indicator once, alternating between on and off as [Toggle_Flag]
    alternates: [n] interrupts add [n] alternating writes to the
    history, leave [Toggle_Flag] as it was if [n] is even and inverted
    if odd, and leave the indicator at the level that the flag
    encodes.  While [Run_Tracker] is clear the handler writes nothing
    and the flag keeps its value. *)
Theorem indicator_blinks (n : nat) (st st' : state) :
  interrupts n st = Ok st' ->
  (Run_Tracker st = true ->
   trace st' = blink n (Toggle_Flag st) ++ trace st /\
   Toggle_Flag st' =
     (if Nat.even n then Toggle_Flag st else negb (Toggle_Flag st)) /\
   ((0 < n)%nat ->
    pin_level st' Status_Led_Pin =
      (if Toggle_Flag st' then LOW else HIGH))) /\
  (Run_Tracker st = false ->
   trace st' = trace st /\ Toggle_Flag st' = Toggle_Flag st /\
   pins st' = pins st).
Proof.
  intros H. split; intros Hrun.
  - apply (interrupts_blink n st st' Hrun H).
  - apply interrupts_frame in H.
    destruct (fr_stopped _ _ H Hrun) as (_ & _ & G & P & T).
    repeat split; assumption.
Qed.

Lemma indicator_blinks_witness :
  exists st',
    interrupts 3 at_limit = Ok st' /\
    trace st' =
      [DigitalWrite Status_Led_Pin LOW; DigitalWrite Status_Led_Pin HIGH;
       DigitalWrite Status_Led_Pin LOW] /\
    Toggle_Flag st' = true /\
    pin_level st' Status_Led_Pin = LOW.
Proof.
  destruct (interrupts 3 at_limit) as [st' |] eqn:E;
    [| vm_compute in E; discriminate E].
  exists st'. split; [reflexivity |].
  destruct (indicator_blinks 3 at_limit st' E) as (On & _).
  destruct (On eq_refl) as (T & G & P).
  split; [exact T |].
  assert (Toggle_Flag st' = true) as G' by exact G.
  split; [exact G' |].
  rewrite (P ltac:(lia)), G'. reflexivity.
Defined.

(** ** The pace of the steps *)

Lemma reachable_timing (fmt : float_format) (cfg : config) (st : state) :
  reachable fmt cfg st ->
  exists b st0, setup fmt cfg b = Ok st0 /\ timing st = timing st0.
Proof.
  induction 1 as [b st H | i st st' _ (b & st0 & E & T) H].
  - exists b, st. split; [exact H | reflexivity].
  - exists b, st0. split; [exact E |].
    apply loop_inv in H. destruct H as (T' & _). congruence.
Qed.

Lemma seek_home_waits (n : Z) (polls : list (level * nat)) :
  forall st st', seek_home n polls st = Ok st' ->
  waits_us (trace st') = waits_us (trace st).
Proof.
  induction polls as [| [v k] rest IH]; simpl; intros st st' H;
    [discriminate H |].
  destruct v.
  - injection H as <-. reflexivity.
  - apply bind_Ok_inv in H. destruct H as (s1 & H1 & H).
    apply delay_scan_frame in H1. apply IH in H.
    rewrite H. exact (sf_waits _ _ H1).
Qed.

Lemma Homeing_waits (polls : list (level * nat)) (st st' : state) :
  Homeing polls st = Ok st' -> waits_us (trace st') = waits_us (trace st).
Proof.
  unfold Homeing. intros H.
  destruct (Home_Tracker st); [| injection H as <-; reflexivity].
  apply bind_Ok_inv in H. destruct H as (s1 & H1 & H).
  injection H as <-.
  apply seek_home_waits in H1. exact H1.
Qed.

Lemma Tracking_waits (k1 k2 : nat) (st st' : state) :
  Tracking k1 k2 st = Ok st' -> Run_Tracker st = true ->
  waits_us (trace st') = Delay_2 st :: Delay_1 st :: waits_us (trace st).
Proof.
  intros H Hrun.
  destruct (Tracking_inv _ _ _ _ H Hrun)
    as (_ & _ & _ & _ & _ & _ & w1 & w2 & W1 & W2 & Tr & _).
  rewrite Tr.
  assert (waits_us
            (w2 ++ DelayMicroseconds (Delay_2 st) :: w1 ++
             DelayMicroseconds (Delay_1 st) :: StepperMove (-1) ::
             DigitalWrite Stepper_Speed HIGH :: trace st) =
          Delay_2 st :: Delay_1 st :: waits_us (trace st)) as A.
  { rewrite (waits_us_led w2) by exact W2. cbn [waits_us].
    rewrite (waits_us_led w1) by exact W1. reflexivity. }
  destruct (Steps st + 1 >? Step_Limit st); exact A.
Qed.

(** X12.  The constants that pace the motor are those that [setup]
    computed, in every state between passes.  A pass that takes a
    tracking step waits twice after it, first [Delay_1] and then
    [Delay_2] microseconds, with [Delay_1 <= 16000] and the two adding
    up to [Rotation_Step_Interval]; no other pass calls
    [delayMicroseconds] at all. *)
Theorem step_pacing (fmt : float_format) (cfg : config) (i : loop_input)
        (st st' : state) :
  reachable fmt cfg st -> loop i st = Ok st' ->
  (exists b st0, setup fmt cfg b = Ok st0 /\ timing st = timing st0) /\
  Delay_1 st <= 16000 /\
  Delay_1 st + Delay_2 st = Rotation_Step_Interval st /\
  ((moves (trace st') = (-1) :: moves (trace st) /\
    waits_us (trace st') =
      Delay_2 st :: Delay_1 st :: waits_us (trace st)) \/
   ((moves (trace st') = moves (trace st) \/
     exists j, moves (trace st') = repeat 1 j ++ moves (trace st)) /\
    waits_us (trace st') = waits_us (trace st))).
Proof.
  intros Hr H.
  destruct (reachable_timing _ _ _ Hr) as (b & st0 & E & T).
  split; [exists b, st0; split; assumption |].
  pose proof (setup_inv _ _ _ _ E) as (_ & _ & D1 & D2 & _).
  unfold timing in T. injection T as _ _ T3 T4 T5.
  split; [congruence |]. split; [congruence |].
  unfold loop in H.
  apply bind_Ok_inv in H. destruct H as (s1 & H1 & H).
  apply bind_Ok_inv in H. destruct H as (s2 & H2 & H).
  apply bind_Ok_inv in H. destruct H as (s3 & H3 & H).
  apply interrupts_frame in H1. apply isr_scan_frame in H1.
  apply Button_Scan_frame in H2.
  pose proof (scan_frame_trans _ _ _ H1 H2) as [_ W2 Tm M2 _ _ _ _].
  assert (Delay_1 s2 = Delay_1 st /\ Delay_2 s2 = Delay_2 st) as (E1 & E2).
  { unfold timing in Tm. split; congruence. }
  destruct (Home_Tracker s2) eqn:Hhome.
  - destruct (Homeing_inv _ _ _ H3 Hhome)
      as (_ & _ & R3 & _ & _ & _ & _ & (j & M3) & _).
    rewrite (Tracking_idle _ _ _ R3) in H. injection H as <-.
    right. split.
    + right. exists j. rewrite M3, M2. reflexivity.
    + rewrite (Homeing_waits _ _ _ H3). exact W2.
  - rewrite (Homeing_idle _ _ Hhome) in H3. injection H3 as <-.
    destruct (Run_Tracker s2) eqn:Hrun.
    + left. rewrite (Tracking_moves _ _ _ _ H Hrun), M2.
      rewrite (Tracking_waits _ _ _ _ H Hrun), W2, E1, E2.
      split; reflexivity.
    + rewrite (Tracking_idle _ _ _ Hrun) in H. injection H as <-.
      right. split; [left; exact M2 | exact W2].
Qed.

Lemma step_pacing_witness :
  exists st st',
    power_up binary64 (shipped 200) no_boot_button [quiet; held 0; released]
      = Ok st /\
    loop ticking st = Ok st' /\
    waits_us (trace st') = 4602 :: 16000 :: waits_us (trace st) /\
    Rotation_Step_Interval st = 20602.
Proof.
  destruct (power_up binary64 (shipped 200) no_boot_button
              [quiet; held 0; released]) as [st |] eqn:E;
    [| vm_compute in E; discriminate E].
  destruct (loop ticking st) as [st' |] eqn:L;
    [| vm_compute in E; injection E as <-; vm_compute in L; discriminate L].
  exists st, st'. split; [reflexivity |]. split; [exact L |].
  assert (Delay_1 st = 16000 /\ Delay_2 st = 4602 /\
          Rotation_Step_Interval st = 20602) as (D1 & D2 & R).
  { pose proof E as E'. vm_compute in E'. injection E' as <-.
    repeat split; reflexivity. }
  split; [| exact R].
  destruct (step_pacing binary64 (shipped 200) ticking st st')
    as (_ & _ & _ & [(_ & W) | (_ & W)]).
  - eapply power_up_reachable. exact E.
  - exact L.
  - rewrite W, D1, D2. reflexivity.
  - exfalso. pose proof E as E'. vm_compute in E'. injection E' as <-.
    vm_compute in L. injection L as <-. discriminate W.
Defined.

(** ** A pass always completes *)

Ltac room_fields :=
  unfold room in *;
  cbn [Button_Timer_temp Time_temp Button_Timer Time emit digitalWrite
       set_Run_Tracker set_Home_Tracker set_Button_Pressed set_Time
       set_Button_Timer set_Steps] in *;
  repeat split; int_range.

Lemma Button_Scan_latch_total (i : scan_input) (m : Z) (st : state) :
  0 <= m -> Z.of_nat (irq_latch i) + m <= INT_MAX ->
  room (Z.of_nat (irq_latch i) + m) st ->
  exists st', Button_Scan_latch i st = Ok st' /\ room m st'.
Proof.
  intros Hm Hb Hroom. unfold Button_Scan_latch.
  destruct (is_low (btn_first i));
    [| eexists; split; [reflexivity | room_fields]].
  cbn [Button_Pressed emit].
  destruct (Button_Pressed st); cbn [negb];
    [eexists; split; [reflexivity | room_fields] |].
  apply delay_spec; [exact Hm | room_fields].
Qed.

Lemma Button_Scan_release_total (i : scan_input) (m : Z) (st : state) :
  0 <= m -> Z.of_nat (irq_release i) + m <= INT_MAX ->
  room (Z.of_nat (irq_release i) + m) st ->
  exists st', Button_Scan_release i st = Ok st' /\ room m st'.
Proof.
  intros Hm Hb Hroom. unfold Button_Scan_release.
  destruct (Button_Pressed st);
    [| eexists; split; [reflexivity | room_fields]].
  destruct (btn_second i); cbn [is_high is_low negb];
    [eexists; split; [reflexivity | room_fields] |].
  cbn [Button_Timer Run_Tracker emit].
  destruct ((Button_Timer st <? 1) && negb (Run_Tracker st));
    [| destruct ((Button_Timer st <? 1) && Run_Tracker st);
       [| eexists; split; [reflexivity | room_fields]]];
    (destruct (delay_spec 100 (irq_release i) m
                 (emit (DigitalRead Button_Pin HIGH) st) Hm)
       as (s1 & E & R); [room_fields |]);
    rewrite E; cbn [bind];
    (eexists; split; [reflexivity | room_fields]).
Qed.

Lemma Button_Scan_hold_total (i : scan_input) (m : Z) (st : state) :
  0 <= m -> Z.of_nat (irq_hold i) + m <= INT_MAX ->
  room (Z.of_nat (irq_hold i) + m) st ->
  exists st', Button_Scan_hold i st = Ok st' /\ room m st'.
Proof.
  intros Hm Hb Hroom. unfold Button_Scan_hold.
  destruct (Button_Timer st >? 2);
    [| eexists; split; [reflexivity | room_fields]].
  destruct (delay_spec 100 (irq_hold i) m st Hm) as (s1 & E & R);
    [exact Hroom |].
  rewrite E. cbn [bind].
  eexists. split; [reflexivity | room_fields].
Qed.

Lemma Button_Scan_total (i : scan_input) (m : Z) (st : state) :
  0 <= m ->
  Z.of_nat (irq_latch i) + Z.of_nat (irq_release i) +
    Z.of_nat (irq_hold i) + m <= INT_MAX ->
  room (Z.of_nat (irq_latch i) + Z.of_nat (irq_release i) +
        Z.of_nat (irq_hold i) + m) st ->
  exists st', Button_Scan i st = Ok st' /\ room m st'.
Proof.
  intros Hm Hb Hroom. unfold Button_Scan.
  destruct (Button_Scan_latch_total i
              (Z.of_nat (irq_release i) + Z.of_nat (irq_hold i) + m) st)
    as (s1 & E1 & R1); [lia | lia | |].
  { apply room_le with (2 := Hroom). lia. }
  destruct (Button_Scan_release_total i (Z.of_nat (irq_hold i) + m) s1)
    as (s2 & E2 & R2); [lia | lia | |].
  { apply room_le with (2 := R1). lia. }
  destruct (Button_Scan_hold_total i m s2) as (s3 & E3 & R3);
    [lia | lia | exact R2 |].
  exists s3. rewrite E1. cbn [bind]. rewrite E2. cbn [bind].
  split; [exact E3 | exact R3].
Qed.

(** X13.  A pass of [loop] entered between passes returns: it cannot
    fail on arithmetic as long as the interrupts it is to serve fit
    below [INT_MAX] on top of both counts and [Steps] is below
    [LONG_MAX], and it cannot hang as long as the switch reads closed
    at some poll. *)
Theorem pass_completes (fmt : float_format) (cfg : config)
        (i : loop_input) (st : state) :
  reachable fmt cfg st ->
  In LOW (map fst (home_polls i)) ->
  Steps st < LONG_MAX ->
  Button_Timer st + irq_pass i <= INT_MAX ->
  Time st + irq_pass i <= INT_MAX ->
  exists st', loop i st = Ok st'.
Proof.
  intros Hr Hin Hs Hb Ht.
  destruct (reachable_clocks _ _ _ Hr) as ((C1 & C2 & C3 & C4) & _).
  destruct (reachable_nonneg _ _ _ Hr) as (Hpos & _).
  pose proof (irq_total_nonneg (home_polls i)) as Hnn.
  unfold irq_pass in Hb, Ht.
  set (kb := Z.of_nat (irq_latch (scan i)) + Z.of_nat (irq_release (scan i)) +
             Z.of_nat (irq_hold (scan i))) in *.
  set (kt := Z.of_nat (irq_delay_1 i) + Z.of_nat (irq_delay_2 i)) in *.
  assert (0 <= kb /\ 0 <= kt) as (Hkb & Hkt) by (unfold kb, kt; lia).
  unfold loop.
  destruct (interrupts_spec (irq_idle i)
              (kb + (irq_total (home_polls i) + kt)) st)
    as (s1 & E1 & F1 & R1 & _); [lia | unfold room; repeat split; int_range |].
  rewrite E1. cbn [bind].
  destruct (Button_Scan_total (scan i) (irq_total (home_polls i) + kt) s1)
    as (s2 & E2 & R2); [lia | fold kb; lia | fold kb |].
  { apply room_le with (2 := R1). lia. }
  rewrite E2. cbn [bind].
  assert (Steps s2 = Steps st) as S2.
  { destruct (Button_Scan_inv _ _ _ E2) as (S2 & _).
    rewrite S2. apply (fr_Steps _ _ F1). }
  destruct (Home_Tracker s2) eqn:Hhome.
  - destruct (Homeing_total (home_polls i) s2 Hhome Hin) as (s3 & E3).
    { apply room_le with (2 := R2). lia. }
    rewrite E3. cbn [bind].
    destruct (Homeing_inv _ _ _ E3 Hhome) as (_ & _ & R3 & _).
    rewrite (Tracking_idle _ _ _ R3). exists s3. reflexivity.
  - rewrite (Homeing_idle _ _ Hhome). cbn [bind].
    destruct (Run_Tracker s2) eqn:Hrun.
    + apply Tracking_total; [exact Hrun | rewrite S2; int_range |].
      apply room_le with (2 := R2). fold kt. lia.
    + rewrite (Tracking_idle _ _ _ Hrun). exists s2. reflexivity.
Qed.

Lemma pass_completes_witness :
  exists st st',
    power_up binary64 (shipped 400) no_boot_button [quiet; held 0; released]
      = Ok st /\
    loop (mkLoop 3 (mkScan LOW 1 LOW 2 1) [(HIGH, 1%nat); (LOW, 0%nat)] 4 5) st
      = Ok st'.
Proof.
  destruct (power_up binary64 (shipped 400) no_boot_button
              [quiet; held 0; released]) as [st |] eqn:E;
    [| vm_compute in E; discriminate E].
  assert (Steps st = 1 /\ Button_Timer st = 0 /\ Time st = 0)
    as (S' & B & T).
  { pose proof E as E'. vm_compute in E'. injection E' as <-.
    repeat split; reflexivity. }
  destruct (pass_completes binary64 (shipped 400)
              (mkLoop 3 (mkScan LOW 1 LOW 2 1)
                 [(HIGH, 1%nat); (LOW, 0%nat)] 4 5) st)
    as (st' & L).
  - eapply power_up_reachable. exact E.
  - right. left. reflexivity.
  - rewrite S'. reflexivity.
  - rewrite B. vm_compute. discriminate.
  - rewrite T. vm_compute. discriminate.
  - exists st, st'. split; [reflexivity | exact L].
Defined.
